(** * The CRX crawler's acquisition engine (src/crx-crawler/crx-crawler.js)

    A shallow embedding of [EnhancedCRXCrawler]: the per-item orchestrator
    [downloadExtension], the strategy chain behind [tryDownloadStrategy],
    the endpoint transfer [downloadFileDirectly] and the batch scheduler
    [processBatch], followed by the properties of the specification; then
    the report object of [generateFinalReport], [formatDuration] and
    [loadExtensionIds], with what the code shows of them.

    JavaScript's [async]/[await] code is written in a state-and-exception
    monad over a [World] holding the download directory's files, the
    crawler's [stats] object and a trace of the calls made to the outside
    (requests, browser sessions, timers).  What the outside answers is an
    [Env] of oracles that may depend on everything that happened before.

    What the model leaves out:
    - time: a timer is an event of the trace, and a request that runs into
      its idle timeout is a request that fails;
    - promises that never settle: a response closed by the remote side in
      the middle of its body, for which [downloadFileDirectly] has no
      handler, leaves the call pending for ever, and such a run has no
      result for the properties below to be about;
    - interleaving: the tasks of one batch run to completion one after the
      other, in index order (JavaScript runs them on one thread, so each
      counter update is atomic in any interleaving);
    - console output, and failures of [page.close()] and of the checkpoint
      write once its path is built;
    - the floating-point rates and averages of the report and of the
      progress line, and the browser's life cycle in [crawl].

    [downloadFileDirectly] is the same, line for line, in the
    direct-API-only variant of the crawler. *)

From Stdlib Require Import ZArith String List Lia.
From stdpp Require Import gmap strings list pretty.

Local Open Scope string_scope.
Local Open Scope Z_scope.

(** ** Data model *)

(** The value of [this.downloadDir]: the constructor stores whatever truthy
    value [options.downloadDir] holds, and [path.join] only accepts strings. *)
Inductive JsVal :=
| JStr (s : string)
| JNum (n : Z)
| JUndefined.

Definition truthy (v : JsVal) : bool :=
  match v with
  | JStr s => negb (String.eqb s EmptyString)
  | JNum n => negb (n =? 0)
  | JUndefined => false
  end.

(** [status] of a per-item result record. *)
Inductive Status := St_success | St_not_found | St_failed | St_skipped.

#[global] Instance Status_eq_dec : EqDecision Status.
Proof. solve_decision. Defined.

(** The record [downloadExtension] returns; [duration] (wall-clock) is left out. *)
Record ItemResult := mkItemResult {
  extensionId : string;
  status : Status;
  strategy : option string;
  filepath : option string;
  size : option Z;
  error : option string
}.

(** What a strategy resolves to: [{ success: true, filepath, size }] or
    [{ success: false, error }]. *)
Inductive StrategyResult :=
| StratOk (file : string) (bytes : Z)
| StratFail (reason : string).

(** One entry of [stats.strategyStats]. *)
Record StrategyCounts := mkCounts {
  sc_success : Z;
  sc_failed : Z;
  sc_error : Z
}.

(** [this.stats] ([startTime] is left out). *)
Record Stats := mkStats {
  total : Z;
  completed : Z;
  failed : Z;
  notFound : Z;
  skipped : Z;
  lastCheckpoint : Z;
  strategyStats : gmap string StrategyCounts
}.

(** The fields of the crawler object that the engine reads. *)
Record Crawler := mkCrawler {
  downloadDir : JsVal;
  concurrency : Z;
  delayBetweenRequests : Z;
  retryAttempts : Z;
  downloadStrategies : list string;
  checkpointInterval : Z
}.

(** The constructor's [options] object; [None] is an absent key. *)
Record Options := mkOptions {
  opt_downloadDir : JsVal;
  opt_concurrency : option Z;
  opt_delayBetweenRequests : option Z;
  opt_retryAttempts : option Z
}.

(** [options.x || d] on a number. *)
Definition or_default (o : option Z) (d : Z) : Z :=
  match o with
  | Some n => if n =? 0 then d else n
  | None => d
  end.

Definition new_crawler (options : Options) : Crawler :=
  {| downloadDir :=
       if truthy (opt_downloadDir options) then opt_downloadDir options
       else JStr "./downloads/crx_extensions";
     concurrency := or_default (opt_concurrency options) 2;
     delayBetweenRequests := or_default (opt_delayBetweenRequests options) 6000;
     retryAttempts := or_default (opt_retryAttempts options) 3;
     downloadStrategies := ["crxviewer"; "directapi"; "crxextractor"; "crxviewer_com"];
     checkpointInterval := 100 |}.

Definition fresh_stats : Stats :=
  {| total := 0; completed := 0; failed := 0; notFound := 0; skipped := 0;
     lastCheckpoint := 0; strategyStats := ∅ |}.

(** ** The world outside the crawler *)

(** Calls that leave the crawler, in the order they are made. *)
Inductive Event :=
| EvAttempt (id : string) (attempt : Z)     (* body of downloadExtension entered *)
| EvStrategy (name id : string)             (* tryDownloadStrategy(name, id) *)
| EvRequest (url : string)                  (* protocol.get(url, ...) *)
| EvBrowser (target : string)               (* a puppeteer page is opened *)
| EvSleep (ms : Z)                          (* this.sleep(ms) *)
| EvBatch (batch : list string)             (* a batch is launched *)
| EvCheckpoint (processed : nat).           (* saveCheckpoint(results) *)

(** How the body of a 200 response ends up on disk, as the handlers of
    [downloadFileDirectly] see it: the write stream emits [finish] after
    [bytes] bytes; or one of the events that reject the promise comes first
    (the write stream's [error], the request's [error], the idle timeout
    that destroys the request), leaving [written] bytes behind, [None] when
    the file could not even be created.  The code has no handler for a
    response that the remote side closes in the middle of the body: none of
    these events is raised then and the promise never settles.  No
    [Transfer] stands for that, the model being one of the runs in which
    every awaited promise settles. *)
Inductive Transfer :=
| Finished (bytes : Z)
| Aborted (written : option Z) (message : string).

(** What the remote side does with one [protocol.get]: the request fails
    before a response, or a response arrives.  [ResponseLocation] is a
    response that carries a [Location] header, whose value may be the empty
    string, and [next] is the exchange a request to that location leads
    to. *)
Inductive HttpExchange :=
| RequestFailed (message : string)
| Response (statusCode : Z) (statusMessage : string) (body : Transfer)
| ResponseLocation (statusCode : Z) (statusMessage : string)
    (location : string) (next : HttpExchange) (body : Transfer).

(** The robwu.nl page session up to the value of [waitForCRXViewerResult]. *)
Inductive ViewerSession :=
| ViewerThrows (message : string)
| ViewerLink (downloadUrl : string)
| ViewerNoLink (reason : string).

(** [downloadPage.goto(blobUrl)] and the buffer it yields. *)
Inductive BlobFetch :=
| BlobThrows (message : string)
| BlobResponse (ok : bool) (code : Z) (bytes : Z).

(** The crxextractor.com / crxviewer.com sessions up to the [href] found. *)
Inductive LinkSession :=
| LinkThrows (message : string)
| LinkFound (href : string).

Record Env := mkEnv {
  net : list Event -> string -> HttpExchange;
  viewerPage : list Event -> string -> ViewerSession;
  blobPage : list Event -> string -> BlobFetch;
  extractorPage : list Event -> string -> LinkSession;
  viewerComPage : list Event -> string -> LinkSession
}.

Record World := mkWorld {
  fs : gmap string Z;          (* path ↦ size of the file stored there *)
  stats : Stats;
  trace : list Event
}.

Definition set_fs (f : gmap string Z -> gmap string Z) (w : World) : World :=
  {| fs := f (fs w); stats := stats w; trace := trace w |}.

Definition set_stats (f : Stats -> Stats) (w : World) : World :=
  {| fs := fs w; stats := f (stats w); trace := trace w |}.

Definition emit (e : Event) (w : World) : World :=
  {| fs := fs w; stats := stats w; trace := trace w ++ [e] |}.

(** ** Promises as state and exceptions *)

Inductive Completion (A : Type) :=
| Return (a : A)
| Throw (message : string).
Arguments Return {A} a.
Arguments Throw {A} message.

Definition M (A : Type) : Type := World -> Completion A * World.

Definition ret {A} (a : A) : M A := fun w => (Return a, w).

Definition throw {A} (message : string) : M A := fun w => (Throw message, w).

Definition bind {A B} (m : M A) (k : A -> M B) : M B :=
  fun w =>
    match m w with
    | (Return a, w') => k a w'
    | (Throw e, w') => (Throw e, w')
    end.

(** [try { m } catch (e) { h e }] *)
Definition try_catch {A} (m : M A) (h : string -> M A) : M A :=
  fun w =>
    match m w with
    | (Return a, w') => (Return a, w')
    | (Throw e, w') => h e w'
    end.

(** Runs [m] and hands its completion to the continuation: the shape of a
    [try]/[catch] whose two branches both fall through to the code after it. *)
Definition settled {A} (m : M A) : M (Completion A) :=
  fun w => let (c, w') := m w in (Return c, w').

Definition lift {A} (c : Completion A) : M A := fun w => (c, w).

Definition modify (f : World -> World) : M unit := fun w => (Return tt, f w).

Definition history : M (list Event) := fun w => (Return (trace w), w).

Declare Scope crawl_scope.
Delimit Scope crawl_scope with crawl.
Notation "x <- m ;; k" := (bind m (fun x => k))
  (at level 100, m at next level, right associativity) : crawl_scope.
Notation "m ;;; k" := (bind m (fun _ => k))
  (at level 100, right associativity) : crawl_scope.
Local Open Scope crawl_scope.

(** ** Primitives *)

(** [path.join(dir, file)]: a [TypeError] unless [dir] is a string.  The
    normalisation [path.join] performs only renames the key. *)
Definition path_join (dir : JsVal) (file : string) : Completion string :=
  match dir with
  | JStr d => Return (d +:+ "/" +:+ file)
  | _ => Throw "The path argument must be of type string"
  end.

(** [(await fs.stat(p)).size] *)
Definition fs_stat (p : string) : M Z :=
  fun w =>
    match fs w !! p with
    | Some n => (Return n, w)
    | None => (Throw "ENOENT: no such file or directory", w)
    end.

Definition write_file (p : string) (bytes : Z) : M unit :=
  modify (set_fs (<[p := bytes]>)).

Definition sleep (ms : Z) : M unit := modify (emit (EvSleep ms)).

Definition bump_counts (outcome : string) (c : StrategyCounts) : StrategyCounts :=
  if String.eqb outcome "success" then
    {| sc_success := sc_success c + 1; sc_failed := sc_failed c; sc_error := sc_error c |}
  else if String.eqb outcome "failed" then
    {| sc_success := sc_success c; sc_failed := sc_failed c + 1; sc_error := sc_error c |}
  else
    {| sc_success := sc_success c; sc_failed := sc_failed c; sc_error := sc_error c + 1 |}.

Definition with_strategyStats (f : gmap string StrategyCounts -> gmap string StrategyCounts)
    (s : Stats) : Stats :=
  {| total := total s; completed := completed s; failed := failed s;
     notFound := notFound s; skipped := skipped s;
     lastCheckpoint := lastCheckpoint s; strategyStats := f (strategyStats s) |}.

Definition updateStrategyStats (name outcome : string) : M unit :=
  modify (set_stats (with_strategyStats (fun m =>
    <[name := bump_counts outcome (default (mkCounts 0 0 0) (m !! name))]> m))).

(** [this.stats.<counter>++] for the counter that goes with a status. *)
Definition count_status (st : Status) (s : Stats) : Stats :=
  {| total := total s;
     completed := completed s + (if decide (st = St_success) then 1 else 0);
     failed := failed s + (if decide (st = St_failed) then 1 else 0);
     notFound := notFound s + (if decide (st = St_not_found) then 1 else 0);
     skipped := skipped s + (if decide (st = St_skipped) then 1 else 0);
     lastCheckpoint := lastCheckpoint s;
     strategyStats := strategyStats s |}.

Definition get_stats : M Stats := fun w => (Return (stats w), w).

Definition with_lastCheckpoint (n : Z) (s : Stats) : Stats :=
  {| total := total s; completed := completed s; failed := failed s;
     notFound := notFound s; skipped := skipped s;
     lastCheckpoint := n; strategyStats := strategyStats s |}.

(** [l.slice(s, e)] for integer arguments. *)
Definition js_slice {A} (l : list A) (s e : Z) : list A :=
  let len := Z.of_nat (length l) in
  let from := if s <? 0 then Z.max (len + s) 0 else Z.min s len in
  let to := if e <? 0 then Z.max (len + e) 0 else Z.min e len in
  take (Z.to_nat (to - from)) (drop (Z.to_nat from) l).

(** ** The crawler's methods *)

Section Engine.
Context (this : Crawler) (env : Env).

(** *** downloadFileDirectly *)

(** The tail of the response callback once the redirect test has failed:
    status check, write stream, [stat], size check. *)
Definition receive (statusCode : Z) (statusMessage : string) (body : Transfer)
    (file : string) : M StrategyResult :=
  if negb (statusCode =? 200) then
    throw ("HTTP " +:+ pretty statusCode +:+ ": " +:+ statusMessage)
  else
    match body with
    | Aborted written message =>
        match written with
        | Some n => write_file file n
        | None => ret tt
        end ;;;
        throw message
    | Finished bytes =>
        write_file file bytes ;;;
        size <- fs_stat file ;;
        if size <? 1000 then throw "Downloaded file too small"
        else ret (StratOk file size)
    end.

(** One [protocol.get] and its callbacks, the remote side behaving as [x];
    a 3xx response with a [Location] header that is not the empty string
    (which JavaScript takes for false) re-enters with that location, and
    the promise then settles as the inner one does. *)
Fixpoint exchange (x : HttpExchange) (url extensionId : string) : M StrategyResult :=
  file <- lift (path_join (downloadDir this) (extensionId +:+ ".zip")) ;;
  modify (emit (EvRequest url)) ;;;
  match x with
  | RequestFailed message => throw message
  | Response statusCode statusMessage body =>
      receive statusCode statusMessage body file
  | ResponseLocation statusCode statusMessage location next body =>
      if (300 <=? statusCode) && (statusCode <? 400)
         && negb (String.eqb location EmptyString)
      then exchange next location extensionId
      else receive statusCode statusMessage body file
  end.

Definition downloadFileDirectly (url extensionId : string) : M StrategyResult :=
  h <- history ;;
  exchange (net env h url) url extensionId.

(** *** downloadViaDirectAPI *)

Definition apiUrls (extensionId : string) : list string :=
  [ "https://clients2.google.com/service/update2/crx?response=redirect&os=win&arch=x86-64&nacl_arch=x86-64&prod=chromiumcrx&prodchannel=stable&prodversion=120.0.0.0&acceptformat=crx2,crx3&x=id%3D"
      +:+ extensionId +:+ "%26uc";
    "https://clients2.google.com/service/update2/crx?response=redirect&prodversion=120.0.0.0&x=id="
      +:+ extensionId +:+ "&uc";
    "https://edge.microsoft.com/extensionwebstorebase/v1/crx?response=redirect&x=id="
      +:+ extensionId +:+ "&uc" ].

Fixpoint tryEndpoints (urls : list string) (extensionId : string) : M StrategyResult :=
  match urls with
  | [] => ret (StratFail "All direct API endpoints failed")
  | url :: rest =>
      r <- settled (downloadFileDirectly url extensionId) ;;
      match r with
      | Return (StratOk file bytes) => ret (StratOk file bytes)
      | Return (StratFail _) | Throw _ => tryEndpoints rest extensionId
      end
  end.

Definition downloadViaDirectAPI (extensionId : string) : M StrategyResult :=
  tryEndpoints (apiUrls extensionId) extensionId.

(** *** The browser-mediated strategies *)

Definition downloadFileFromBlob (blobUrl extensionId : string) : M (string * Z) :=
  modify (emit (EvBrowser blobUrl)) ;;;
  file <- lift (path_join (downloadDir this) (extensionId +:+ ".zip")) ;;
  h <- history ;;
  match blobPage env h blobUrl with
  | BlobThrows message => throw message
  | BlobResponse ok code bytes =>
      if negb ok then throw ("Failed to fetch blob: " +:+ pretty code)
      else
        write_file file bytes ;;;
        size <- fs_stat file ;;
        if size <? 1000 then throw "Downloaded file is too small, likely an error"
        else ret (file, size)
  end.

Definition or_message (e fallback : string) : string :=
  if String.eqb e EmptyString then fallback else e.

Definition downloadViaCRXViewer (extensionId : string) : M StrategyResult :=
  modify (emit (EvBrowser "https://robwu.nl/crxviewer/")) ;;;
  h <- history ;;
  match viewerPage env h extensionId with
  | ViewerThrows message => throw message
  | ViewerLink downloadUrl =>
      if String.eqb downloadUrl EmptyString
      then ret (StratFail "No download link found")
      else
        downloadResult <- downloadFileFromBlob downloadUrl extensionId ;;
        ret (StratOk (fst downloadResult) (snd downloadResult))
  | ViewerNoLink reason =>
      ret (StratFail (or_message reason "No download link found"))
  end.

(** Shared by the two sessions that end in [page.$eval(..., el => el.href)]. *)
Definition viaLink (session : LinkSession) (missing : string)
    (extensionId : string) : M StrategyResult :=
  match session with
  | LinkThrows message => throw message
  | LinkFound downloadLink =>
      if String.eqb downloadLink EmptyString
      then ret (StratFail missing)
      else downloadFileDirectly downloadLink extensionId
  end.

Definition downloadViaCRXExtractor (extensionId : string) : M StrategyResult :=
  modify (emit (EvBrowser "https://crxextractor.com/")) ;;;
  h <- history ;;
  viaLink (extractorPage env h extensionId)
    "No download link found on CRXExtractor" extensionId.

Definition downloadViaCRXViewerCom (extensionId : string) : M StrategyResult :=
  modify (emit (EvBrowser "https://crxviewer.com/")) ;;;
  h <- history ;;
  viaLink (viewerComPage env h extensionId)
    "No download link found on CRXViewer.com" extensionId.

Definition tryDownloadStrategy (name extensionId : string) : M StrategyResult :=
  modify (emit (EvStrategy name extensionId)) ;;;
  if String.eqb name "crxviewer" then downloadViaCRXViewer extensionId
  else if String.eqb name "directapi" then downloadViaDirectAPI extensionId
  else if String.eqb name "crxextractor" then downloadViaCRXExtractor extensionId
  else if String.eqb name "crxviewer_com" then downloadViaCRXViewerCom extensionId
  else throw ("Unknown strategy: " +:+ name).

(** *** downloadExtension *)

Definition item (id : string) (st : Status) (via file : option string)
    (bytes : option Z) (message : option string) : ItemResult :=
  {| extensionId := id; status := st; strategy := via; filepath := file;
     size := bytes; error := message |}.

(** The [for (const strategy of this.downloadStrategies)] loop and the
    code after it. *)
Fixpoint tryStrategies (names : list string) (id : string) : M ItemResult :=
  match names with
  | [] =>
      modify (set_stats (count_status St_not_found)) ;;;
      ret (item id St_not_found None None None (Some "All download strategies failed"))
  | name :: rest =>
      result <- settled (tryDownloadStrategy name id) ;;
      match result with
      | Return (StratOk file bytes) =>
          modify (set_stats (count_status St_success)) ;;;
          updateStrategyStats name "success" ;;;
          ret (item id St_success (Some name) (Some file) (Some bytes) None)
      | Return (StratFail _) =>
          updateStrategyStats name "failed" ;;;
          sleep 2000 ;;;
          tryStrategies rest id
      | Throw _ =>
          updateStrategyStats name "error" ;;;
          sleep 2000 ;;;
          tryStrategies rest id
      end
  end.

(** The outer [try] block: existing-artifact check, then the strategies. *)
Definition attemptBody (id : string) : M ItemResult :=
  expectedFile <- lift (path_join (downloadDir this) (id +:+ ".zip")) ;;
  probe <- settled (fs_stat expectedFile) ;;
  match probe with
  | Return bytes =>
      if bytes >? 1000 then
        modify (set_stats (count_status St_skipped)) ;;;
        ret (item id St_skipped None (Some expectedFile) (Some bytes) None)
      else tryStrategies (downloadStrategies this) id
  | Throw _ => tryStrategies (downloadStrategies this) id
  end.

Definition retryDelay (attempt : Z) : Z := Z.min (5000 * attempt) 15000.

(** The outer [catch] block, given what a retry does. *)
Definition onError (id : string) (attempt : Z) (retry : option (M ItemResult))
    (message : string) : M ItemResult :=
  if attempt <? retryAttempts this then
    sleep (retryDelay attempt) ;;;
    match retry with
    | Some again => again
    | None => throw message
    end
  else
    modify (set_stats (count_status St_failed)) ;;;
    ret (item id St_failed None None None (Some message)).

(** [downloadExtension] recursing on the number of retries still allowed. *)
Fixpoint downloadExtension_within (retries : nat) (id : string) (attempt : Z)
    : M ItemResult :=
  modify (emit (EvAttempt id attempt)) ;;;
  try_catch (attemptBody id)
    (onError id attempt
       match retries with
       | S fewer => Some (downloadExtension_within fewer id (attempt + 1))
       | O => None
       end).

Definition downloadExtension (id : string) (attempt : Z) : M ItemResult :=
  downloadExtension_within (Z.to_nat (retryAttempts this - attempt)) id attempt.

(** *** processBatch *)

(** [printProgress]'s count of finished items. *)
Definition processed (s : Stats) : Z :=
  completed s + failed s + notFound s + skipped s.

(** The snapshot goes to [checkpoint_<clock>.json] in the download
    directory, a name no artifact has.  Once the path is built the write is
    taken to succeed, and is recorded as an event. *)
Definition saveCheckpoint (results : list ItemResult) : M unit :=
  checkpointFile <- lift (path_join (downloadDir this) "checkpoint_.json") ;;
  modify (emit (EvCheckpoint (length results))).

(** [batch.map(async (extensionId, index) => ...)] awaited by
    [Promise.all]: the tasks are run to completion in index order, which
    is also the order of the resolved array. *)
Fixpoint runBatch (batch : list string) (index : Z) : M (list ItemResult) :=
  match batch with
  | [] => ret []
  | id :: rest =>
      sleep (index * 1000) ;;;
      result <- downloadExtension id 1 ;;
      others <- runBatch rest (index + 1) ;;
      ret (result :: others)
  end.

(** The checkpoint test that follows [results.push(...batchResults)]. *)
Definition checkpointIfDue (results : list ItemResult) : M unit :=
  s <- get_stats ;;
  if Z.of_nat (length results) - lastCheckpoint s >=? checkpointInterval this
  then
    saveCheckpoint results ;;;
    modify (set_stats (with_lastCheckpoint (Z.of_nat (length results))))
  else ret tt.

Definition interBatchDelay (extensionIds : list string) (i : Z) : M unit :=
  if i + concurrency this <? Z.of_nat (length extensionIds)
  then sleep (delayBetweenRequests this)
  else ret tt.

(** One turn of the [for] loop, returning the grown [results]. *)
Definition batchTurn (extensionIds : list string) (i : Z)
    (results : list ItemResult) : M (list ItemResult) :=
  let batch := js_slice extensionIds i (i + concurrency this) in
  modify (emit (EvBatch batch)) ;;;
  batchResults <- runBatch batch 0 ;;
  let results := (results ++ batchResults)%list in
  checkpointIfDue results ;;;
  interBatchDelay extensionIds i ;;;
  ret results.

(** The loop [for (let i = 0; i < extensionIds.length; i += concurrency)];
    [None] when more than [fuel] turns are needed. *)
Fixpoint processBatch_from (fuel : nat) (extensionIds : list string) (i : Z)
    (results : list ItemResult) (w : World)
    : option (Completion (list ItemResult) * World) :=
  if i <? Z.of_nat (length extensionIds) then
    match fuel with
    | O => None
    | S fuel' =>
        match batchTurn extensionIds i results w with
        | (Return results', w') =>
            processBatch_from fuel' extensionIds (i + concurrency this) results' w'
        | (Throw e, w') => Some (Throw e, w')
        end
    end
  else Some (Return results, w).

Definition processBatch (fuel : nat) (extensionIds : list string) (w : World)
    : option (Completion (list ItemResult) * World) :=
  processBatch_from fuel extensionIds 0 [] w.

End Engine.

(** ** Views of the world and the computations that leave them alone *)

(** The attempts of [downloadExtension], the timers, the launched batches,
    the checkpoints and the calls to strategies and remote services, as
    recorded in a trace. *)
Definition attempts_of (t : list Event) : list (string * Z) :=
  omap (fun e => match e with EvAttempt id a => Some (id, a) | _ => None end) t.

Definition sleeps_of (t : list Event) : list Z :=
  omap (fun e => match e with EvSleep ms => Some ms | _ => None end) t.

Definition batches_of (t : list Event) : list (list string) :=
  omap (fun e => match e with EvBatch b => Some b | _ => None end) t.

Definition checkpoints_of (t : list Event) : list nat :=
  omap (fun e => match e with EvCheckpoint n => Some n | _ => None end) t.

Definition is_call (e : Event) : bool :=
  match e with
  | EvStrategy _ _ | EvRequest _ | EvBrowser _ => true
  | _ => false
  end.

(** Strategy invocations, requests and browser sessions. *)
Definition calls_of (t : list Event) : list Event := List.filter is_call t.

(** Events that strategies and the pauses between them produce. *)
Definition inner (e : Event) : bool :=
  match e with
  | EvStrategy _ _ | EvRequest _ | EvBrowser _ | EvSleep _ => true
  | _ => false
  end.

(** The four status counters of [stats]. *)
Definition counters (w : World) : Z * Z * Z * Z :=
  (completed (stats w), failed (stats w), notFound (stats w), skipped (stats w)).

(** What the batch scheduler keeps track of. *)
Definition schedule (w : World) : list (list string) * list nat * Z :=
  (batches_of (trace w), checkpoints_of (trace w), lastCheckpoint (stats w)).

(** The computation [m] leaves the view [f] of the world as it found it. *)
Definition preserves {X A} (f : World -> X) (m : M A) : Prop :=
  forall w, f (snd (m w)) = f w.

(** A view that no strategy can change: it ignores the files, the
    per-strategy counts and the inner events. *)
Record StrategyBlind {X} (f : World -> X) : Prop := {
  blind_fs : forall g w, f (set_fs g w) = f w;
  blind_strategyStats : forall g w, f (set_stats (with_strategyStats g) w) = f w;
  blind_event : forall e w, inner e = true -> f (emit e w) = f w
}.

(** A strategy result that claims success names a file of at least 1000
    bytes that is on disk with that size. *)
Definition sized (r : StrategyResult) (w : World) : Prop :=
  match r with
  | StratOk file bytes => 1000 <= bytes /\ fs w !! file = Some bytes
  | StratFail _ => True
  end.

(** Whenever [m] returns, [Q] holds of its value and of the world it
    leaves. *)
Definition ensures {A} (m : M A) (Q : A -> World -> Prop) : Prop :=
  forall w a w', m w = (Return a, w') -> Q a w'.

(** The effect of [this.stats.<counter>++] on the four counters. *)
Definition bump (st : Status) (c : Z * Z * Z * Z) : Z * Z * Z * Z :=
  let '(done, bad, missing, kept) := c in
  match st with
  | St_success => (done + 1, bad, missing, kept)
  | St_failed => (done, bad + 1, missing, kept)
  | St_not_found => (done, bad, missing + 1, kept)
  | St_skipped => (done, bad, missing, kept + 1)
  end.

(** The condition under which the existing-artifact check of
    [downloadExtension] returns early: a file at the path derived from the
    identifier whose size exceeds 1000 bytes. *)
Definition usableArtifact (this : Crawler) (id : string) (w : World) : bool :=
  match path_join (downloadDir this) (id +:+ ".zip") with
  | Return expectedFile =>
      match fs w !! expectedFile with
      | Some bytes => bytes >? 1000
      | None => false
      end
  | Throw _ => false
  end.

(** A strategy call that did not produce an artifact. *)
Definition fails (c : Completion StrategyResult) : Prop :=
  match c with
  | Return (StratOk _ _) => False
  | Return (StratFail _) | Throw _ => True
  end.

(** [downloadFileDirectly] settles in one of two ways: it resolves with
    the artifact's path and a size of at least 1000 bytes, which is the size
    of the file on disk, or it rejects. *)
Definition delivered (this : Crawler) (id : string)
    (c : Completion StrategyResult) (w : World) : Prop :=
  match c with
  | Return (StratOk file bytes) =>
      path_join (downloadDir this) (id +:+ ".zip") = Return file /\
      1000 <= bytes /\ fs w !! file = Some bytes
  | Return (StratFail _) => False
  | Throw _ => True
  end.

(** From [w] the strategies [names] are invoked one after the other for
    [id] and none of them produces an artifact: each resolves without
    success or throws, is booked as [failed] or as [error], and is followed
    by the pause of the loop; [w'] is the world after the last pause. *)
Inductive passedOver (this : Crawler) (env : Env) (id : string)
    : list string -> World -> World -> Prop :=
| passedOver_none w : passedOver this env id [] w w
| passedOver_failed name rest w reason w1 w' :
    tryDownloadStrategy this env name id w = (Return (StratFail reason), w1) ->
    passedOver this env id rest
      (emit (EvSleep 2000) (snd (updateStrategyStats name "failed" w1))) w' ->
    passedOver this env id (name :: rest) w w'
| passedOver_error name rest w e w1 w' :
    tryDownloadStrategy this env name id w = (Throw e, w1) ->
    passedOver this env id rest
      (emit (EvSleep 2000) (snd (updateStrategyStats name "error" w1))) w' ->
    passedOver this env id (name :: rest) w w'.

(** The events of a cascade of [retries] retries that starts at [attempt]
    and in which every attempt ends in the outer [catch]. *)
Fixpoint retry_trace (id : string) (attempt : Z) (retries : nat) : list Event :=
  EvAttempt id attempt ::
  match retries with
  | O => []
  | S fewer => EvSleep (retryDelay attempt) :: retry_trace id (attempt + 1) fewer
  end.

(** The record returned when the strategy loop falls through. *)
Definition exhausted (id : string) : ItemResult :=
  item id St_not_found None None None (Some "All download strategies failed").

(** ** Scenarios *)

(** A crawler built with no options, an empty download directory, and
    remote sides that are unreachable or that serve a body of a given size
    to every request. *)
Definition crawler0 : Crawler := new_crawler (mkOptions JUndefined None None None).

Definition blank : World := {| fs := ∅; stats := fresh_stats; trace := [] |}.

Definition offline : Env :=
  {| net := fun _ _ => RequestFailed "connect ECONNREFUSED";
     viewerPage := fun _ _ => ViewerThrows "Navigation timeout";
     blobPage := fun _ _ => BlobThrows "Navigation timeout";
     extractorPage := fun _ _ => LinkThrows "Navigation timeout";
     viewerComPage := fun _ _ => LinkThrows "Navigation timeout" |}.

Definition serving (code : Z) (bytes : Z) : Env :=
  {| net := fun _ _ => Response code "OK" (Finished bytes);
     viewerPage := fun _ _ => ViewerThrows "Navigation timeout";
     blobPage := fun _ _ => BlobThrows "Navigation timeout";
     extractorPage := fun _ _ => LinkThrows "Navigation timeout";
     viewerComPage := fun _ _ => LinkThrows "Navigation timeout" |}.

Definition someId : string := "abcdefghijklmnopabcdefghijklmnop".

(** ** What one download can touch *)

(** The names [tryDownloadStrategy] knows, which are the ones the
    constructor installs. *)
Definition builtinStrategies : list string :=
  ["crxviewer"; "directapi"; "crxextractor"; "crxviewer_com"].

(** Requests and browser sessions. *)
Definition remote (e : Event) : bool :=
  match e with
  | EvRequest _ | EvBrowser _ => true
  | _ => false
  end.

(** The strategy invocations of a trace, as (strategy, identifier), in the
    order they were made. *)
Definition strategies_called (t : list Event) : list (string * string) :=
  omap (fun e => match e with EvStrategy name id => Some (name, id) | _ => None end) t.

(** How often [name] occurs in a list of strategy names. *)
Definition occurrences (name : string) (l : list string) : Z :=
  Z.of_nat (length (List.filter (String.eqb name) l)).

(** [success + failed + error] of the entry of [name] in
    [stats.strategyStats], 0 when there is none. *)
Definition tally (name : string) (w : World) : Z :=
  let c := default (mkCounts 0 0 0) (strategyStats (stats w) !! name) in
  sc_success c + sc_failed c + sc_error c.

(** From [w] to [w'] the strategies [called] were invoked, and each
    invocation added one to the tally of its strategy. *)
Definition ledger (w w' : World) (called : list (string * string)) : Prop :=
  strategies_called (trace w') = (strategies_called (trace w) ++ called)%list /\
  forall name, tally name w' = tally name w + occurrences name (fst <$> called).

(** The per-strategy counts and the strategy invocations, which is all
    that [ledger] looks at. *)
Definition books (w : World) : gmap string StrategyCounts * list (string * string) :=
  (strategyStats (stats w), strategies_called (trace w)).

(** A view that the download of the artifact of [id] cannot change: it
    ignores what is stored at the artifact's path and the remote events. *)
Record DownloadBlind {X} (this : Crawler) (id : string) (f : World -> X) : Prop := {
  dblind_write : forall p n w,
    path_join (downloadDir this) (id +:+ ".zip") = Return p ->
    f (set_fs (<[p := n]>) w) = f w;
  dblind_event : forall e w, remote e = true -> f (emit e w) = f w
}.

(** A view of the files alone. *)
Record FilesOnly {X} (f : World -> X) : Prop := {
  files_stats : forall g w, f (set_stats g w) = f w;
  files_event : forall e w, f (emit e w) = f w
}.

(** ** The final report *)

(** [results.filter(r => r.status === st)] *)
Definition with_status (st : Status) (results : list ItemResult) : list ItemResult :=
  List.filter (fun r => bool_decide (status r = st)) results.

(** [strategyBreakdown[s] = (strategyBreakdown[s] || 0) + 1], the object
    being the list of its entries in the order the keys were first set. *)
Fixpoint count_key (s : string) (breakdown : list (string * Z)) : list (string * Z) :=
  match breakdown with
  | [] => [(s, 1)]
  | (k, n) :: rest =>
      if String.eqb k s then (k, n + 1) :: rest else (k, n) :: count_key s rest
  end.

(** The [forEach] over the successful results that fills
    [strategyBreakdown]. *)
Definition breakdown_of (successful : list ItemResult) : list (string * Z) :=
  fold_left
    (fun breakdown r =>
       match strategy r with
       | Some s => if String.eqb s EmptyString then breakdown else count_key s breakdown
       | None => breakdown
       end)
    successful [].

(** [strategyBreakdown[k]], [None] for [undefined]. *)
Definition count_of (breakdown : list (string * Z)) (k : string) : option Z :=
  snd <$> List.find (fun entry => String.eqb (fst entry) k) breakdown.

(** The callback [(a, b) => strategyBreakdown[a] > strategyBreakdown[b] ? a : b];
    a comparison with [undefined] is false. *)
Definition more_effective (breakdown : list (string * Z)) (a b : string) : string :=
  match count_of breakdown a, count_of breakdown b with
  | Some x, Some y => if x >? y then a else b
  | _, _ => b
  end.

(** [keys.reduce(..., '')] *)
Definition most_effective (keys : list string) (breakdown : list (string * Z)) : string :=
  fold_left (more_effective breakdown) keys EmptyString.

(** [Math.round((r.size || 0) / 1024)]: the division by a power of two is
    exact, and [Math.round] takes halves upwards. *)
Definition size_kb (r : ItemResult) : Z := (default 0 (size r) + 512) / 1024.

(** [successful.reduce((sum, r) => sum + (r.size || 0), 0)] *)
Definition sum_sizes (successful : list ItemResult) : Z :=
  fold_left (fun sum r => sum + default 0 (size r)) successful 0.

(** The integer-valued part of the report object: the counts and sizes of
    [statistics], [strategy_analysis] and [breakdown].  The rates and
    averages, which are floating-point quotients, and the clock values are
    left out. *)
Record Report := mkReport {
  successful_downloads : nat;
  extensions_not_found : nat;
  failed_downloads : nat;
  skipped_existing : nat;
  total_size_bytes : Z;
  strategy_breakdown : list (string * Z);
  most_effective_strategy : string;
  successful_extensions : list (string * option string * Z);
  not_found_extensions : list (string * option string);
  failed_extensions : list (string * option string)
}.

(** The report object that [generateFinalReport] builds from [results]. *)
Definition finalReport (results : list ItemResult) : Report :=
  let successful := with_status St_success results in
  let notFound := with_status St_not_found results in
  let failed := with_status St_failed results in
  let skipped := with_status St_skipped results in
  let strategyBreakdown := breakdown_of successful in
  {| successful_downloads := length successful;
     extensions_not_found := length notFound;
     failed_downloads := length failed;
     skipped_existing := length skipped;
     total_size_bytes := sum_sizes successful;
     strategy_breakdown := strategyBreakdown;
     most_effective_strategy := most_effective (fst <$> strategyBreakdown) strategyBreakdown;
     successful_extensions :=
       (fun r => (extensionId r, strategy r, size_kb r)) <$> successful;
     not_found_extensions := (fun r => (extensionId r, error r)) <$> notFound;
     failed_extensions := (fun r => (extensionId r, error r)) <$> failed |}.

(** A [success] record is sound when it carries a size of at least 1000
    bytes and names one of the built-in strategies. *)
Definition sound (r : ItemResult) : Prop :=
  status r = St_success ->
  exists bytes name,
    size r = Some bytes /\ 1000 <= bytes /\
    strategy r = Some name /\ name ∈ builtinStrategies.

(** The counters after one [++] per result. *)
Definition bump_all (results : list ItemResult) (c : Z * Z * Z * Z) : Z * Z * Z * Z :=
  fold_left (fun c r => bump (status r) c) results c.

(** The sum of the counts of a breakdown. *)
Definition sum_counts (breakdown : list (string * Z)) : Z :=
  fold_right (fun entry sum => snd entry + sum) 0 breakdown.

(** [stats.strategyStats[name].success], 0 when there is no entry. *)
Definition successes (name : string) (w : World) : Z :=
  sc_success (default (mkCounts 0 0 0) (strategyStats (stats w) !! name)).

(** 1 for a [success] record of strategy [name], and their number in a
    list of results. *)
Definition won (name : string) (r : ItemResult) : Z :=
  if bool_decide (status r = St_success /\ strategy r = Some name) then 1 else 0.

Definition won_by (name : string) (results : list ItemResult) : Z :=
  fold_right (fun r n => won name r + n) 0 results.

(** [stats.strategyStats[name].error], 0 when there is no entry. *)
Definition errors (name : string) (w : World) : Z :=
  sc_error (default (mkCounts 0 0 0) (strategyStats (stats w) !! name)).

(** ** Durations *)

(** [formatDuration(ms)] for an integer number of milliseconds:
    [Math.floor] rounds down, [%] takes the sign of the dividend, and a
    template literal prints an integer in decimal. *)
Definition formatDuration (ms : Z) : string :=
  let seconds := ms / 1000 in
  let minutes := seconds / 60 in
  let hours := minutes / 60 in
  if hours >? 0 then
    pretty hours +:+ "h " +:+ pretty (Z.rem minutes 60) +:+ "m "
      +:+ pretty (Z.rem seconds 60) +:+ "s"
  else if minutes >? 0 then
    pretty minutes +:+ "m " +:+ pretty (Z.rem seconds 60) +:+ "s"
  else pretty seconds +:+ "s".

(** The integers that a JavaScript number holds exactly. *)
Definition safeInteger (n : Z) : Prop := - 2 ^ 53 < n < 2 ^ 53.

(** The characters of a printed integer. *)
Definition numeral (c : Ascii.ascii) : bool :=
  let n := Ascii.N_of_ascii c in
  (((48 <=? n) && (n <=? 57)) || (n =? 45))%N.

Fixpoint numeric (s : string) : bool :=
  match s with
  | EmptyString => true
  | String c rest => numeral c && numeric rest
  end.

(** ** Loading the identifiers *)

(** A JavaScript string as the list of its UTF-16 code units: [trim] has
    to tell the white space of the whole range. *)
Definition Text : Type := list Z.

(** The code units of [WhiteSpace] and [LineTerminator], which are the
    ones that [String.prototype.trim] strips. *)
Definition isWhiteSpace (c : Z) : bool :=
  existsb (Z.eqb c)
    [9; 10; 11; 12; 13; 32; 160; 5760; 8232; 8233; 8239; 8287; 12288; 65279]
  || ((8192 <=? c) && (c <=? 8202)).

Fixpoint trimStart (s : Text) : Text :=
  match s with
  | c :: rest => if isWhiteSpace c then trimStart rest else s
  | [] => []
  end.

Definition trim (s : Text) : Text :=
  reverse (trimStart (reverse (trimStart s))).

(** [s.split(sep)] for a separator of one code unit; the array always has
    a first element. *)
Fixpoint js_split (sep : Z) (s : Text) : list Text :=
  match s with
  | [] => [[]]
  | c :: rest =>
      if c =? sep then [] :: js_split sep rest
      else match js_split sep rest with
           | part :: parts => (c :: part) :: parts
           | [] => [[c]]
           end
  end.

(** [parts.join(sep)] *)
Fixpoint js_join (sep : Z) (parts : list Text) : Text :=
  match parts with
  | [] => []
  | part :: rest =>
      match rest with
      | [] => part
      | _ :: _ => (part ++ sep :: js_join sep rest)%list
      end
  end.

Definition nonEmpty (s : Text) : bool :=
  match s with [] => false | _ :: _ => true end.

(** [s.startsWith(c)] for a string [c] of one code unit. *)
Definition startsWith (c : Z) (s : Text) : bool :=
  match s with c' :: _ => c' =? c | [] => false end.

(** [path.endsWith(suffix)] *)
Definition endsWith (s suffix : string) : bool :=
  let n := String.length s in
  let k := String.length suffix in
  (k <=? n)%nat && String.eqb (substring (n - k)%nat k s) suffix.

(** A code unit of [a-p]. *)
Definition letter (c : Z) : bool := (97 <=? c) && (c <=? 112).

(** [/^[a-p]{32}$/.test(id)] on a string. *)
Definition isExtensionId (id : Text) : bool :=
  (length id =? 32)%nat && forallb letter id.

Section Loading.
(** The values of [JSON.parse], with [fs.readFile(filepath, 'utf8')],
    [JSON.parse], the elements of a value that [Array.isArray] accepts,
    and the string that the regular expression's [test] converts a value
    to. *)
Context {Json : Type}.
Context (readFile : string -> Completion Text).
Context (JSON_parse : Text -> Completion Json).
Context (elements : Json -> option (list Json)).
Context (toString : Json -> Text).

(** An entry of [ids]: a piece of the file's text, or a parsed value. *)
Definition tested (id : Text + Json) : Text :=
  match id with
  | inl s => s
  | inr v => toString v
  end.

(** The three branches on the name of the file. *)
Definition readIds (filepath : string) (content : Text)
    : Completion (list (Text + Json)) :=
  if endsWith filepath ".json" then
    match JSON_parse content with
    | Return data => Return (inr <$> default [data] (elements data))
    | Throw e => Throw e
    end
  else if endsWith filepath ".csv" then
    Return (inl <$>
      List.filter nonEmpty
        ((fun line => trim (hd [] (js_split 44 line))) <$> drop 1 (js_split 10 content)))
  else
    Return (inl <$>
      List.filter (fun line => nonEmpty line && negb (startsWith 35 line))
        (trim <$> js_split 10 content)).

Definition loadExtensionIds (filepath : string) : Completion (list (Text + Json)) :=
  match readFile filepath with
  | Return content =>
      match readIds filepath content with
      | Return ids => Return (List.filter (fun id => isExtensionId (tested id)) ids)
      | Throw e => Throw e
      end
  | Throw e => Throw e
  end.

End Loading.

(** ** Frame lemmas *)

Section Frames.
Context {X : Type} (f : World -> X).

Lemma preserves_ret {A} (a : A) : preserves f (ret a).
Proof. intros w; reflexivity. Qed.

Lemma preserves_throw {A} e : preserves f (@throw A e).
Proof. intros w; reflexivity. Qed.

Lemma preserves_lift {A} (c : Completion A) : preserves f (lift c).
Proof. intros w; reflexivity. Qed.

Lemma preserves_history : preserves f history.
Proof. intros w; reflexivity. Qed.

Lemma preserves_get_stats : preserves f get_stats.
Proof. intros w; reflexivity. Qed.

Lemma preserves_fs_stat p : preserves f (fs_stat p).
Proof. intros w; unfold fs_stat; destruct (fs w !! p); reflexivity. Qed.

Lemma preserves_modify g : (forall w, f (g w) = f w) -> preserves f (modify g).
Proof. intros H w; apply H. Qed.

Lemma preserves_bind {A B} (m : M A) (k : A -> M B) :
  preserves f m -> (forall a, preserves f (k a)) -> preserves f (bind m k).
Proof.
  intros Hm Hk w. unfold bind. specialize (Hm w).
  destruct (m w) as [[a|e] w1]; simpl in *.
  - rewrite Hk. exact Hm.
  - exact Hm.
Qed.

Lemma preserves_try_catch {A} (m : M A) (h : string -> M A) :
  preserves f m -> (forall e, preserves f (h e)) -> preserves f (try_catch m h).
Proof.
  intros Hm Hh w. unfold try_catch. specialize (Hm w).
  destruct (m w) as [[a|e] w1]; simpl in *.
  - exact Hm.
  - rewrite Hh. exact Hm.
Qed.

Lemma preserves_settled {A} (m : M A) : preserves f m -> preserves f (settled m).
Proof.
  intros Hm w. unfold settled. specialize (Hm w).
  destruct (m w) as [c w1]; exact Hm.
Qed.
End Frames.

Create HintDb frames.

(** Breaks a [preserves] goal down along the structure of the computation,
    closing the leaves with the lemmas of the [frames] database. *)
Ltac frame :=
  repeat first
    [ solve [eauto 3 with frames nocore]
    | apply preserves_ret | apply preserves_throw | apply preserves_lift
    | apply preserves_history | apply preserves_get_stats | apply preserves_fs_stat
    | apply preserves_settled
    | apply preserves_bind; [| intros ?]
    | apply preserves_try_catch; [| intros ?]
    | match goal with
      | |- preserves _ (if ?b then _ else _) => destruct b
      | |- preserves _ (match ?x with _ => _ end) => destruct x
      end ].

Section StrategyFrames.
Context (this : Crawler) (env : Env).
Context {X : Type} (f : World -> X) (Hf : StrategyBlind f).

Lemma preserves_write_file p n : preserves f (write_file p n).
Proof. apply preserves_modify. intros w. apply (blind_fs f Hf). Qed.

Lemma preserves_inner e : inner e = true -> preserves f (modify (emit e)).
Proof. intros He. apply preserves_modify. intros w. apply (blind_event f Hf); exact He. Qed.

Lemma preserves_sleep ms : preserves f (sleep ms).
Proof. apply preserves_inner. reflexivity. Qed.

Lemma preserves_updateStrategyStats name outcome :
  preserves f (updateStrategyStats name outcome).
Proof. apply preserves_modify. intros w. apply (blind_strategyStats f Hf). Qed.

Lemma preserves_request url : preserves f (modify (emit (EvRequest url))).
Proof. apply preserves_inner. reflexivity. Qed.

Lemma preserves_browser target : preserves f (modify (emit (EvBrowser target))).
Proof. apply preserves_inner. reflexivity. Qed.

Lemma preserves_strategy name id : preserves f (modify (emit (EvStrategy name id))).
Proof. apply preserves_inner. reflexivity. Qed.

#[local] Hint Resolve preserves_write_file preserves_sleep
  preserves_updateStrategyStats preserves_request preserves_browser
  preserves_strategy : frames.

Lemma preserves_receive code msg body file :
  preserves f (receive code msg body file).
Proof. unfold receive. frame. Qed.

#[local] Hint Resolve preserves_receive : frames.

Lemma preserves_exchange x : forall url id, preserves f (exchange this x url id).
Proof.
  induction x as [message|code msg body|code msg location next IH body];
    intros url id; simpl; frame.
Qed.

#[local] Hint Resolve preserves_exchange : frames.

Lemma preserves_downloadFileDirectly url id :
  preserves f (downloadFileDirectly this env url id).
Proof. unfold downloadFileDirectly. frame. Qed.

#[local] Hint Resolve preserves_downloadFileDirectly : frames.

Lemma preserves_tryEndpoints urls id : preserves f (tryEndpoints this env urls id).
Proof. induction urls as [|url rest IH]; simpl; frame. Qed.

Lemma preserves_downloadFileFromBlob url id :
  preserves f (downloadFileFromBlob this env url id).
Proof. unfold downloadFileFromBlob. frame. Qed.

Lemma preserves_viaLink session missing id :
  preserves f (viaLink this env session missing id).
Proof. unfold viaLink. frame. Qed.

#[local] Hint Resolve preserves_tryEndpoints preserves_downloadFileFromBlob
  preserves_viaLink : frames.

Lemma preserves_tryDownloadStrategy name id :
  preserves f (tryDownloadStrategy this env name id).
Proof.
  unfold tryDownloadStrategy, downloadViaCRXViewer, downloadViaDirectAPI,
    downloadViaCRXExtractor, downloadViaCRXViewerCom.
  frame.
Qed.
End StrategyFrames.

Lemma attempts_of_emit e t :
  attempts_of (t ++ [e]) =
  (attempts_of t ++ match e with EvAttempt id a => [(id, a)] | _ => [] end)%list.
Proof. unfold attempts_of. rewrite omap_app. destruct e; reflexivity. Qed.

Lemma sleeps_of_emit e t :
  sleeps_of (t ++ [e]) =
  (sleeps_of t ++ match e with EvSleep ms => [ms] | _ => [] end)%list.
Proof. unfold sleeps_of. rewrite omap_app. destruct e; reflexivity. Qed.

Lemma batches_of_emit e t :
  batches_of (t ++ [e]) =
  (batches_of t ++ match e with EvBatch b => [b] | _ => [] end)%list.
Proof. unfold batches_of. rewrite omap_app. destruct e; reflexivity. Qed.

Lemma checkpoints_of_emit e t :
  checkpoints_of (t ++ [e]) =
  (checkpoints_of t ++ match e with EvCheckpoint n => [n] | _ => [] end)%list.
Proof. unfold checkpoints_of. rewrite omap_app. destruct e; reflexivity. Qed.

Lemma calls_of_emit e t :
  calls_of (t ++ [e]) = (calls_of t ++ if is_call e then [e] else [])%list.
Proof. unfold calls_of. rewrite List.filter_app. simpl. destruct (is_call e); reflexivity. Qed.

Lemma blind_counters : StrategyBlind counters.
Proof. split; reflexivity. Qed.

Lemma blind_schedule : StrategyBlind schedule.
Proof.
  split; try reflexivity.
  intros e w He. unfold schedule, emit; simpl.
  rewrite batches_of_emit, checkpoints_of_emit.
  destruct e; try discriminate He; rewrite !app_nil_r; reflexivity.
Qed.

Lemma blind_attempts : StrategyBlind (fun w => attempts_of (trace w)).
Proof.
  split; try reflexivity.
  intros e w He. unfold emit; simpl. rewrite attempts_of_emit.
  destruct e; try discriminate He; rewrite app_nil_r; reflexivity.
Qed.

(** The bookkeeping between two strategies is invisible to such a view. *)
Lemma blind_pause {X} (f : World -> X) (Hf : StrategyBlind f) g ms w :
  f (emit (EvSleep ms) (set_stats (with_strategyStats g) w)) = f w.
Proof.
  rewrite (blind_event f Hf) by reflexivity. apply (blind_strategyStats f Hf).
Qed.

(** ** Postconditions of the strategies *)

Lemma ensures_bind {A B} (m : M A) (k : A -> M B) Q :
  (forall a, ensures (k a) Q) -> ensures (bind m k) Q.
Proof.
  intros Hk w b w'. unfold bind.
  destruct (m w) as [[a|e] w1]; [apply Hk | discriminate].
Qed.

Lemma ensures_throw {A} e (Q : A -> World -> Prop) : ensures (throw e) Q.
Proof. intros w a w'; discriminate. Qed.

Section Sizes.
Context (this : Crawler) (env : Env).

Lemma receive_sized code msg body file : ensures (receive code msg body file) sized.
Proof.
  intros w r w'. unfold receive.
  destruct (negb (code =? 200)); [discriminate|].
  destruct body as [bytes|[n|] message]; try discriminate.
  unfold bind, write_file, modify, fs_stat, set_fs; simpl.
  rewrite lookup_insert_eq.
  destruct (bytes <? 1000) eqn:Hlt; [discriminate|].
  intros [= <- <-]. simpl. rewrite lookup_insert_eq.
  split; [lia | reflexivity].
Qed.

Lemma exchange_sized x : forall url id, ensures (exchange this x url id) sized.
Proof.
  induction x as [message|code msg body|code msg location next IH body];
    intros url id; simpl; apply ensures_bind; intros file;
    apply ensures_bind; intros _.
  - apply ensures_throw.
  - apply receive_sized.
  - destruct ((300 <=? code) && (code <? 400) && negb (String.eqb location EmptyString));
      [apply IH | apply receive_sized].
Qed.

Lemma downloadFileDirectly_sized url id :
  ensures (downloadFileDirectly this env url id) sized.
Proof. apply ensures_bind; intros h. apply exchange_sized. Qed.

Lemma tryEndpoints_sized urls id : ensures (tryEndpoints this env urls id) sized.
Proof.
  induction urls as [|url rest IH]; simpl.
  - intros w r w' [= <- <-]. exact I.
  - intros w r w'. unfold bind, settled.
    destruct (downloadFileDirectly this env url id w) as [[[file bytes|reason]|e] w1] eqn:Hd.
    + intros [= <- <-]. exact (downloadFileDirectly_sized url id _ _ _ Hd).
    + apply IH.
    + apply IH.
Qed.

Lemma downloadFileFromBlob_sized url id :
  ensures (downloadFileFromBlob this env url id)
    (fun r w => 1000 <= snd r /\ fs w !! fst r = Some (snd r)).
Proof.
  intros w r w'. unfold downloadFileFromBlob, bind, modify, lift, history; simpl.
  destruct (path_join (downloadDir this) (id +:+ ".zip")) as [file|e]; [|discriminate].
  destruct (blobPage env _ url) as [message|ok code bytes]; [discriminate|].
  destruct ok; simpl; [|discriminate].
  unfold write_file, modify, fs_stat, set_fs; simpl. rewrite lookup_insert_eq.
  destruct (bytes <? 1000) eqn:Hlt; [discriminate|].
  intros [= <- <-]. simpl. rewrite lookup_insert_eq. split; [lia | reflexivity].
Qed.

Lemma viaLink_sized session missing id :
  ensures (viaLink this env session missing id) sized.
Proof.
  unfold viaLink. destruct session as [message|href]; [apply ensures_throw|].
  destruct (String.eqb href EmptyString).
  - intros w r w' [= <- <-]. exact I.
  - apply downloadFileDirectly_sized.
Qed.

Lemma downloadViaCRXViewer_sized id : ensures (downloadViaCRXViewer this env id) sized.
Proof.
  intros w r w'. unfold downloadViaCRXViewer, bind, modify, history; simpl.
  destruct (viewerPage env _ id) as [message|downloadUrl|reason].
  - discriminate.
  - destruct (String.eqb downloadUrl EmptyString).
    + intros [= <- <-]. exact I.
    + destruct (downloadFileFromBlob this env downloadUrl id _) as [[d|e] w1] eqn:Hd;
        [|discriminate].
      intros [= <- <-]. exact (downloadFileFromBlob_sized _ _ _ _ _ Hd).
  - intros [= <- <-]. exact I.
Qed.

Lemma tryDownloadStrategy_sized name id :
  ensures (tryDownloadStrategy this env name id) sized.
Proof.
  unfold tryDownloadStrategy. apply ensures_bind; intros _.
  destruct (String.eqb name "crxviewer"); [apply downloadViaCRXViewer_sized|].
  destruct (String.eqb name "directapi"); [apply tryEndpoints_sized|].
  destruct (String.eqb name "crxextractor");
    [apply ensures_bind; intros _; apply ensures_bind; intros h; apply viaLink_sized|].
  destruct (String.eqb name "crxviewer_com");
    [apply ensures_bind; intros _; apply ensures_bind; intros h; apply viaLink_sized|].
  apply ensures_throw.
Qed.
End Sizes.

(** ** What the response callback does with a status code *)

Section Transfers.
Context (this : Crawler) (env : Env) (id file : string).
Context (Hfile : path_join (downloadDir this) (id +:+ ".zip") = Return file).

Lemma exchange_redirect code msg location next body url w :
  300 <= code < 400 -> location <> EmptyString ->
  exchange this (ResponseLocation code msg location next body) url id w =
  exchange this next location id (emit (EvRequest url) w).
Proof.
  intros [Hlo Hhi] Hloc. simpl.
  unfold bind at 1, lift. rewrite Hfile. unfold bind at 1, modify at 1. simpl.
  replace (300 <=? code) with true by (symmetry; apply Z.leb_le; exact Hlo).
  replace (code <? 400) with true by (symmetry; apply Z.ltb_lt; exact Hhi).
  replace (String.eqb location EmptyString) with false
    by (symmetry; apply String.eqb_neq; exact Hloc).
  reflexivity.
Qed.

(** A response that is not followed is evaluated as it stands, with or
    without a [Location] header. *)
Lemma exchange_final code msg location next body url w :
  ~ (300 <= code < 400 /\ location <> EmptyString) ->
  exchange this (ResponseLocation code msg location next body) url id w =
  exchange this (Response code msg body) url id w.
Proof.
  intros Hfinal. simpl.
  unfold bind at 1 3, lift. rewrite Hfile. unfold bind at 1 2, modify at 1 2. simpl.
  replace ((300 <=? code) && (code <? 400) && negb (String.eqb location EmptyString))
    with false; [reflexivity|].
  symmetry. apply not_true_is_false. intros Htrue.
  apply andb_true_iff in Htrue as [Hrange Hloc].
  apply andb_true_iff in Hrange as [Hlo Hhi].
  apply Z.leb_le in Hlo. apply Z.ltb_lt in Hhi. apply negb_true_iff in Hloc.
  apply String.eqb_neq in Hloc. apply Hfinal. auto.
Qed.

(** A 200 response whose transfer is cut rejects with the message of the
    event, and what was written stays. *)
Lemma exchange_aborted msg written reason url w :
  exchange this (Response 200 msg (Aborted written reason)) url id w =
  (Throw reason,
   match written with
   | Some n => set_fs (<[file := n]>) (emit (EvRequest url) w)
   | None => emit (EvRequest url) w
   end).
Proof.
  simpl. unfold bind, lift. rewrite Hfile.
  unfold modify, receive. simpl.
  destruct written as [n|]; reflexivity.
Qed.

Lemma exchange_finished msg bytes url w :
  exchange this (Response 200 msg (Finished bytes)) url id w =
  (if bytes <? 1000 then Throw "Downloaded file too small"
   else Return (StratOk file bytes),
   set_fs (<[file := bytes]>) (emit (EvRequest url) w)).
Proof.
  simpl. unfold bind, lift. rewrite Hfile.
  unfold modify, receive. simpl.
  unfold bind, write_file, modify, fs_stat, set_fs. simpl. rewrite lookup_insert_eq.
  destruct (bytes <? 1000); reflexivity.
Qed.

Lemma exchange_refused code msg body url w :
  code <> 200 ->
  exchange this (Response code msg body) url id w =
  (Throw ("HTTP " +:+ pretty code +:+ ": " +:+ msg), emit (EvRequest url) w).
Proof.
  intros Hne. simpl. unfold bind, lift. rewrite Hfile.
  unfold modify, receive. simpl.
  replace (code =? 200) with false by (symmetry; apply Z.eqb_neq; exact Hne).
  reflexivity.
Qed.

End Transfers.

(** The loop over the endpoints absorbs every rejection. *)
Lemma tryEndpoints_returns this env urls id : forall w, exists r w',
  tryEndpoints this env urls id w = (Return r, w').
Proof.
  induction urls as [|url rest IH]; intros w; simpl.
  - eexists _, _. reflexivity.
  - unfold bind, settled.
    destruct (downloadFileDirectly this env url id w) as [[[f b|reason]|e] w1].
    + eexists _, _. reflexivity.
    + apply IH.
    + apply IH.
Qed.

Section Outcomes.
Context (this : Crawler) (env : Env) (id file : string).
Context (Hfile : path_join (downloadDir this) (id +:+ ".zip") = Return file).

Lemma receive_delivered code msg body w c w1 :
  receive code msg body file w = (c, w1) -> delivered this id c w1.
Proof.
  unfold receive. destruct (negb (code =? 200)); [intros [= <- <-]; exact I|].
  destruct body as [bytes|[n|] message].
  - unfold bind, write_file, modify, fs_stat, set_fs; simpl.
    rewrite lookup_insert_eq.
    destruct (bytes <? 1000) eqn:Hlt; intros [= <- <-]; [exact I|].
    simpl. rewrite lookup_insert_eq. apply Z.ltb_ge in Hlt. auto.
  - intros [= <- <-]. exact I.
  - intros [= <- <-]. exact I.
Qed.

Lemma exchange_delivered x : forall url w c w1,
  exchange this x url id w = (c, w1) -> delivered this id c w1.
Proof.
  induction x as [message|code msg body|code msg location next IH body];
    intros url w c w1; simpl;
    unfold bind at 1, lift; rewrite Hfile; unfold bind at 1, modify at 1; simpl.
  - intros [= <- <-]. exact I.
  - apply receive_delivered.
  - destruct ((300 <=? code) && (code <? 400) && negb (String.eqb location EmptyString));
      [apply IH | apply receive_delivered].
Qed.
End Outcomes.

Lemma downloadFileDirectly_delivered this env url id w c w1 :
  downloadFileDirectly this env url id w = (c, w1) -> delivered this id c w1.
Proof.
  destruct (path_join (downloadDir this) (id +:+ ".zip")) as [file|e] eqn:Hp.
  - unfold downloadFileDirectly, bind at 1, history. apply (exchange_delivered this id file Hp).
  - unfold downloadFileDirectly, bind at 1, history.
    destruct (net env (trace w) url); simpl; unfold bind, lift; rewrite Hp;
      intros [= <- <-]; exact I.
Qed.

(** ** The per-item orchestrator *)

Lemma counters_count_status st w :
  counters (set_stats (count_status st) w) = bump st (counters w).
Proof. destruct st; unfold counters; simpl; repeat f_equal; lia. Qed.

Section Orchestrator.
Context (this : Crawler) (env : Env).

Lemma tryStrategies_spec names id : forall w, exists r w',
  tryStrategies this env names id w = (Return r, w') /\
  extensionId r = id /\
  (status r = St_success \/ status r = St_not_found) /\
  counters w' = bump (status r) (counters w) /\
  schedule w' = schedule w /\
  attempts_of (trace w') = attempts_of (trace w) /\
  (status r = St_success -> exists n, size r = Some n /\ 1000 <= n).
Proof.
  induction names as [|name rest IH]; intros w; simpl.
  - eexists _, _. split; [reflexivity|]. simpl.
    rewrite counters_count_status.
    repeat split; auto; discriminate.
  - unfold bind at 1, settled.
    pose proof (preserves_tryDownloadStrategy this env counters blind_counters name id w) as Hc.
    pose proof (preserves_tryDownloadStrategy this env schedule blind_schedule name id w) as Hs.
    pose proof (preserves_tryDownloadStrategy this env _ blind_attempts name id w) as Ha.
    pose proof (tryDownloadStrategy_sized this env name id w) as Hz.
    destruct (tryDownloadStrategy this env name id w) as [[[file bytes|reason]|e] w1];
      simpl in Hc, Hs, Ha.
    + eexists _, _. split; [reflexivity|]. simpl.
      destruct (Hz _ _ eq_refl) as [Hbytes _].
      repeat split; auto.
      * unfold counters in *; simpl. inversion Hc. repeat f_equal; lia.
      * intros _. eauto.
    + unfold bind, updateStrategyStats, sleep, modify. simpl.
      match goal with |- context [tryStrategies this env rest id ?w2] =>
        destruct (IH w2) as (r & w' & Hr & Hid & Hst & Hcnt & Hsch & Hatt & Hsz) end.
      exists r, w'. split; [exact Hr|].
      rewrite (blind_pause _ blind_counters) in Hcnt.
      rewrite (blind_pause _ blind_schedule) in Hsch.
      rewrite (blind_pause _ blind_attempts) in Hatt.
      rewrite Hcnt, Hsch, Hatt, Hc, Hs, Ha.
      repeat split; auto.
    + unfold bind, updateStrategyStats, sleep, modify. simpl.
      match goal with |- context [tryStrategies this env rest id ?w2] =>
        destruct (IH w2) as (r & w' & Hr & Hid & Hst & Hcnt & Hsch & Hatt & Hsz) end.
      exists r, w'. split; [exact Hr|].
      rewrite (blind_pause _ blind_counters) in Hcnt.
      rewrite (blind_pause _ blind_schedule) in Hsch.
      rewrite (blind_pause _ blind_attempts) in Hatt.
      rewrite Hcnt, Hsch, Hatt, Hc, Hs, Ha.
      repeat split; auto.
Qed.

(** When no strategy produces an artifact the loop falls through. *)
Lemma tryStrategies_exhausted names id :
  (forall name w0, name ∈ names -> fails (fst (tryDownloadStrategy this env name id w0))) ->
  forall w, fst (tryStrategies this env names id w) = Return (exhausted id).
Proof.
  induction names as [|name rest IH]; intros Hall w; simpl.
  - reflexivity.
  - unfold bind at 1, settled.
    pose proof (Hall name w (list_elem_of_here _ _)) as Hf.
    destruct (tryDownloadStrategy this env name id w) as [[[file bytes|reason]|e] w1];
      simpl in Hf; [contradiction| |];
      unfold bind, updateStrategyStats, sleep, modify; simpl;
      apply IH; intros n w0 Hn; apply Hall; apply list_elem_of_further; exact Hn.
Qed.

(** The three ways through the outer [try] block. *)
Lemma attemptBody_throws id e w :
  path_join (downloadDir this) (id +:+ ".zip") = Throw e ->
  attemptBody this env id w = (Throw e, w).
Proof. intros Hp. unfold attemptBody, bind, lift. rewrite Hp. reflexivity. Qed.

Lemma attemptBody_skips id w :
  usableArtifact this id w = true ->
  exists expectedFile bytes,
    path_join (downloadDir this) (id +:+ ".zip") = Return expectedFile /\
    fs w !! expectedFile = Some bytes /\ 1000 < bytes /\
    attemptBody this env id w =
      (Return (item id St_skipped None (Some expectedFile) (Some bytes) None),
       set_stats (count_status St_skipped) w).
Proof.
  unfold usableArtifact, attemptBody, bind, lift, settled, fs_stat.
  destruct (path_join (downloadDir this) (id +:+ ".zip")) as [p|e]; [|discriminate].
  destruct (fs w !! p) as [n|] eqn:Hfs; [|discriminate].
  intros Hn. exists p, n. rewrite Hfs, Hn. repeat split; auto.
  apply Z.gtb_lt in Hn. exact Hn.
Qed.

Lemma attemptBody_downloads id w expectedFile :
  path_join (downloadDir this) (id +:+ ".zip") = Return expectedFile ->
  usableArtifact this id w = false ->
  attemptBody this env id w = tryStrategies this env (downloadStrategies this) id w.
Proof.
  unfold usableArtifact, attemptBody, bind, lift, settled, fs_stat.
  intros ->. destruct (fs w !! expectedFile) as [n|]; [|reflexivity].
  intros ->. reflexivity.
Qed.

(** [downloadExtension] as the source writes it: the recursion on the
    number of retries left is the recursion on [attempt]. *)
Lemma downloadExtension_eq id attempt w :
  downloadExtension this env id attempt w =
  match attemptBody this env id (emit (EvAttempt id attempt) w) with
  | (Return r, w') => (Return r, w')
  | (Throw e, w') =>
      if attempt <? retryAttempts this then
        downloadExtension this env id (attempt + 1) (emit (EvSleep (retryDelay attempt)) w')
      else
        (Return (item id St_failed None None None (Some e)),
         set_stats (count_status St_failed) w')
  end.
Proof.
  unfold downloadExtension.
  destruct (Z.to_nat (retryAttempts this - attempt)) as [|fewer] eqn:Hn; simpl;
    unfold bind at 1, modify at 1, try_catch; simpl;
    destruct (attemptBody this env id (emit (EvAttempt id attempt) w)) as [[r|e] w1];
    try reflexivity; unfold onError;
    destruct (attempt <? retryAttempts this) eqn:Hlt; try reflexivity.
  - apply Z.ltb_lt in Hlt. lia.
  - unfold bind, sleep, modify; simpl.
    replace (Z.to_nat (retryAttempts this - (attempt + 1))) with fewer by lia.
    reflexivity.
Qed.

(** A cascade in which [path.join] throws: every attempt ends in the
    outer [catch], and the last one gives up. *)
Lemma downloadExtension_cascade id e :
  path_join (downloadDir this) (id +:+ ".zip") = Throw e ->
  forall retries attempt w,
    retries = Z.to_nat (retryAttempts this - attempt) ->
    downloadExtension this env id attempt w =
      (Return (item id St_failed None None None (Some e)),
       set_stats (count_status St_failed)
         {| fs := fs w; stats := stats w;
            trace := trace w ++ retry_trace id attempt retries |}).
Proof.
  intros Hp. induction retries as [|fewer IH]; intros attempt w Hn;
    rewrite downloadExtension_eq, (attemptBody_throws _ _ _ Hp).
  - replace (attempt <? retryAttempts this) with false by (symmetry; apply Z.ltb_ge; lia).
    reflexivity.
  - replace (attempt <? retryAttempts this) with true by (symmetry; apply Z.ltb_lt; lia).
    rewrite (IH (attempt + 1)) by lia.
    unfold emit; simpl. rewrite <- !app_assoc. reflexivity.
Qed.

(** What every call establishes. *)
Lemma downloadExtension_spec id attempt w : exists r w',
  downloadExtension this env id attempt w = (Return r, w') /\
  extensionId r = id /\
  counters w' = bump (status r) (counters w) /\
  schedule w' = schedule w /\
  (status r = St_success -> exists n, size r = Some n /\ 1000 <= n) /\
  (status r = St_skipped <-> usableArtifact this id w = true).
Proof.
  destruct (path_join (downloadDir this) (id +:+ ".zip")) as [p|e] eqn:Hp.
  - rewrite downloadExtension_eq.
    set (w1 := emit (EvAttempt id attempt) w).
    assert (Hsch : schedule w1 = schedule w).
    { unfold schedule, w1; simpl.
      rewrite batches_of_emit, checkpoints_of_emit, !app_nil_r. reflexivity. }
    assert (Hu : usableArtifact this id w1 = usableArtifact this id w) by reflexivity.
    destruct (usableArtifact this id w) eqn:Husable.
    + destruct (attemptBody_skips id w1 Hu) as (f & n & _ & _ & Hn & ->).
      eexists _, _. split; [reflexivity|]. simpl.
      rewrite counters_count_status. repeat split; auto. discriminate.
    + rewrite (attemptBody_downloads id w1 p Hp Hu).
      destruct (tryStrategies_spec (downloadStrategies this) id w1)
        as (r & w' & -> & Hid & Hst & Hcnt & Hs & _ & Hsz).
      exists r, w'. split; [reflexivity|].
      rewrite Hs, Hcnt. repeat split; auto.
      * intros Hk. destruct Hst as [H|H]; rewrite H in Hk; discriminate.
      * discriminate.
  - rewrite (downloadExtension_cascade id e Hp _ attempt w eq_refl).
    eexists _, _. split; [reflexivity|]. simpl.
    rewrite counters_count_status.
    assert (Hq : forall n a t, batches_of (t ++ retry_trace id a n) = batches_of t /\
                               checkpoints_of (t ++ retry_trace id a n) = checkpoints_of t).
    { induction n as [|n IH]; intros a t; simpl.
      - rewrite batches_of_emit, checkpoints_of_emit, !app_nil_r. auto.
      - change (t ++ EvAttempt id a :: EvSleep (retryDelay a) :: retry_trace id (a + 1) n)%list
          with (t ++ [EvAttempt id a; EvSleep (retryDelay a)] ++ retry_trace id (a + 1) n)%list.
        rewrite app_assoc.
        destruct (IH (a + 1) (t ++ [EvAttempt id a; EvSleep (retryDelay a)])%list) as [-> ->].
        unfold batches_of, checkpoints_of. rewrite !omap_app. simpl.
        rewrite !app_nil_r. auto. }
    repeat split; auto.
    + unfold schedule; simpl. destruct (Hq (Z.to_nat (retryAttempts this - attempt)) attempt (trace w)) as [-> ->].
      reflexivity.
    + discriminate.
    + discriminate.
    + unfold usableArtifact. rewrite Hp. discriminate.
Qed.
(** Without a usable artifact the call is the strategy chain, run right
    after the attempt was recorded. *)
Lemma downloadExtension_chain id attempt w expectedFile :
  path_join (downloadDir this) (id +:+ ".zip") = Return expectedFile ->
  usableArtifact this id w = false ->
  downloadExtension this env id attempt w =
  tryStrategies this env (downloadStrategies this) id (emit (EvAttempt id attempt) w).
Proof.
  intros Hp Hu. rewrite downloadExtension_eq.
  rewrite (attemptBody_downloads id _ expectedFile Hp) by exact Hu.
  destruct (tryStrategies_spec (downloadStrategies this) id (emit (EvAttempt id attempt) w))
    as (r1 & w1 & -> & _). reflexivity.
Qed.

(** A [success] record names the file and the size that the strategy
    returned, and the file is on disk with that size when the call
    returns. *)
Lemma tryStrategies_artifact names id : forall w r w',
  tryStrategies this env names id w = (Return r, w') ->
  status r = St_success ->
  exists file bytes,
    filepath r = Some file /\ size r = Some bytes /\ 1000 <= bytes /\
    fs w' !! file = Some bytes.
Proof.
  induction names as [|name rest IH]; intros w r w'; simpl.
  - intros [= <- <-] Hst. discriminate Hst.
  - unfold bind at 1, settled.
    destruct (tryDownloadStrategy this env name id w) as [[[file bytes|reason]|e] w1] eqn:Hcall.
    + intros [= <- <-] _.
      destruct (tryDownloadStrategy_sized this env name id _ _ _ Hcall) as [Hbytes Hfs].
      exists file, bytes. repeat split; auto.
    + unfold bind, updateStrategyStats, sleep, modify. simpl. apply IH.
    + unfold bind, updateStrategyStats, sleep, modify. simpl. apply IH.
Qed.

Lemma downloadExtension_artifact id attempt w r w' :
  downloadExtension this env id attempt w = (Return r, w') ->
  status r = St_success ->
  exists file bytes,
    filepath r = Some file /\ size r = Some bytes /\ 1000 <= bytes /\
    fs w' !! file = Some bytes.
Proof.
  destruct (path_join (downloadDir this) (id +:+ ".zip")) as [p|e] eqn:Hp.
  - rewrite downloadExtension_eq.
    destruct (usableArtifact this id w) eqn:Hu.
    + destruct (attemptBody_skips id (emit (EvAttempt id attempt) w) Hu)
        as (f & n & _ & _ & _ & ->).
      intros [= <- <-] Hst. discriminate Hst.
    + rewrite (attemptBody_downloads id _ p Hp) by exact Hu.
      destruct (tryStrategies this env (downloadStrategies this) id
                  (emit (EvAttempt id attempt) w)) as [[r0|e0] w0] eqn:Hrun.
      * intros [= <- <-]. apply (tryStrategies_artifact _ _ _ _ _ Hrun).
      * destruct (tryStrategies_spec (downloadStrategies this) id
                    (emit (EvAttempt id attempt) w)) as (r1 & w2 & Hr1 & _).
        rewrite Hr1 in Hrun. discriminate Hrun.
  - rewrite (downloadExtension_cascade id e Hp _ attempt w eq_refl).
    intros [= <- <-] Hst. discriminate Hst.
Qed.
End Orchestrator.

(** ** The batch scheduler *)

Lemma js_slice_batch {A} (l : list A) (i c : Z) :
  0 <= i -> 0 < c ->
  js_slice l i (i + c) = take (Z.to_nat c) (drop (Z.to_nat i) l).
Proof.
  intros Hi Hc. unfold js_slice.
  replace (i <? 0) with false by (symmetry; apply Z.ltb_ge; lia).
  replace (i + c <? 0) with false by (symmetry; apply Z.ltb_ge; lia).
  destruct (Z_le_gt_dec i (Z.of_nat (length l))) as [Hle|Hgt].
  - rewrite (Z.min_l i) by lia.
    rewrite <- (take_ge (drop (Z.to_nat i) l) (length (drop (Z.to_nat i) l))) at 2 by lia.
    rewrite take_take. f_equal. rewrite length_drop. lia.
  - rewrite (Z.min_r i) by lia. rewrite (Z.min_r (i + c)) by lia.
    rewrite !drop_ge by lia. rewrite take_nil. destruct (Z.to_nat _); reflexivity.
Qed.

Lemma processed_bump st w w' :
  counters w' = bump st (counters w) ->
  completed (stats w') + failed (stats w') + notFound (stats w') + skipped (stats w')
  = completed (stats w) + failed (stats w) + notFound (stats w) + skipped (stats w) + 1.
Proof. unfold counters. destruct st; simpl; intros [= -> -> -> ->]; lia. Qed.

Lemma usableArtifact_fs this id w1 w2 :
  fs w1 = fs w2 -> usableArtifact this id w1 = usableArtifact this id w2.
Proof. unfold usableArtifact. intros ->. reflexivity. Qed.

Section Scheduler.
Context (this : Crawler) (env : Env).

Lemma runBatch_spec batch : forall index w, exists rs w',
  runBatch this env batch index w = (Return rs, w') /\
  extensionId <$> rs = batch /\
  processed (stats w') = processed (stats w) + Z.of_nat (length batch) /\
  schedule w' = schedule w.
Proof.
  induction batch as [|id rest IH]; intros index w; simpl.
  - eexists _, _. split; [reflexivity|]. repeat split; auto. simpl. lia.
  - unfold bind at 1, sleep at 1, modify at 1. simpl.
    set (w0 := emit (EvSleep (index * 1000)) w).
    destruct (downloadExtension_spec this env id 1 w0)
      as (r & w1 & Hr & Hid & Hcnt & Hsch & _).
    unfold bind at 1. rewrite Hr.
    destruct (IH (index + 1) w1) as (rs & w2 & Hrs & Hids & Hp & Hs).
    unfold bind. rewrite Hrs. unfold ret.
    exists (r :: rs), w2. split; [reflexivity|].
    repeat split.
    + rewrite fmap_cons, Hid, Hids. reflexivity.
    + rewrite Hp. unfold processed. rewrite (processed_bump _ _ _ Hcnt).
      simpl. lia.
    + rewrite Hs, Hsch. apply (blind_event _ blind_schedule). reflexivity.
Qed.

(** An identifier with a usable artifact costs one attempt and nothing else. *)
Lemma downloadExtension_skips id attempt w :
  usableArtifact this id w = true ->
  exists r,
    downloadExtension this env id attempt w =
      (Return r, set_stats (count_status St_skipped) (emit (EvAttempt id attempt) w)) /\
    extensionId r = id /\ status r = St_skipped.
Proof.
  intros Hu. rewrite downloadExtension_eq.
  destruct (attemptBody_skips this env id (emit (EvAttempt id attempt) w) Hu)
    as (f & n & _ & _ & _ & ->).
  eexists. split; [reflexivity|]. split; reflexivity.
Qed.

Lemma runBatch_skips batch : forall index w,
  (forall id, id ∈ batch -> usableArtifact this id w = true) ->
  exists rs w',
    runBatch this env batch index w = (Return rs, w') /\
    Forall (fun r => status r = St_skipped) rs /\
    fs w' = fs w /\
    calls_of (trace w') = calls_of (trace w).
Proof.
  induction batch as [|id rest IH]; intros index w Hall; simpl.
  - eexists _, _. split; [reflexivity|]. repeat split; auto.
  - unfold bind at 1, sleep at 1, modify at 1. simpl.
    set (w0 := emit (EvSleep (index * 1000)) w).
    assert (Hu : usableArtifact this id w0 = true)
      by (apply Hall, list_elem_of_here).
    destruct (downloadExtension_skips id 1 w0 Hu) as (r & Hr & _ & Hst).
    unfold bind at 1. rewrite Hr. cbv beta iota. unfold bind.
    match goal with |- context [runBatch this env rest (index + 1) ?w1] =>
      destruct (IH (index + 1) w1) as (rs & w2 & Hrs & Hsk & Hfs & Hcalls) end.
    { intros id' Hid'. rewrite <- (Hall id' (list_elem_of_further _ _ _ Hid')).
      apply usableArtifact_fs. reflexivity. }
    rewrite Hrs. unfold ret.
    exists (r :: rs), w2. split; [reflexivity|].
    repeat split.
    + constructor; assumption.
    + rewrite Hfs. reflexivity.
    + rewrite Hcalls. simpl. rewrite !calls_of_emit. simpl. rewrite !app_nil_r.
      reflexivity.
Qed.

Context (dir : string) (Hdir : downloadDir this = JStr dir).

(** The checkpoint is written exactly when enough results have piled up
    since the marker, which then moves to the current count. *)
Lemma checkpointIfDue_spec results w :
  let count := Z.of_nat (length results) in
  let due := count - lastCheckpoint (stats w) >=? checkpointInterval this in
  exists w',
    checkpointIfDue this results w = (Return tt, w') /\
    checkpoints_of (trace w') =
      (checkpoints_of (trace w) ++ if due then [length results] else [])%list /\
    lastCheckpoint (stats w') = (if due then count else lastCheckpoint (stats w)) /\
    batches_of (trace w') = batches_of (trace w) /\
    counters w' = counters w /\ fs w' = fs w /\
    calls_of (trace w') = calls_of (trace w).
Proof.
  intros count due. unfold checkpointIfDue, bind at 1, get_stats. fold count. fold due.
  destruct due; simpl.
  - unfold saveCheckpoint, bind, lift. rewrite Hdir. simpl.
    eexists. split; [reflexivity|]. simpl.
    rewrite checkpoints_of_emit, batches_of_emit, calls_of_emit, !app_nil_r.
    repeat split; auto.
  - eexists. split; [reflexivity|]. rewrite app_nil_r. repeat split; auto.
Qed.

Lemma interBatchDelay_spec ids i w : exists w',
  interBatchDelay this ids i w = (Return tt, w') /\
  schedule w' = schedule w /\ counters w' = counters w /\ fs w' = fs w /\
  calls_of (trace w') = calls_of (trace w).
Proof.
  unfold interBatchDelay.
  destruct (i + concurrency this <? Z.of_nat (length ids)).
  - eexists. split; [reflexivity|]. simpl.
    rewrite calls_of_emit, app_nil_r.
    repeat split; auto. apply (blind_event _ blind_schedule). reflexivity.
  - eexists. split; [reflexivity|]. repeat split; auto.
Qed.

(** A turn of the loop in terms of the batch run inside it. *)
Lemma batchTurn_run ids i results w rs w1 :
  let batch := js_slice ids i (i + concurrency this) in
  runBatch this env batch 0 (emit (EvBatch batch) w) = (Return rs, w1) ->
  let results' := (results ++ rs)%list in
  let due := Z.of_nat (length results') - lastCheckpoint (stats w1)
             >=? checkpointInterval this in
  exists w',
    batchTurn this env ids i results w = (Return results', w') /\
    checkpoints_of (trace w') =
      (checkpoints_of (trace w1) ++ if due then [length results'] else [])%list /\
    lastCheckpoint (stats w') =
      (if due then Z.of_nat (length results') else lastCheckpoint (stats w1)) /\
    batches_of (trace w') = batches_of (trace w1) /\
    counters w' = counters w1 /\ fs w' = fs w1 /\
    calls_of (trace w') = calls_of (trace w1).
Proof.
  intros batch Hrun results' due.
  destruct (checkpointIfDue_spec results' w1)
    as (w2 & Hcp & Hcps & Hlast & Hb & Hc & Hfs & Hcalls).
  destruct (interBatchDelay_spec ids i w2) as (w3 & Hd & Hs3 & Hc3 & Hfs3 & Hcalls3).
  exists w3. split.
  - unfold batchTurn. fold batch. unfold bind at 1, modify at 1. simpl.
    unfold bind at 1. rewrite Hrun. fold results'.
    unfold bind. rewrite Hcp, Hd. reflexivity.
  - unfold schedule in Hs3. injection Hs3 as Hb3 Hcp3 Hl3.
    fold due in Hcps, Hlast.
    rewrite Hcp3, Hl3, Hb3, Hc3, Hfs3, Hcalls3. repeat split; auto.
Qed.

(** What a turn does to the schedule and the counters, whatever the
    downloads of the batch turn out to be. *)
Lemma batchTurn_spec ids i results w :
  let batch := js_slice ids i (i + concurrency this) in
  exists rs w',
    let results' := (results ++ rs)%list in
    let due := Z.of_nat (length results') - lastCheckpoint (stats w)
               >=? checkpointInterval this in
    batchTurn this env ids i results w = (Return results', w') /\
    extensionId <$> rs = batch /\
    batches_of (trace w') = (batches_of (trace w) ++ [batch])%list /\
    checkpoints_of (trace w') =
      (checkpoints_of (trace w) ++ if due then [length results'] else [])%list /\
    lastCheckpoint (stats w') =
      (if due then Z.of_nat (length results') else lastCheckpoint (stats w)) /\
    processed (stats w') = processed (stats w) + Z.of_nat (length batch).
Proof.
  intros batch.
  destruct (runBatch_spec batch 0 (emit (EvBatch batch) w))
    as (rs & w1 & Hrun & Hids & Hp & Hs).
  destruct (batchTurn_run ids i results w rs w1 Hrun)
    as (w' & Ht & Hcps & Hlast & Hb & Hc & _).
  unfold schedule in Hs. simpl in Hs.
  rewrite batches_of_emit, checkpoints_of_emit, app_nil_r in Hs.
  injection Hs as Hb1 Hcp1 Hl1.
  exists rs, w'. simpl. rewrite Hl1 in Hcps, Hlast. rewrite Hcp1 in Hcps.
  split; [exact Ht|]. split; [exact Hids|]. split; [rewrite Hb; exact Hb1|].
  split; [exact Hcps|]. split; [exact Hlast|].
  unfold processed in *. unfold counters in Hc. injection Hc as H1 H2 H3 H4.
  rewrite H1, H2, H3, H4, Hp. reflexivity.
Qed.

(** Invariants of the loop: with a positive batch size, [length ids]
    units of fuel are enough for the loop to run to its end. *)
Lemma processBatch_from_inv (Inv : Z -> list ItemResult -> World -> Prop) ids :
  0 < concurrency this ->
  (forall i results w,
      0 <= i < Z.of_nat (length ids) -> Inv i results w ->
      exists results' w',
        batchTurn this env ids i results w = (Return results', w') /\
        Inv (i + concurrency this) results' w') ->
  forall fuel i results w,
    0 <= i -> Z.of_nat (length ids) - i <= Z.of_nat fuel -> Inv i results w ->
    exists j results' w',
      processBatch_from this env fuel ids i results w = Some (Return results', w') /\
      Z.of_nat (length ids) <= j /\ Inv j results' w'.
Proof.
  intros Hc Hstep. induction fuel as [|fuel IH]; intros i results w Hi Hfuel Hinv; simpl.
  - replace (i <? Z.of_nat (length ids)) with false by (symmetry; apply Z.ltb_ge; lia).
    exists i, results, w. repeat split; auto. lia.
  - destruct (i <? Z.of_nat (length ids)) eqn:Hlt.
    + apply Z.ltb_lt in Hlt.
      destruct (Hstep i results w (conj Hi Hlt) Hinv) as (results' & w' & -> & Hinv').
      apply IH; [lia | lia | exact Hinv'].
    + apply Z.ltb_ge in Hlt. exists i, results, w. repeat split; auto.
Qed.
End Scheduler.

(** ** Where a rejected transfer goes *)

Section Rejections.
Context (this : Crawler) (env : Env).

(** The loop over the endpoints goes on to the next one. *)
Lemma tryEndpoints_absorbs url rest id w e w1 :
  downloadFileDirectly this env url id w = (Throw e, w1) ->
  tryEndpoints this env (url :: rest) id w = tryEndpoints this env rest id w1.
Proof. intros Hd. simpl. unfold bind, settled. rewrite Hd. reflexivity. Qed.

(** The two link strategies hand the link they found to
    [downloadFileDirectly] and settle as it does. *)
Lemma downloadViaCRXExtractor_link id link w :
  extractorPage env (trace (emit (EvBrowser "https://crxextractor.com/") w)) id
    = LinkFound link ->
  link <> EmptyString ->
  downloadViaCRXExtractor this env id w =
  downloadFileDirectly this env link id (emit (EvBrowser "https://crxextractor.com/") w).
Proof.
  intros Hpage Hlink. unfold downloadViaCRXExtractor, bind at 1, modify at 1. simpl.
  unfold bind at 1, history at 1. simpl. simpl in Hpage. rewrite Hpage. unfold viaLink.
  replace (String.eqb link EmptyString) with false
    by (symmetry; apply String.eqb_neq; exact Hlink).
  reflexivity.
Qed.

Lemma downloadViaCRXViewerCom_link id link w :
  viewerComPage env (trace (emit (EvBrowser "https://crxviewer.com/") w)) id
    = LinkFound link ->
  link <> EmptyString ->
  downloadViaCRXViewerCom this env id w =
  downloadFileDirectly this env link id (emit (EvBrowser "https://crxviewer.com/") w).
Proof.
  intros Hpage Hlink. unfold downloadViaCRXViewerCom, bind at 1, modify at 1. simpl.
  unfold bind at 1, history at 1. simpl. simpl in Hpage. rewrite Hpage. unfold viaLink.
  replace (String.eqb link EmptyString) with false
    by (symmetry; apply String.eqb_neq; exact Hlink).
  reflexivity.
Qed.

(** The strategy loop catches what a strategy throws, books it as an
    error, pauses and goes on. *)
Lemma tryStrategies_catches name rest id w e w1 :
  tryDownloadStrategy this env name id w = (Throw e, w1) ->
  tryStrategies this env (name :: rest) id w =
  tryStrategies this env rest id
    (emit (EvSleep 2000) (snd (updateStrategyStats name "error" w1))).
Proof. intros Hs. simpl. unfold bind at 1, settled. rewrite Hs. reflexivity. Qed.

(** With its path built, a call never ends in [failed]. *)
Lemma downloadExtension_not_failed id file attempt w :
  path_join (downloadDir this) (id +:+ ".zip") = Return file ->
  exists r w',
    downloadExtension this env id attempt w = (Return r, w') /\
    status r <> St_failed.
Proof.
  intros Hp. destruct (usableArtifact this id w) eqn:Hu.
  - destruct (downloadExtension_skips this env id attempt w Hu) as (r & Hr & _ & Hst).
    eexists _, _. split; [exact Hr|]. rewrite Hst. discriminate.
  - rewrite (downloadExtension_chain this env id attempt w file Hp Hu).
    destruct (tryStrategies_spec this env (downloadStrategies this) id
                (emit (EvAttempt id attempt) w))
      as (r & w' & Hr & _ & Hst & _).
    exists r, w'. split; [exact Hr|].
    destruct Hst as [Hst|Hst]; rewrite Hst; discriminate.
Qed.
End Rejections.

(** ** The properties of the specification *)

Lemma retry_trace_attempts id : forall retries attempt,
  attempts_of (retry_trace id attempt retries) =
  (fun a => (id, a)) <$> seqZ attempt (Z.of_nat retries + 1).
Proof.
  induction retries as [|fewer IH]; intros attempt.
  - reflexivity.
  - rewrite seqZ_cons by lia. rewrite fmap_cons.
    replace (Z.pred (Z.of_nat (S fewer) + 1)) with (Z.of_nat fewer + 1) by lia.
    rewrite <- (IH (Z.succ attempt)). reflexivity.
Qed.

Lemma retry_trace_sleeps id : forall retries attempt,
  sleeps_of (retry_trace id attempt retries) =
  retryDelay <$> seqZ attempt (Z.of_nat retries).
Proof.
  induction retries as [|fewer IH]; intros attempt.
  - reflexivity.
  - rewrite seqZ_cons by lia. rewrite fmap_cons.
    replace (Z.pred (Z.of_nat (S fewer))) with (Z.of_nat fewer) by lia.
    rewrite <- (IH (Z.succ attempt)). reflexivity.
Qed.

(** C1.  When the existing-artifact check finds nothing usable and every
    configured strategy reports failure or throws, the first call of
    [downloadExtension] returns the [not_found] record: the body is entered
    once, with attempt number 1, the [notFound] counter is the only one
    that moves, and [failed] is untouched. *)
Theorem exhaustion_is_not_found (this : Crawler) (env : Env)
    (id expectedFile : string) (w : World) :
  path_join (downloadDir this) (id +:+ ".zip") = Return expectedFile ->
  usableArtifact this id w = false ->
  (forall name w0, name ∈ downloadStrategies this ->
     fails (fst (tryDownloadStrategy this env name id w0))) ->
  exists r w',
    downloadExtension this env id 1 w = (Return r, w') /\
    status r = St_not_found /\ status r <> St_failed /\
    attempts_of (trace w') = (attempts_of (trace w) ++ [(id, 1)])%list /\
    counters w' = bump St_not_found (counters w).
Proof.
  intros Hp Hu Hall.
  rewrite downloadExtension_eq.
  rewrite (attemptBody_downloads this env id _ expectedFile Hp) by exact Hu.
  pose proof (tryStrategies_exhausted this env _ id Hall (emit (EvAttempt id 1) w)) as Hex.
  destruct (tryStrategies_spec this env (downloadStrategies this) id (emit (EvAttempt id 1) w))
    as (r & w' & Hr & _ & _ & Hcnt & _ & Hatt & _).
  rewrite Hr in Hex |- *. simpl in Hex. injection Hex as ->.
  exists (exhausted id), w'. split; [reflexivity|].
  split; [reflexivity|]. split; [discriminate|].
  split.
  - rewrite Hatt. simpl. apply attempts_of_emit.
  - exact Hcnt.
Qed.

(** An unreachable network and no browser: every strategy of the default
    chain fails. *)
Lemma exhaustion_is_not_found_witness :
  exists r w',
    downloadExtension crawler0 offline someId 1 blank = (Return r, w') /\
    status r = St_not_found /\ status r <> St_failed /\
    attempts_of (trace w') = (attempts_of (trace blank) ++ [(someId, 1)])%list /\
    counters w' = bump St_not_found (counters blank).
Proof.
  apply (exhaustion_is_not_found crawler0 offline someId
           "./downloads/crx_extensions/abcdefghijklmnopabcdefghijklmnop.zip" blank).
  - reflexivity.
  - reflexivity.
  - intros name w0 Hin. simpl in Hin.
    repeat (apply elem_of_cons in Hin as [->|Hin]); try exact I.
    apply elem_of_nil in Hin. contradiction.
Defined.

(** C2.  When every run of the body ends in the outer [catch] and
    [retryAttempts] is at least 1, a call with attempt number 1 enters the
    body [retryAttempts] times, numbered 1 to [retryAttempts], and then
    returns the [failed] record; between two attempts it waits [min(5000 * attempt, 15000)] ms, a delay that never
    decreases with the attempt number, grows strictly below the cap and
    never exceeds 15000. *)
Theorem retry_ceiling (this : Crawler) (env : Env) (id : string) (w : World) :
  1 <= retryAttempts this ->
  (forall w0, exists e w1, attemptBody this env id w0 = (Throw e, w1)) ->
  exists r w',
    downloadExtension this env id 1 w = (Return r, w') /\
    status r = St_failed /\
    attempts_of (trace w') =
      (attempts_of (trace w) ++ ((fun a => (id, a)) <$> seqZ 1 (retryAttempts this)))%list /\
    length ((fun a => (id, a)) <$> seqZ 1 (retryAttempts this)) = Z.to_nat (retryAttempts this) /\
    last (attempts_of (trace w')) = Some (id, retryAttempts this) /\
    sleeps_of (trace w') =
      (sleeps_of (trace w) ++ (retryDelay <$> seqZ 1 (retryAttempts this - 1)))%list /\
    counters w' = bump St_failed (counters w) /\
    (forall a, retryDelay a <= retryDelay (a + 1) /\ retryDelay a <= 15000 /\
               (5000 * (a + 1) <= 15000 -> retryDelay a < retryDelay (a + 1))).
Proof.
  intros HR Hall.
  assert (exists e, path_join (downloadDir this) (id +:+ ".zip") = Throw e) as [e Hp].
  { destruct (path_join (downloadDir this) (id +:+ ".zip")) as [p|e] eqn:Hp; [|eauto].
    exfalso. destruct (Hall w) as (e & w1 & Hbody).
    destruct (usableArtifact this id w) eqn:Hu.
    - destruct (attemptBody_skips this env id w Hu) as (f & n & _ & _ & _ & Hs).
      rewrite Hs in Hbody. discriminate.
    - rewrite (attemptBody_downloads this env id w p Hp Hu) in Hbody.
      destruct (tryStrategies_spec this env (downloadStrategies this) id w)
        as (r & w' & Hr & _). rewrite Hr in Hbody. discriminate. }
  rewrite (downloadExtension_cascade this env id e Hp _ 1 w eq_refl).
  eexists _, _. split; [reflexivity|]. simpl.
  set (retries := Z.to_nat (retryAttempts this - 1)).
  assert (Hatt : attempts_of (trace w ++ retry_trace id 1 retries) =
                 (attempts_of (trace w) ++ ((fun a => (id, a)) <$> seqZ 1 (retryAttempts this)))%list).
  { unfold attempts_of at 1. rewrite omap_app. fold (attempts_of (trace w)).
    fold (attempts_of (retry_trace id 1 retries)). rewrite retry_trace_attempts.
    do 3 f_equal. unfold retries. lia. }
  split; [reflexivity|]. split; [exact Hatt|].
  split; [rewrite length_fmap, length_seqZ; reflexivity|].
  split.
  { rewrite Hatt.
    replace (retryAttempts this) with (Z.of_nat (S retries)) at 1 by (unfold retries; lia).
    rewrite seqZ_S, fmap_app, app_assoc. simpl. rewrite last_snoc.
    do 2 f_equal. unfold retries. lia. }
  split.
  { unfold sleeps_of at 1. rewrite omap_app. fold (sleeps_of (trace w)).
    fold (sleeps_of (retry_trace id 1 retries)). rewrite retry_trace_sleeps.
    do 3 f_equal. unfold retries. lia. }
  split; [apply counters_count_status|].
  intros a. unfold retryDelay. lia.
Qed.

(** A crawler built with [downloadDir: 7]: [path.join] throws in every
    attempt, and the default three attempts are made, 5000 and 10000 ms
    apart. *)
Lemma retry_ceiling_witness :
  exists r w',
    downloadExtension (new_crawler (mkOptions (JNum 7) None None None)) offline someId 1 blank
      = (Return r, w') /\
    status r = St_failed /\
    attempts_of (trace w') = [(someId, 1); (someId, 2); (someId, 3)] /\
    sleeps_of (trace w') = [5000; 10000].
Proof.
  destruct (retry_ceiling (new_crawler (mkOptions (JNum 7) None None None)) offline someId blank)
    as (r & w' & Hr & Hst & Hatt & _ & _ & Hsl & _).
  - simpl. lia.
  - intros w0. exists "The path argument must be of type string", w0. reflexivity.
  - exists r, w'. repeat split; assumption.
Defined.

(** C3.  A result with status [success] records a size of at least 1000
    bytes, which is the size of the file it names as the call returns.
    [downloadFileDirectly] settles in two ways only: it resolves with the
    artifact's path and the size of the file on disk, at least 1000 bytes,
    or it rejects.  So a transfer that leaves a file of fewer than 1000
    bytes is never resolved as a success but rejected; for a 200 response
    whose body was written in full the message is
    [Downloaded file too small], and the small file is left on disk. *)
Theorem success_meets_minimum_size (this : Crawler) (env : Env) :
  (forall id attempt w r w',
      downloadExtension this env id attempt w = (Return r, w') ->
      status r = St_success ->
      exists file bytes,
        filepath r = Some file /\ size r = Some bytes /\ 1000 <= bytes /\
        fs w' !! file = Some bytes) /\
  (forall url id w c w1,
      downloadFileDirectly this env url id w = (c, w1) ->
      match c with
      | Return (StratOk file bytes) =>
          path_join (downloadDir this) (id +:+ ".zip") = Return file /\
          1000 <= bytes /\ fs w1 !! file = Some bytes
      | Return (StratFail _) => False
      | Throw _ => True
      end) /\
  (forall url id file w c w1 bytes,
      path_join (downloadDir this) (id +:+ ".zip") = Return file ->
      downloadFileDirectly this env url id w = (c, w1) ->
      fs w1 !! file = Some bytes -> bytes < 1000 ->
      exists e, c = Throw e) /\
  (forall url id msg bytes file w,
      path_join (downloadDir this) (id +:+ ".zip") = Return file ->
      net env (trace w) url = Response 200 msg (Finished bytes) ->
      bytes < 1000 ->
      exists w1,
        downloadFileDirectly this env url id w = (Throw "Downloaded file too small", w1) /\
        fs w1 !! file = Some bytes).
Proof.
  split; [|split; [|split]].
  - intros id attempt w r w'. apply downloadExtension_artifact.
  - intros url id w c w1 Hd. exact (downloadFileDirectly_delivered this env url id w c w1 Hd).
  - intros url id file w c w1 bytes Hp Hd Hfs Hlt.
    pose proof (downloadFileDirectly_delivered this env url id w c w1 Hd) as Hc.
    destruct c as [[f b|reason]|e]; simpl in Hc.
    + destruct Hc as (Hf & Hb & Hfs'). rewrite Hp in Hf. injection Hf as <-.
      rewrite Hfs in Hfs'. injection Hfs' as <-. lia.
    + contradiction.
    + exists e. reflexivity.
  - intros url id msg bytes file w Hp Hnet Hlt.
    unfold downloadFileDirectly, bind at 1, history. rewrite Hnet.
    rewrite (exchange_finished this id file Hp).
    replace (bytes <? 1000) with true by (symmetry; apply Z.ltb_lt; exact Hlt).
    eexists. split; [reflexivity|]. simpl. apply lookup_insert_eq.
Qed.

(** A 50000-byte download through the direct API is a success of 50000
    bytes.  Against a remote side that answers every request with 999
    bytes, the transfer is rejected with the 999 bytes left on disk, and
    the item is reported as [not_found], not as a success. *)
Lemma success_meets_minimum_size_witness :
  (exists r w',
     downloadExtension crawler0 (serving 200 50000) someId 1 blank = (Return r, w') /\
     status r = St_success /\ size r = Some 50000 /\
     exists file bytes,
       filepath r = Some file /\ size r = Some bytes /\ 1000 <= bytes /\
       fs w' !! file = Some bytes) /\
  (exists w1,
     downloadFileDirectly crawler0 (serving 200 999) "https://example.org/x.crx" someId blank
       = (Throw "Downloaded file too small", w1) /\
     fs w1 !! "./downloads/crx_extensions/abcdefghijklmnopabcdefghijklmnop.zip" = Some 999) /\
  (exists r w',
     downloadExtension crawler0 (serving 200 999) someId 1 blank = (Return r, w') /\
     status r = St_not_found).
Proof.
  split; [|split].
  - destruct (downloadExtension crawler0 (serving 200 50000) someId 1 blank) as [c w'] eqn:Hrun.
    vm_compute in Hrun. injection Hrun as <- <-.
    eexists _, _. split; [reflexivity|]. split; [reflexivity|]. split; [reflexivity|].
    destruct (success_meets_minimum_size crawler0 (serving 200 50000)) as (Hsize & _).
    eapply (Hsize someId 1 blank).
    + vm_compute. reflexivity.
    + reflexivity.
  - destruct (success_meets_minimum_size crawler0 (serving 200 999)) as (_ & _ & _ & Hsmall).
    apply (Hsmall "https://example.org/x.crx" someId "OK" 999
             "./downloads/crx_extensions/abcdefghijklmnopabcdefghijklmnop.zip" blank).
    + reflexivity.
    + reflexivity.
    + lia.
  - eexists _, _. split; [vm_compute; reflexivity|]. reflexivity.
Defined.

(** C4.  [downloadExtension] always returns, and it returns [skipped]
    exactly when a file is stored at the path derived from the identifier
    with a size above 1000 bytes.  In that case the only thing it does
    besides counting is to record the attempt: no strategy, request or
    browser session is started and no file is written.  Otherwise, when the
    path can be built, the call is the strategy chain run right after the
    attempt was recorded.  Looking up the size never changes the world. *)
Theorem existing_artifact_check (this : Crawler) (env : Env) (id : string)
    (attempt : Z) (w : World) :
  exists r w',
    downloadExtension this env id attempt w = (Return r, w') /\
    (status r = St_skipped <-> usableArtifact this id w = true) /\
    (usableArtifact this id w = true <->
       exists expectedFile bytes,
         path_join (downloadDir this) (id +:+ ".zip") = Return expectedFile /\
         fs w !! expectedFile = Some bytes /\ 1000 < bytes) /\
    (usableArtifact this id w = true ->
       trace w' = (trace w ++ [EvAttempt id attempt])%list /\
       calls_of (trace w') = calls_of (trace w) /\
       fs w' = fs w) /\
    (usableArtifact this id w = false ->
       forall expectedFile,
         path_join (downloadDir this) (id +:+ ".zip") = Return expectedFile ->
         downloadExtension this env id attempt w =
           tryStrategies this env (downloadStrategies this) id (emit (EvAttempt id attempt) w)) /\
    (forall p w0, snd (settled (fs_stat p) w0) = w0).
Proof.
  destruct (downloadExtension_spec this env id attempt w)
    as (r & w' & Hr & _ & _ & _ & _ & Hskip).
  exists r, w'. split; [exact Hr|]. split; [exact Hskip|]. split; [|split; [|split]].
  - unfold usableArtifact.
    destruct (path_join (downloadDir this) (id +:+ ".zip")) as [p|e].
    + destruct (fs w !! p) as [n|] eqn:Hfs.
      * split.
        -- intros Hn. apply Z.gtb_lt in Hn. eauto.
        -- intros (f & b & [= <-] & Hb & Hlt). rewrite Hfs in Hb. injection Hb as ->.
           apply Z.gtb_lt. exact Hlt.
      * split; [discriminate|]. intros (f & b & [= <-] & Hb & _).
        rewrite Hfs in Hb. discriminate.
    + split; [discriminate|]. intros (f & b & Hf & _). discriminate.
  - intros Hu. destruct (downloadExtension_skips this env id attempt w Hu) as (r1 & Hr1 & _).
    rewrite Hr in Hr1. injection Hr1 as _ ->. simpl.
    rewrite calls_of_emit. simpl. rewrite app_nil_r. auto.
  - intros Hu p Hp. apply (downloadExtension_chain this env id attempt w p Hp Hu).
  - intros p w0. unfold settled, fs_stat. destruct (fs w0 !! p); reflexivity.
Qed.

(** C5 as stated fails: a response with status 203 and a 5000-byte body is
    in the 2xx range and above the minimum size, yet the transfer is
    rejected; a 304 without a [Location] header is rejected as well rather
    than followed. *)
Lemma only_200_is_accepted :
  200 <= 203 < 300 /\ 1000 <= 5000 /\
  fst (downloadFileDirectly crawler0 (serving 203 5000) "https://example.org/x.crx" someId blank)
    = Throw "HTTP 203: OK" /\
  fst (downloadFileDirectly crawler0 (serving 304 0) "https://example.org/x.crx" someId blank)
    = Throw "HTTP 304: OK".
Proof. repeat split; try lia; vm_compute; reflexivity. Qed.

(** C5, amended.  [downloadFileDirectly] acts on the exchange the remote
    side offers for the URL.  A 3xx response whose [Location] header is not
    empty is followed: the outcome is that of the request to the location.
    Every other response is final, with or without a [Location] header.
    A final response with status exactly 200 resolves with the file when
    its body is written in full and holds at least 1000 bytes; it rejects
    when the file is smaller or the transfer is cut.  Every other final
    response, the other 2xx codes and a 3xx without a location included,
    rejects with [HTTP <code>: <message>] before anything is written.
    A rejection is the failure of a strategy and nothing more: the loop of
    the direct API absorbs it and goes on to its next endpoint, so that the
    strategy always resolves; the two link strategies settle as the transfer
    does, and the strategy loop of [downloadExtension] catches what leaves
    them, books an error and goes on to the next strategy; the call never
    ends in [failed]. *)
Theorem status_code_convention (this : Crawler) (env : Env) (id file : string) (w : World) :
  path_join (downloadDir this) (id +:+ ".zip") = Return file ->
  (forall url, downloadFileDirectly this env url id w =
               exchange this (net env (trace w) url) url id w) /\
  (forall code msg location next body url,
      300 <= code < 400 -> location <> EmptyString ->
      exchange this (ResponseLocation code msg location next body) url id w =
      exchange this next location id (emit (EvRequest url) w)) /\
  (forall code msg location next body url,
      ~ (300 <= code < 400 /\ location <> EmptyString) ->
      exchange this (ResponseLocation code msg location next body) url id w =
      exchange this (Response code msg body) url id w) /\
  (forall msg bytes url,
      exchange this (Response 200 msg (Finished bytes)) url id w =
      (if bytes <? 1000 then Throw "Downloaded file too small"
       else Return (StratOk file bytes),
       set_fs (<[file := bytes]>) (emit (EvRequest url) w))) /\
  (forall msg written reason url,
      exchange this (Response 200 msg (Aborted written reason)) url id w =
      (Throw reason,
       match written with
       | Some n => set_fs (<[file := n]>) (emit (EvRequest url) w)
       | None => emit (EvRequest url) w
       end)) /\
  (forall code msg body url,
      code <> 200 ->
      exchange this (Response code msg body) url id w =
      (Throw ("HTTP " +:+ pretty code +:+ ": " +:+ msg), emit (EvRequest url) w)) /\
  (forall url rest e w0 w1,
      downloadFileDirectly this env url id w0 = (Throw e, w1) ->
      tryEndpoints this env (url :: rest) id w0 = tryEndpoints this env rest id w1) /\
  (forall w0, exists r w1, downloadViaDirectAPI this env id w0 = (Return r, w1)) /\
  (forall link w0,
      extractorPage env (trace (emit (EvBrowser "https://crxextractor.com/") w0)) id
        = LinkFound link ->
      link <> EmptyString ->
      downloadViaCRXExtractor this env id w0 =
      downloadFileDirectly this env link id (emit (EvBrowser "https://crxextractor.com/") w0)) /\
  (forall link w0,
      viewerComPage env (trace (emit (EvBrowser "https://crxviewer.com/") w0)) id
        = LinkFound link ->
      link <> EmptyString ->
      downloadViaCRXViewerCom this env id w0 =
      downloadFileDirectly this env link id (emit (EvBrowser "https://crxviewer.com/") w0)) /\
  (forall name rest e w0 w1,
      tryDownloadStrategy this env name id w0 = (Throw e, w1) ->
      tryStrategies this env (name :: rest) id w0 =
      tryStrategies this env rest id
        (emit (EvSleep 2000) (snd (updateStrategyStats name "error" w1)))) /\
  (forall attempt w0, exists r w1,
      downloadExtension this env id attempt w0 = (Return r, w1) /\
      status r <> St_failed).
Proof.
  intros Hp. split; [reflexivity|].
  split; [intros code msg location next body url; apply (exchange_redirect this id file Hp)|].
  split; [intros code msg location next body url; apply (exchange_final this id file Hp)|].
  split; [intros msg bytes url; apply (exchange_finished this id file Hp)|].
  split; [intros msg written reason url; apply (exchange_aborted this id file Hp)|].
  split; [intros code msg body url; apply (exchange_refused this id file Hp)|].
  split; [intros url rest e w0 w1; apply tryEndpoints_absorbs|].
  split; [intros w0; apply tryEndpoints_returns|].
  split; [intros link w0; apply downloadViaCRXExtractor_link|].
  split; [intros link w0; apply downloadViaCRXViewerCom_link|].
  split; [intros name rest e w0 w1; apply tryStrategies_catches|].
  intros attempt w0. apply (downloadExtension_not_failed this env id file attempt w0 Hp).
Qed.

(** A 302 to a location that answers 200 with 50000 bytes is followed; a
    302 whose [Location] header is empty is rejected as it stands; and when
    the link that crxextractor.com offers answers 404, the rejection leaves
    the strategy, is caught by the loop, and the item ends as [not_found]. *)
Lemma status_code_convention_witness :
  exchange crawler0 (ResponseLocation 302 "Found" "https://cdn.example.org/x.crx"
                       (Response 200 "OK" (Finished 50000)) (Finished 0))
    "https://example.org/x.crx" someId blank
  = (Return (StratOk "./downloads/crx_extensions/abcdefghijklmnopabcdefghijklmnop.zip" 50000),
     set_fs (<["./downloads/crx_extensions/abcdefghijklmnopabcdefghijklmnop.zip" := 50000]>)
       (emit (EvRequest "https://cdn.example.org/x.crx")
          (emit (EvRequest "https://example.org/x.crx") blank))) /\
  exchange crawler0 (ResponseLocation 302 "Found" EmptyString
                       (Response 200 "OK" (Finished 50000)) (Finished 0))
    "https://example.org/x.crx" someId blank
  = (Throw "HTTP 302: Found", emit (EvRequest "https://example.org/x.crx") blank) /\
  exists r w',
    downloadExtension (mkCrawler (JStr "out") 2 6000 3 ["crxextractor"] 100)
      {| net := fun _ _ => Response 404 "Not Found" (Finished 0);
         viewerPage := fun _ _ => ViewerThrows "Navigation timeout";
         blobPage := fun _ _ => BlobThrows "Navigation timeout";
         extractorPage := fun _ _ => LinkFound "https://cdn.example.org/x.crx";
         viewerComPage := fun _ _ => LinkThrows "Navigation timeout" |}
      someId 1 blank = (Return r, w') /\
    status r = St_not_found /\
    errors "crxextractor" w' = 1.
Proof.
  destruct (status_code_convention crawler0 offline someId
              "./downloads/crx_extensions/abcdefghijklmnopabcdefghijklmnop.zip" blank eq_refl)
    as (_ & Hfollow & Hfinal & _ & _ & Hrefused & _).
  split; [|split].
  - rewrite Hfollow by (lia || discriminate).
    destruct (status_code_convention crawler0 offline someId
                "./downloads/crx_extensions/abcdefghijklmnopabcdefghijklmnop.zip"
                (emit (EvRequest "https://example.org/x.crx") blank) eq_refl)
      as (_ & _ & _ & Hok & _).
    rewrite Hok. reflexivity.
  - rewrite Hfinal by (intros [_ Hloc]; apply Hloc; reflexivity).
    rewrite Hrefused by discriminate. reflexivity.
  - eexists _, _. split; [vm_compute; reflexivity|]. split; reflexivity.
Defined.

(** C6.  With a download directory that is a path, a positive concurrency
    limit [C] and fuel for one turn per identifier, [processBatch] returns,
    having launched [ceil(n / C)] batches.  The k-th batch is the slice of [C] identifiers that starts at
    position [k * C]: the batches are contiguous, in input order, and
    together are the input; each holds [C] identifiers except the last,
    which holds between 1 and [C].  The results come back one per input
    identifier, in input order.  For [C = 2] and five identifiers the batch
    sizes are 2, 2 and 1. *)
Theorem batches_partition_the_input (this : Crawler) (env : Env)
    (ids : list string) (w : World) (fuel : nat) (dir : string) :
  downloadDir this = JStr dir ->
  0 < concurrency this ->
  (length ids <= fuel)%nat ->
  exists results w' bs,
    processBatch this env fuel ids w = Some (Return results, w') /\
    batches_of (trace w') = (batches_of (trace w) ++ bs)%list /\
    Z.of_nat (length bs) = (Z.of_nat (length ids) + concurrency this - 1) / concurrency this /\
    Z.of_nat (length ids) <= Z.of_nat (length bs) * concurrency this
      < Z.of_nat (length ids) + concurrency this /\
    concat bs = ids /\
    (forall k b, bs !! k = Some b ->
       b = take (Z.to_nat (concurrency this)) (drop (k * Z.to_nat (concurrency this)) ids) /\
       (0 < length b <= Z.to_nat (concurrency this))%nat /\
       (S k < length bs -> length b = Z.to_nat (concurrency this))%nat) /\
    extensionId <$> results = ids /\
    (concurrency this = 2 -> length ids = 5%nat -> length <$> bs = [2; 2; 1]%nat).
Proof.
  intros Hdir HC Hfuel.
  set (C := concurrency this) in *. set (n := Z.of_nat (length ids)).
  pose (Inv := fun (i : Z) (results : list ItemResult) (w1 : World) =>
    exists bs,
      batches_of (trace w1) = (batches_of (trace w) ++ bs)%list /\
      i = Z.of_nat (length bs) * C /\ i < n + C /\
      (forall k b, bs !! k = Some b ->
         b = take (Z.to_nat C) (drop (k * Z.to_nat C) ids)) /\
      concat bs = take (Z.to_nat i) ids /\
      extensionId <$> results = take (Z.to_nat i) ids).
  destruct (processBatch_from_inv this env Inv ids HC) with (fuel := fuel) (i := 0)
    (results := @nil ItemResult) (w := w) as (j & results & w' & Hrun & Hj & bs & Hbs & Hjq & Hjn & Hk & Hcat & Hres).
  - (* one turn keeps the invariant *)
    intros i results w1 [Hi Hin] (bs & Hbs & Hiq & _ & Hk & Hcat & Hres).
    destruct (batchTurn_spec this env dir Hdir ids i results w1)
      as (rs & w2 & Hturn & Hids & Hb & _).
    fold C in Hids, Hb. rewrite (js_slice_batch ids i C Hi HC) in Hids, Hb.
    exists (results ++ rs)%list, w2. split; [exact Hturn|].
    exists (bs ++ [take (Z.to_nat C) (drop (Z.to_nat i) ids)])%list.
    assert (Hnat : Z.to_nat i = (length bs * Z.to_nat C)%nat).
    { rewrite Hiq. rewrite Z2Nat.inj_mul by lia. rewrite Nat2Z.id. reflexivity. }
    split; [rewrite Hb, Hbs, <- app_assoc; reflexivity|].
    split; [rewrite length_app; simpl; lia|].
    split; [unfold n; lia|].
    split; [|split].
    + intros k b Hkb. apply lookup_app_Some in Hkb as [Hkb|[Hge Hkb]].
      * apply Hk. exact Hkb.
      * apply list_lookup_singleton_Some in Hkb as [Hk0 <-].
        replace k with (length bs) by lia. rewrite <- Hnat. reflexivity.
    + rewrite concat_app. simpl. rewrite app_nil_r, Hcat.
      rewrite take_take_drop. f_equal. lia.
    + rewrite fmap_app, Hres, Hids. rewrite take_take_drop. f_equal. lia.
  - lia.
  - lia.
  - exists []. simpl. rewrite app_nil_r. repeat split; auto; try lia.
    intros k b Hkb. discriminate.
  - fold n in Hj.
    assert (Hall : take (Z.to_nat j) ids = ids) by (apply take_ge; lia).
    rewrite Hall in Hcat, Hres.
    exists results, w', bs. split; [exact Hrun|]. split; [exact Hbs|].
    assert (Hceil : Z.of_nat (length bs) = (n + C - 1) / C).
    { apply (Z.div_unique_pos (n + C - 1) C _ (n + C - 1 - C * Z.of_nat (length bs))); lia. }
    assert (Hsizes : forall k b, bs !! k = Some b ->
       b = take (Z.to_nat C) (drop (k * Z.to_nat C) ids) /\
       (0 < length b <= Z.to_nat C)%nat /\
       (S k < length bs -> length b = Z.to_nat C)%nat).
    { intros k b Hkb. pose proof (lookup_lt_Some _ _ _ Hkb) as Hlt.
      split; [apply Hk; exact Hkb|]. rewrite (Hk k b Hkb).
      rewrite length_take, length_drop.
      assert (H1 : (k * Z.to_nat C + Z.to_nat C <= length bs * Z.to_nat C)%nat) by nia.
      assert (H2 : (length bs * Z.to_nat C < length ids + Z.to_nat C)%nat) by nia.
      split; [lia|]. intros Hmore.
      assert (H3 : (S k * Z.to_nat C + Z.to_nat C <= length bs * Z.to_nat C)%nat) by nia.
      simpl in H3. lia. }
    split; [exact Hceil|]. split; [lia|]. split; [exact Hcat|]. split; [exact Hsizes|].
    split; [exact Hres|].
    intros HC2 Hn5. fold C in HC2. unfold n in Hceil. rewrite HC2, Hn5 in Hceil.
    change ((Z.of_nat 5 + 2 - 1) / 2) with 3 in Hceil.
    destruct bs as [|b0 [|b1 [|b2 [|b3 bs]]]]; simpl in Hceil; try lia.
    destruct (Hsizes 0%nat b0 eq_refl) as (_ & _ & H0).
    destruct (Hsizes 1%nat b1 eq_refl) as (_ & _ & H1).
    destruct (Hsizes 2%nat b2 eq_refl) as (Hb2 & _ & _).
    rewrite HC2 in H0, H1, Hb2. simpl in H0, H1.
    rewrite fmap_cons, fmap_cons, fmap_cons, H0, H1 by lia.
    rewrite Hb2, length_take, length_drop, Hn5. reflexivity.
Qed.

(** Five identifiers at concurrency 2. *)
Lemma batches_partition_the_input_witness :
  exists results w',
    processBatch (mkCrawler (JStr "out") 2 6000 3 ["directapi"] 4) (serving 200 50000) 5
      ["aa"; "bb"; "cc"; "dd"; "ee"] blank = Some (Return results, w') /\
    batches_of (trace w') = [["aa"; "bb"]; ["cc"; "dd"]; ["ee"]] /\
    extensionId <$> results = ["aa"; "bb"; "cc"; "dd"; "ee"].
Proof.
  destruct (batches_partition_the_input (mkCrawler (JStr "out") 2 6000 3 ["directapi"] 4)
              (serving 200 50000) ["aa"; "bb"; "cc"; "dd"; "ee"] blank 5 "out" eq_refl)
    as (results & w' & bs & Hrun & Hbs & _ & _ & _ & Hk & Hres & _).
  - simpl. lia.
  - simpl. lia.
  - exists results, w'. split; [exact Hrun|]. split; [|exact Hres].
    rewrite Hbs. simpl.
    pose proof (f_equal (fun o => batches_of (trace (snd (default (Return [], blank) o)))) Hrun) as Hb.
    simpl in Hb. rewrite Hbs in Hb. simpl in Hb. rewrite <- Hb. vm_compute. reflexivity.
Defined.

(** C7.  With a download directory that is a path, every turn of the loop
    returns, and right after its batch it writes a checkpoint exactly when the number of results so far minus the
    last-checkpoint marker is at least the checkpoint interval; the marker
    then becomes the number of results, and otherwise stays.  With interval
    4, concurrency 2, five identifiers and a marker at 0, [processBatch]
    writes exactly one checkpoint, after the fourth result. *)
Theorem checkpoint_when_interval_reached (this : Crawler) (env : Env)
    (ids : list string) (w : World) (dir : string) :
  downloadDir this = JStr dir ->
  (forall i results w0, exists rs w',
      let count := Z.of_nat (length (results ++ rs)) in
      batchTurn this env ids i results w0 = (Return (results ++ rs)%list, w') /\
      (checkpointInterval this <= count - lastCheckpoint (stats w0) ->
         checkpoints_of (trace w') = (checkpoints_of (trace w0) ++ [length (results ++ rs)])%list /\
         lastCheckpoint (stats w') = count) /\
      (count - lastCheckpoint (stats w0) < checkpointInterval this ->
         checkpoints_of (trace w') = checkpoints_of (trace w0) /\
         lastCheckpoint (stats w') = lastCheckpoint (stats w0))) /\
  (checkpointInterval this = 4 -> concurrency this = 2 -> length ids = 5%nat ->
   lastCheckpoint (stats w) = 0 ->
   forall fuel, (5 <= fuel)%nat ->
     exists results w',
       processBatch this env fuel ids w = Some (Return results, w') /\
       checkpoints_of (trace w') = (checkpoints_of (trace w) ++ [4%nat])%list /\
       lastCheckpoint (stats w') = 4).
Proof.
  intros Hdir. split.
  - intros i results w0.
    destruct (batchTurn_spec this env dir Hdir ids i results w0)
      as (rs & w' & Hturn & _ & _ & Hcps & Hlast & _).
    exists rs, w'. simpl. split; [exact Hturn|]. split.
    + intros Hdue.
      replace (Z.of_nat (length (results ++ rs)) - lastCheckpoint (stats w0)
               >=? checkpointInterval this) with true in Hcps, Hlast
        by (symmetry; apply Z.geb_le; exact Hdue).
      auto.
    + intros Hnot.
      replace (Z.of_nat (length (results ++ rs)) - lastCheckpoint (stats w0)
               >=? checkpointInterval this) with false in Hcps, Hlast
        by (symmetry; rewrite Z.geb_leb; apply Z.leb_gt; exact Hnot).
      rewrite app_nil_r in Hcps. auto.
  - intros HK HC Hn Hlast0 fuel Hfuel.
    pose (Inv := fun (i : Z) (results : list ItemResult) (w1 : World) =>
      Z.of_nat (length results) = Z.min i 5 /\
      (i = 0 \/ i = 2 \/ i = 4 \/ i = 6) /\
      checkpoints_of (trace w1) =
        (checkpoints_of (trace w) ++ if i <? 4 then [] else [4%nat])%list /\
      lastCheckpoint (stats w1) = (if i <? 4 then 0 else 4)).
    destruct (processBatch_from_inv this env Inv ids) with (fuel := fuel) (i := 0)
      (results := @nil ItemResult) (w := w)
      as (j & results & w' & Hrun & Hj & _ & Hcases & Hcps & Hlast).
    + lia.
    + intros i results w1 [Hi Hin] (Hlen & Hcases & Hcps & Hlast).
      destruct (batchTurn_spec this env dir Hdir ids i results w1)
        as (rs & w2 & Hturn & Hids & _ & Hcps2 & Hlast2 & _).
      simpl in Hturn, Hcps2, Hlast2.
      rewrite HC in Hids. rewrite (js_slice_batch ids i 2 Hi) in Hids by lia.
      apply (f_equal length) in Hids.
      rewrite length_fmap, length_take, length_drop, Hn in Hids.
      rewrite HK, Hlast, length_app, Hids in Hcps2, Hlast2.
      exists (results ++ rs)%list, w2. split; [exact Hturn|].
      rewrite HC. unfold Inv. rewrite length_app, Hids, Hcps2, Hlast2, Hcps.
      rewrite Hn in Hin.
      destruct Hcases as [->|[->|[->| ->]]]; try lia;
        simpl in Hlen |- *;
        (replace (length results) with 0%nat by lia) ||
        (replace (length results) with 2%nat by lia) ||
        (replace (length results) with 4%nat by lia);
        simpl; rewrite ?app_nil_r, <- ?app_assoc; repeat split; auto.
    + lia.
    + rewrite Hn. lia.
    + unfold Inv. simpl. rewrite app_nil_r. auto.
    + rewrite Hn in Hj.
      exists results, w'. split; [exact Hrun|].
      destruct Hcases as [->|[->|[->| ->]]]; try lia. simpl in Hcps, Hlast. auto.
Qed.

(** Five identifiers at concurrency 2 and checkpoint interval 4. *)
Lemma checkpoint_when_interval_reached_witness :
  exists results w',
    processBatch (mkCrawler (JStr "out") 2 6000 3 ["directapi"] 4) offline 5
      ["aa"; "bb"; "cc"; "dd"; "ee"] blank = Some (Return results, w') /\
    checkpoints_of (trace w') = [4%nat] /\
    lastCheckpoint (stats w') = 4.
Proof.
  destruct (checkpoint_when_interval_reached (mkCrawler (JStr "out") 2 6000 3 ["directapi"] 4)
              offline ["aa"; "bb"; "cc"; "dd"; "ee"] blank "out" eq_refl) as [_ Hscenario].
  apply (Hscenario eq_refl eq_refl eq_refl eq_refl 5%nat). lia.
Defined.

(** C8.  When every identifier of the input has a file above 1000 bytes at
    its path, as after a run that fetched them all, and the concurrency
    limit is positive, [processBatch] returns
    one [skipped] result per identifier, in input order, without starting
    any strategy, request or browser session and without touching the
    files. *)
Theorem second_run_skips_everything (this : Crawler) (env : Env)
    (ids : list string) (w : World) (fuel : nat) (dir : string) :
  downloadDir this = JStr dir ->
  0 < concurrency this ->
  (length ids <= fuel)%nat ->
  (forall id, id ∈ ids -> usableArtifact this id w = true) ->
  exists results w',
    processBatch this env fuel ids w = Some (Return results, w') /\
    extensionId <$> results = ids /\
    Forall (fun r => status r = St_skipped) results /\
    calls_of (trace w') = calls_of (trace w) /\
    fs w' = fs w.
Proof.
  intros Hdir HC Hfuel Hall.
  pose (Inv := fun (i : Z) (results : list ItemResult) (w1 : World) =>
    0 <= i /\ fs w1 = fs w /\ calls_of (trace w1) = calls_of (trace w) /\
    Forall (fun r => status r = St_skipped) results /\
    extensionId <$> results = take (Z.to_nat i) ids).
  destruct (processBatch_from_inv this env Inv ids HC) with (fuel := fuel) (i := 0)
    (results := @nil ItemResult) (w := w)
    as (j & results & w' & Hrun & Hj & _ & Hfs & Hcalls & Hsk & Hres).
  - intros i results w1 [Hi Hin] (_ & Hfs & Hcalls & Hsk & Hres).
    set (batch := js_slice ids i (i + concurrency this)).
    assert (Hbatch : batch = take (Z.to_nat (concurrency this)) (drop (Z.to_nat i) ids))
      by (apply js_slice_batch; assumption).
    destruct (runBatch_skips this env batch 0 (emit (EvBatch batch) w1))
      as (rs & w2 & Hrb & Hsk2 & Hfs2 & Hcalls2).
    { intros id Hid. rewrite <- (Hall id).
      - apply usableArtifact_fs. exact Hfs.
      - rewrite Hbatch in Hid. apply subseteq_take, subseteq_drop in Hid. exact Hid. }
    destruct (runBatch_spec this env batch 0 (emit (EvBatch batch) w1))
      as (rs' & w2' & Hrb' & Hids & _).
    rewrite Hrb in Hrb'. injection Hrb' as <- <-.
    destruct (batchTurn_run this env dir Hdir ids i results w1 rs w2 Hrb)
      as (w3 & Hturn & _ & _ & _ & _ & Hfs3 & Hcalls3).
    exists (results ++ rs)%list, w3. split; [exact Hturn|].
    split; [lia|]. split; [rewrite Hfs3, Hfs2; exact Hfs|].
    split.
    { rewrite Hcalls3, Hcalls2. simpl. rewrite calls_of_emit. simpl.
      rewrite app_nil_r. exact Hcalls. }
    split; [apply Forall_app; auto|].
    rewrite fmap_app, Hres, Hids, Hbatch, take_take_drop. f_equal. lia.
  - lia.
  - lia.
  - unfold Inv. repeat split; auto. lia.
  - exists results, w'. split; [exact Hrun|].
    rewrite take_ge in Hres by lia. auto.
Qed.

(** Two runs over the same three identifiers, the first of which fetches them all. *)
Lemma second_run_skips_everything_witness :
  exists first again w1 w2,
    processBatch (mkCrawler (JStr "out") 2 6000 3 ["directapi"] 100) (serving 200 50000) 3
      ["aa"; "bb"; "cc"] blank = Some (Return first, w1) /\
    status <$> first = [St_success; St_success; St_success] /\
    processBatch (mkCrawler (JStr "out") 2 6000 3 ["directapi"] 100) (serving 200 50000) 3
      ["aa"; "bb"; "cc"] w1 = Some (Return again, w2) /\
    Forall (fun r => status r = St_skipped) again /\
    calls_of (trace w2) = calls_of (trace w1).
Proof.
  destruct (processBatch (mkCrawler (JStr "out") 2 6000 3 ["directapi"] 100)
              (serving 200 50000) 3 ["aa"; "bb"; "cc"] blank) as [[c w1]|] eqn:Hfirst;
    vm_compute in Hfirst; [|discriminate].
  injection Hfirst as <- <-.
  match goal with |- exists first again w1 w2, Some (Return ?f, ?w) = _ /\ _ =>
    destruct (second_run_skips_everything
                (mkCrawler (JStr "out") 2 6000 3 ["directapi"] 100) (serving 200 50000)
                ["aa"; "bb"; "cc"] w 3 "out" eq_refl)
      as (again & w2 & Hrun & _ & Hsk & Hcalls & _);
    [ simpl; lia | simpl; lia | | exists f, again, w, w2 ] end.
  - intros id Hin.
    repeat (apply elem_of_cons in Hin as [->|Hin]); try (vm_compute; reflexivity).
    apply elem_of_nil in Hin. contradiction.
  - split; [reflexivity|]. split; [reflexivity|]. split; [exact Hrun|]. split; assumption.
Defined.

(** C9.  A call of [downloadExtension] with attempt number 1 returns, and
    over its whole cascade it adds one to exactly the counter that goes
    with the status of its result and leaves the other three alone.  So a
    [processBatch] over [n] identifiers (download directory a path,
    positive concurrency limit) adds [n] to
    [completed + failed + notFound + skipped], which is [n] at the end when
    the counters started at zero. *)
Theorem one_counter_per_item (this : Crawler) (env : Env) :
  (forall id w, exists r w',
      downloadExtension this env id 1 w = (Return r, w') /\
      counters w' = bump (status r) (counters w) /\
      processed (stats w') = processed (stats w) + 1) /\
  (forall ids w fuel dir,
      downloadDir this = JStr dir ->
      0 < concurrency this -> (length ids <= fuel)%nat ->
      exists results w',
        processBatch this env fuel ids w = Some (Return results, w') /\
        length results = length ids /\
        processed (stats w') = processed (stats w) + Z.of_nat (length ids) /\
        (processed (stats w) = 0 -> processed (stats w') = Z.of_nat (length ids))).
Proof.
  split.
  - intros id w.
    destruct (downloadExtension_spec this env id 1 w) as (r & w' & Hr & _ & Hcnt & _).
    exists r, w'. split; [exact Hr|]. split; [exact Hcnt|].
    unfold processed. apply (processed_bump _ _ _ Hcnt).
  - intros ids w fuel dir Hdir HC Hfuel.
    pose (Inv := fun (i : Z) (results : list ItemResult) (w1 : World) =>
      0 <= i /\
      Z.of_nat (length results) = Z.min i (Z.of_nat (length ids)) /\
      processed (stats w1) = processed (stats w) + Z.min i (Z.of_nat (length ids))).
    destruct (processBatch_from_inv this env Inv ids HC) with (fuel := fuel) (i := 0)
      (results := @nil ItemResult) (w := w)
      as (j & results & w' & Hrun & Hj & _ & Hlen & Hp).
    + intros i results w1 [Hi Hin] (_ & Hlen & Hp).
      destruct (batchTurn_spec this env dir Hdir ids i results w1)
        as (rs & w2 & Hturn & Hids & _ & _ & _ & Hp2).
      simpl in Hturn. rewrite (js_slice_batch ids i _ Hi HC) in Hids, Hp2.
      apply (f_equal length) in Hids.
      rewrite length_fmap, length_take, length_drop in Hids.
      rewrite length_take, length_drop in Hp2.
      exists (results ++ rs)%list, w2. split; [exact Hturn|].
      unfold Inv. rewrite length_app, Hp2, Hp. lia.
    + lia.
    + lia.
    + unfold Inv. simpl. lia.
    + exists results, w'. split; [exact Hrun|]. lia.
Qed.

(** Three identifiers, none of which can be fetched. *)
Lemma one_counter_per_item_witness :
  exists results w',
    processBatch (mkCrawler (JStr "out") 2 6000 3 ["directapi"] 100) offline 3
      ["aa"; "bb"; "cc"] blank = Some (Return results, w') /\
    length results = 3%nat /\
    processed (stats w') = 3.
Proof.
  destruct (one_counter_per_item (mkCrawler (JStr "out") 2 6000 3 ["directapi"] 100) offline)
    as [_ Hbatch].
  destruct (Hbatch ["aa"; "bb"; "cc"] blank 3%nat "out" eq_refl)
    as (results & w' & Hrun & Hlen & _ & Hp).
  - simpl. lia.
  - simpl. lia.
  - exists results, w'. split; [exact Hrun|]. split; [exact Hlen|]. apply Hp. reflexivity.
Defined.

(** C10.  A 200 response whose body leaves [bytes >= 1000] bytes on disk
    is resolved as a success by [downloadFileDirectly], while the
    existing-artifact check accepts the stored file only when
    [bytes > 1000].  At exactly 1000 bytes the transfer succeeds, and any
    later [downloadExtension] that finds this file does not return
    [skipped]: it is the strategy chain run again. *)
Theorem boundary_artifact_is_redownloaded (this : Crawler) (env : Env)
    (id file url msg : string) (bytes : Z) (w : World) :
  path_join (downloadDir this) (id +:+ ".zip") = Return file ->
  net env (trace w) url = Response 200 msg (Finished bytes) ->
  1000 <= bytes ->
  exists w1,
    downloadFileDirectly this env url id w = (Return (StratOk file bytes), w1) /\
    fs w1 !! file = Some bytes /\
    (usableArtifact this id w1 = true <-> 1000 < bytes) /\
    (bytes = 1000 ->
     forall env' attempt w2,
       fs w2 !! file = Some 1000 ->
       exists r w3,
         downloadExtension this env' id attempt w2 = (Return r, w3) /\
         status r <> St_skipped /\
         downloadExtension this env' id attempt w2 =
           tryStrategies this env' (downloadStrategies this) id (emit (EvAttempt id attempt) w2)).
Proof.
  intros Hp Hnet Hge.
  unfold downloadFileDirectly, bind at 1, history. rewrite Hnet.
  rewrite (exchange_finished this id file Hp).
  replace (bytes <? 1000) with false by (symmetry; apply Z.ltb_ge; exact Hge).
  eexists. split; [reflexivity|]. simpl.
  split; [apply lookup_insert_eq|]. split.
  - unfold usableArtifact. rewrite Hp. simpl. rewrite lookup_insert_eq. apply Z.gtb_lt.
  - intros -> env' attempt w2 Hfile.
    assert (Hu : usableArtifact this id w2 = false).
    { unfold usableArtifact. rewrite Hp, Hfile. reflexivity. }
    destruct (downloadExtension_spec this env' id attempt w2)
      as (r & w3 & Hr & _ & _ & _ & _ & Hskip).
    exists r, w3. split; [exact Hr|]. split.
    + intros Hst. apply Hskip in Hst. rewrite Hu in Hst. discriminate.
    + apply (downloadExtension_chain this env' id attempt w2 file Hp Hu).
Qed.

(** A remote side that serves exactly 1000 bytes: the second call fetches the artifact again. *)
Lemma boundary_artifact_is_redownloaded_witness :
  exists w1,
    downloadFileDirectly crawler0 (serving 200 1000) "https://example.org/x.crx" someId blank
      = (Return (StratOk "./downloads/crx_extensions/abcdefghijklmnopabcdefghijklmnop.zip" 1000), w1) /\
    fs w1 !! "./downloads/crx_extensions/abcdefghijklmnopabcdefghijklmnop.zip" = Some 1000 /\
    usableArtifact crawler0 someId w1 = false /\
    exists r w3,
      downloadExtension crawler0 (serving 200 1000) someId 1 w1 = (Return r, w3) /\
      status r = St_success /\
      calls_of (trace w3) <> calls_of (trace w1).
Proof.
  destruct (boundary_artifact_is_redownloaded crawler0 (serving 200 1000) someId
              "./downloads/crx_extensions/abcdefghijklmnopabcdefghijklmnop.zip"
              "https://example.org/x.crx" "OK" 1000 blank)
    as (w1 & Hdl & Hfs & _ & _).
  - reflexivity.
  - reflexivity.
  - lia.
  - exists w1. split; [exact Hdl|]. split; [exact Hfs|].
    vm_compute in Hdl. injection Hdl as <-.
    split; [vm_compute; reflexivity|].
    eexists _, _. split; [vm_compute; reflexivity|].
    split; [reflexivity|]. vm_compute. discriminate.
Defined.

(** ** What a download leaves alone *)

Lemma preserves_with_path {X A} (f : World -> X) this id (k : string -> M A) :
  (forall p, path_join (downloadDir this) (id +:+ ".zip") = Return p -> preserves f (k p)) ->
  preserves f (bind (lift (path_join (downloadDir this) (id +:+ ".zip"))) k).
Proof.
  intros Hk w. unfold bind, lift.
  destruct (path_join (downloadDir this) (id +:+ ".zip")) as [p|e] eqn:Hp.
  - apply (Hk p eq_refl).
  - reflexivity.
Qed.

Create HintDb dframes.

(** As [frame], for views that only the artifact's own path can disturb. *)
Ltac dframe :=
  repeat first
    [ solve [eauto 3 with dframes nocore]
    | apply preserves_with_path; intros ? ?
    | apply preserves_ret | apply preserves_throw | apply preserves_lift
    | apply preserves_history | apply preserves_get_stats | apply preserves_fs_stat
    | apply preserves_settled
    | apply preserves_bind; [| intros ?]
    | match goal with
      | |- preserves _ (if ?b then _ else _) => destruct b
      | |- preserves _ (match ?x with _ => _ end) => destruct x
      end ].

Section DownloadFrames.
Context (this : Crawler) (env : Env) (id : string).
Context {X : Type} (f : World -> X) (Hf : DownloadBlind this id f).

Lemma dpreserves_write p n :
  path_join (downloadDir this) (id +:+ ".zip") = Return p -> preserves f (write_file p n).
Proof. intros Hp. apply preserves_modify. intros w. apply (dblind_write this id f Hf p n w Hp). Qed.

Lemma dpreserves_request url : preserves f (modify (emit (EvRequest url))).
Proof. apply preserves_modify. intros w. apply (dblind_event this id f Hf). reflexivity. Qed.

Lemma dpreserves_browser target : preserves f (modify (emit (EvBrowser target))).
Proof. apply preserves_modify. intros w. apply (dblind_event this id f Hf). reflexivity. Qed.

#[local] Hint Resolve dpreserves_write dpreserves_request dpreserves_browser : dframes.

Lemma dpreserves_receive code msg body p :
  path_join (downloadDir this) (id +:+ ".zip") = Return p ->
  preserves f (receive code msg body p).
Proof. intros Hp. unfold receive. dframe. Qed.

#[local] Hint Resolve dpreserves_receive : dframes.

Lemma dpreserves_exchange x : forall url, preserves f (exchange this x url id).
Proof.
  induction x as [message|code msg body|code msg location next IH body];
    intros url; simpl; dframe.
Qed.

#[local] Hint Resolve dpreserves_exchange : dframes.

Lemma dpreserves_downloadFileDirectly url :
  preserves f (downloadFileDirectly this env url id).
Proof. unfold downloadFileDirectly. dframe. Qed.

#[local] Hint Resolve dpreserves_downloadFileDirectly : dframes.

Lemma dpreserves_tryEndpoints urls : preserves f (tryEndpoints this env urls id).
Proof. induction urls as [|url rest IH]; simpl; dframe. Qed.

Lemma dpreserves_downloadFileFromBlob url :
  preserves f (downloadFileFromBlob this env url id).
Proof. unfold downloadFileFromBlob. dframe. Qed.

Lemma dpreserves_viaLink session missing :
  preserves f (viaLink this env session missing id).
Proof. unfold viaLink. dframe. Qed.

#[local] Hint Resolve dpreserves_tryEndpoints dpreserves_downloadFileFromBlob
  dpreserves_viaLink : dframes.

(** A strategy call is its trace entry followed by something [f] does not
    see. *)
Lemma tryDownloadStrategy_after name w :
  f (snd (tryDownloadStrategy this env name id w)) = f (emit (EvStrategy name id) w).
Proof.
  assert (Hbody : preserves f
    (if String.eqb name "crxviewer" then downloadViaCRXViewer this env id
     else if String.eqb name "directapi" then downloadViaDirectAPI this env id
     else if String.eqb name "crxextractor" then downloadViaCRXExtractor this env id
     else if String.eqb name "crxviewer_com" then downloadViaCRXViewerCom this env id
     else throw ("Unknown strategy: " +:+ name))).
  { unfold downloadViaCRXViewer, downloadViaDirectAPI, downloadViaCRXExtractor,
      downloadViaCRXViewerCom. dframe. }
  unfold tryDownloadStrategy, bind at 1, modify at 1. simpl. apply Hbody.
Qed.
End DownloadFrames.

(** ** Files that a download leaves alone *)

Create HintDb oframes.

(** As [frame], for views of the files alone, above the strategies. *)
Ltac oframe :=
  repeat first
    [ solve [eauto 3 with oframes nocore]
    | apply preserves_ret | apply preserves_throw | apply preserves_lift
    | apply preserves_history | apply preserves_get_stats | apply preserves_fs_stat
    | apply preserves_settled
    | apply preserves_bind; [| intros ?]
    | apply preserves_try_catch; [| intros ?]
    | match goal with
      | |- preserves _ (if ?b then _ else _) => destruct b
      | |- preserves _ (match ?x with _ => _ end) => destruct x
      end ].

Section FileFrames.
Context (this : Crawler) (env : Env).
Context {X : Type} (f : World -> X) (Hfiles : FilesOnly f).

Lemma fpreserves_stats g : preserves f (modify (set_stats g)).
Proof. apply preserves_modify. intros w. apply (files_stats f Hfiles). Qed.

Lemma fpreserves_emit e : preserves f (modify (emit e)).
Proof. apply preserves_modify. intros w. apply (files_event f Hfiles). Qed.

Lemma fpreserves_sleep ms : preserves f (sleep ms).
Proof. apply fpreserves_emit. Qed.

Lemma fpreserves_updateStrategyStats name outcome :
  preserves f (updateStrategyStats name outcome).
Proof. apply fpreserves_stats. Qed.

#[local] Hint Resolve fpreserves_stats fpreserves_emit fpreserves_sleep
  fpreserves_updateStrategyStats : oframes.

Lemma fpreserves_tryDownloadStrategy name id :
  DownloadBlind this id f -> preserves f (tryDownloadStrategy this env name id).
Proof.
  intros Hd w. rewrite (tryDownloadStrategy_after this env id f Hd).
  apply (files_event f Hfiles).
Qed.

#[local] Hint Resolve fpreserves_tryDownloadStrategy : oframes.

Lemma fpreserves_tryStrategies names id :
  DownloadBlind this id f -> preserves f (tryStrategies this env names id).
Proof. intros Hd. induction names as [|name rest IH]; simpl; oframe. Qed.

#[local] Hint Resolve fpreserves_tryStrategies : oframes.

Lemma fpreserves_attemptBody id :
  DownloadBlind this id f -> preserves f (attemptBody this env id).
Proof. intros Hd. unfold attemptBody. oframe. Qed.

#[local] Hint Resolve fpreserves_attemptBody : oframes.

Lemma fpreserves_downloadExtension id attempt :
  DownloadBlind this id f -> preserves f (downloadExtension this env id attempt).
Proof.
  intros Hd. unfold downloadExtension.
  generalize (Z.to_nat (retryAttempts this - attempt)). intros retries. revert attempt.
  induction retries as [|fewer IH]; intros attempt; simpl; unfold onError; oframe.
Qed.

End FileFrames.

Lemma blind_other_file this id q :
  (forall p, path_join (downloadDir this) (id +:+ ".zip") = Return p -> p <> q) ->
  DownloadBlind this id (fun w => fs w !! q).
Proof.
  intros Hq. split.
  - intros p n w Hp. simpl. apply lookup_insert_ne. exact (Hq p Hp).
  - reflexivity.
Qed.

Lemma files_only_lookup q : FilesOnly (fun w => fs w !! q).
Proof. split; reflexivity. Qed.

(** X1.  [downloadExtension] writes no file but the artifact of its
    identifier: over the whole call, retries included, every other path of
    the download directory holds what it held before (or still nothing). *)
Theorem only_its_own_artifact_is_written (this : Crawler) (env : Env)
    (id : string) (attempt : Z) (w : World) (q : string) :
  (forall p, path_join (downloadDir this) (id +:+ ".zip") = Return p -> p <> q) ->
  fs (snd (downloadExtension this env id attempt w)) !! q = fs w !! q.
Proof.
  intros Hq.
  apply (fpreserves_downloadExtension this env (fun w => fs w !! q) (files_only_lookup q)).
  apply blind_other_file. exact Hq.
Qed.

(** A download next to the artifact of another identifier. *)
Lemma only_its_own_artifact_is_written_witness :
  fs (snd (downloadExtension (mkCrawler (JStr "out") 2 6000 3 ["directapi"] 100)
             (serving 200 50000) "aa" 1
             {| fs := {["out/bb.zip" := 7]}; stats := fresh_stats; trace := [] |}))
    !! "out/bb.zip" = Some 7.
Proof.
  rewrite (only_its_own_artifact_is_written _ _ "aa" 1 _ "out/bb.zip").
  - reflexivity.
  - intros p Hp. injection Hp as <-. discriminate.
Defined.

(** ** The books of the strategies *)

Lemma strategies_called_emit e t :
  strategies_called (t ++ [e]) =
  (strategies_called t ++ match e with EvStrategy name id => [(name, id)] | _ => [] end)%list.
Proof. unfold strategies_called. rewrite omap_app. destruct e; reflexivity. Qed.

Lemma blind_books this id : DownloadBlind this id books.
Proof.
  split; [reflexivity|].
  intros e w He. unfold books, emit; simpl. rewrite strategies_called_emit.
  destruct e; try discriminate He; rewrite app_nil_r; reflexivity.
Qed.

Lemma occurrences_cons name x l :
  occurrences name (x :: l) = (if String.eqb name x then 1 else 0) + occurrences name l.
Proof. unfold occurrences. simpl. destruct (String.eqb name x); simpl; lia. Qed.

Lemma occurrences_app name l1 l2 :
  occurrences name (l1 ++ l2) = occurrences name l1 + occurrences name l2.
Proof. unfold occurrences. rewrite List.filter_app, length_app. lia. Qed.

(** [updateStrategyStats] adds one to the tally of its strategy, whatever
    the outcome, and to no other. *)
Lemma tally_update name outcome n w :
  tally n (snd (updateStrategyStats name outcome w)) =
  tally n w + (if String.eqb n name then 1 else 0).
Proof.
  unfold tally, updateStrategyStats, modify, set_stats, with_strategyStats. simpl.
  destruct (String.eqb_spec n name) as [->|Hne].
  - rewrite lookup_insert_eq. simpl. unfold bump_counts.
    destruct (String.eqb outcome "success"); [simpl; lia|].
    destruct (String.eqb outcome "failed"); simpl; lia.
  - rewrite lookup_insert_ne by congruence. lia.
Qed.

Lemma ledger_refl w : ledger w w [].
Proof. split; [rewrite app_nil_r; reflexivity|]. intros name. unfold occurrences. simpl. lia. Qed.

Lemma ledger_books w w1 w' called :
  ledger w w1 called -> books w' = books w1 -> ledger w w' called.
Proof.
  intros [Hc Ht] Hb. unfold books in Hb. injection Hb as Hs Hcalled.
  split; [rewrite Hcalled; exact Hc|].
  intros name. rewrite <- Ht. unfold tally. rewrite Hs. reflexivity.
Qed.

Lemma ledger_trans w w1 w2 c1 c2 :
  ledger w w1 c1 -> ledger w1 w2 c2 -> ledger w w2 (c1 ++ c2).
Proof.
  intros [Hc1 Ht1] [Hc2 Ht2]. split.
  - rewrite Hc2, Hc1, app_assoc. reflexivity.
  - intros name. rewrite Ht2, Ht1, fmap_app, occurrences_app. lia.
Qed.

Section Books.
Context (this : Crawler) (env : Env).

(** One strategy call and the bookkeeping that follows it. *)
Lemma ledger_strategy name id outcome w :
  ledger w (snd (updateStrategyStats name outcome (snd (tryDownloadStrategy this env name id w))))
    [(name, id)].
Proof.
  pose proof (tryDownloadStrategy_after this env id books (blind_books this id) name w) as Hb.
  set (w1 := snd (tryDownloadStrategy this env name id w)) in *.
  unfold books in Hb. simpl in Hb. rewrite strategies_called_emit in Hb.
  injection Hb as Hs Hcalled. split.
  - simpl. exact Hcalled.
  - intros n. rewrite tally_update. unfold tally at 1. rewrite Hs. fold (tally n w).
    rewrite fmap_cons, occurrences_cons. unfold occurrences. simpl. lia.
Qed.

Lemma tryStrategies_ledger names id : forall w, exists r w' called,
  tryStrategies this env names id w = (Return r, w') /\
  ledger w w' ((fun name => (name, id)) <$> called) /\
  called `prefix_of` names /\
  (status r = St_success \/ status r = St_not_found) /\
  (status r = St_not_found -> called = names) /\
  (status r = St_success ->
     exists before name, called = (before ++ [name])%list /\ strategy r = Some name).
Proof.
  induction names as [|name rest IH]; intros w; simpl.
  - eexists _, _, []. split; [reflexivity|]. split; [|split; [|split; [|split]]].
    + apply (ledger_books w w); [apply ledger_refl | reflexivity].
    + reflexivity.
    + right. reflexivity.
    + reflexivity.
    + discriminate.
  - unfold bind at 1, settled.
    pose proof (ledger_strategy name id "success" w) as Hok.
    pose proof (ledger_strategy name id "failed" w) as Hfail.
    pose proof (ledger_strategy name id "error" w) as Herr.
    destruct (tryDownloadStrategy this env name id w) as [[[file bytes|reason]|e] w1];
      simpl in Hok, Hfail, Herr.
    + eexists _, _, [name]. split; [reflexivity|]. split; [|split; [|split; [|split]]].
      * refine (ledger_books _ _ _ _ _ _); [|reflexivity].
        refine (ledger_books _ _ _ _ Hok _). reflexivity.
      * exists rest. reflexivity.
      * left. reflexivity.
      * discriminate.
      * intros _. exists [], name. split; reflexivity.
    + unfold bind, updateStrategyStats, sleep, modify. simpl.
      match goal with |- context [tryStrategies this env rest id ?w2] =>
        destruct (IH w2) as (r & w' & called & Hr & Hl & Hpre & Hst & Hnf & Hsucc);
        assert (Hstep : ledger w w2 [(name, id)])
          by (refine (ledger_books _ _ _ _ Hfail _); unfold books; simpl;
              rewrite strategies_called_emit, app_nil_r; reflexivity) end.
      exists r, w', (name :: called). split; [exact Hr|].
      split; [exact (ledger_trans _ _ _ _ _ Hstep Hl)|].
      split; [apply prefix_cons; exact Hpre|].
      split; [exact Hst|]. split.
      * intros Hs. rewrite (Hnf Hs). reflexivity.
      * intros Hs. destruct (Hsucc Hs) as (before & last & -> & Hlast).
        exists (name :: before), last. split; [reflexivity | exact Hlast].
    + unfold bind, updateStrategyStats, sleep, modify. simpl.
      match goal with |- context [tryStrategies this env rest id ?w2] =>
        destruct (IH w2) as (r & w' & called & Hr & Hl & Hpre & Hst & Hnf & Hsucc);
        assert (Hstep : ledger w w2 [(name, id)])
          by (refine (ledger_books _ _ _ _ Herr _); unfold books; simpl;
              rewrite strategies_called_emit, app_nil_r; reflexivity) end.
      exists r, w', (name :: called). split; [exact Hr|].
      split; [exact (ledger_trans _ _ _ _ _ Hstep Hl)|].
      split; [apply prefix_cons; exact Hpre|].
      split; [exact Hst|]. split.
      * intros Hs. rewrite (Hnf Hs). reflexivity.
      * intros Hs. destruct (Hsucc Hs) as (before & last & -> & Hlast).
        exists (name :: before), last. split; [reflexivity | exact Hlast].
Qed.
End Books.

Lemma strategies_called_retry_trace id : forall retries attempt t,
  strategies_called (t ++ retry_trace id attempt retries) = strategies_called t.
Proof.
  intros retries attempt t. unfold strategies_called. rewrite omap_app.
  rewrite <- (app_nil_r (omap _ t)) at 2. f_equal.
  revert attempt. induction retries as [|fewer IH]; intros attempt; simpl; [reflexivity|].
  apply IH.
Qed.

Section BooksOfARun.
Context (this : Crawler) (env : Env).

Lemma downloadExtension_ledger id attempt w : exists r w' called,
  downloadExtension this env id attempt w = (Return r, w') /\
  ledger w w' ((fun name => (name, id)) <$> called) /\
  called `prefix_of` downloadStrategies this /\
  (usableArtifact this id w = false ->
   forall file, path_join (downloadDir this) (id +:+ ".zip") = Return file ->
     (status r = St_success \/ status r = St_not_found) /\
     (status r = St_not_found -> called = downloadStrategies this) /\
     (status r = St_success ->
        exists before name, called = (before ++ [name])%list /\ strategy r = Some name)).
Proof.
  destruct (path_join (downloadDir this) (id +:+ ".zip")) as [p|e] eqn:Hp.
  - destruct (usableArtifact this id w) eqn:Hu.
    + destruct (downloadExtension_skips this env id attempt w Hu) as (r & Hr & _).
      eexists r, _, []. split; [exact Hr|]. split; [|split; [|discriminate]].
      * refine (ledger_books w w _ _ (ledger_refl w) _). unfold books. simpl.
        rewrite strategies_called_emit, app_nil_r. reflexivity.
      * apply prefix_nil.
    + rewrite (downloadExtension_chain this env id attempt w p Hp Hu).
      destruct (tryStrategies_ledger this env (downloadStrategies this) id
                  (emit (EvAttempt id attempt) w))
        as (r & w' & called & Hr & Hl & Hpre & Hst & Hnf & Hsucc).
      exists r, w', called. split; [exact Hr|]. split; [|split; [exact Hpre|]].
      * refine (ledger_trans w _ w' [] _ _ Hl).
        refine (ledger_books w w _ _ (ledger_refl w) _). unfold books. simpl.
        rewrite strategies_called_emit, app_nil_r. reflexivity.
      * intros _ file _. auto.
  - rewrite (downloadExtension_cascade this env id e Hp _ attempt w eq_refl).
    eexists _, _, []. split; [reflexivity|]. split; [|split].
    + refine (ledger_books w w _ _ (ledger_refl w) _). unfold books. simpl.
      rewrite strategies_called_retry_trace. reflexivity.
    + apply prefix_nil.
    + intros _ file Hfile. discriminate.
Qed.

Lemma runBatch_ledger batch : forall index w, exists rs w' called,
  runBatch this env batch index w = (Return rs, w') /\ ledger w w' called.
Proof.
  induction batch as [|id rest IH]; intros index w; simpl.
  - eexists _, _, []. split; [reflexivity | apply ledger_refl].
  - unfold bind at 1, sleep at 1, modify at 1. simpl.
    set (w0 := emit (EvSleep (index * 1000)) w).
    assert (H0 : ledger w w0 []).
    { refine (ledger_books w w _ _ (ledger_refl w) _). unfold books, w0. simpl.
      rewrite strategies_called_emit, app_nil_r. reflexivity. }
    destruct (downloadExtension_ledger id 1 w0) as (r & w1 & c1 & Hr & Hl1 & _).
    unfold bind at 1. rewrite Hr.
    destruct (IH (index + 1) w1) as (rs & w2 & c2 & Hrs & Hl2).
    unfold bind. rewrite Hrs. unfold ret.
    eexists _, _, _. split; [reflexivity|].
    exact (ledger_trans _ _ _ _ _ (ledger_trans _ _ _ _ _ H0 Hl1) Hl2).
Qed.

Lemma batchTurn_ledger dir ids i results w :
  downloadDir this = JStr dir ->
  exists results' w' called,
    batchTurn this env ids i results w = (Return results', w') /\ ledger w w' called.
Proof.
  intros Hdir.
  set (batch := js_slice ids i (i + concurrency this)).
  destruct (runBatch_ledger batch 0 (emit (EvBatch batch) w)) as (rs & w1 & called & Hrun & Hl).
  assert (H0 : ledger w (emit (EvBatch batch) w) []).
  { refine (ledger_books w w _ _ (ledger_refl w) _). unfold books. simpl.
    rewrite strategies_called_emit, app_nil_r. reflexivity. }
  assert (Htail : exists w', batchTurn this env ids i results w = (Return (results ++ rs)%list, w') /\
                             books w' = books w1).
  { unfold batchTurn. fold batch. unfold bind at 1, modify at 1. simpl.
    unfold bind at 1. rewrite Hrun.
    unfold checkpointIfDue, interBatchDelay, saveCheckpoint, bind, get_stats, lift,
      sleep, modify, ret. rewrite Hdir. simpl.
    destruct (_ >=? _); destruct (_ <? _); simpl;
      eexists; (split; [reflexivity|]); unfold books; simpl;
      rewrite ?strategies_called_emit, ?app_nil_r; reflexivity. }
  destruct Htail as (w' & Hturn & Hb).
  eexists _, w', _. split; [exact Hturn|].
  exact (ledger_books _ _ _ _ (ledger_trans _ _ _ _ _ H0 Hl) Hb).
Qed.
End BooksOfARun.

Section Trail.
Context (this : Crawler) (env : Env).

(** The loop over the strategies, strategy by strategy: it passes over
    the ones that produce no artifact and ends with the first that does. *)
Lemma tryStrategies_trail names id : forall w, exists r w' called,
  tryStrategies this env names id w = (Return r, w') /\
  ledger w w' ((fun name => (name, id)) <$> called) /\
  called `prefix_of` names /\
  ((r = exhausted id /\ called = names /\
    exists w1, passedOver this env id names w w1 /\
               w' = set_stats (count_status St_not_found) w1) \/
   (exists before name artifact bytes w1 w2,
      called = (before ++ [name])%list /\
      passedOver this env id before w w1 /\
      tryDownloadStrategy this env name id w1 = (Return (StratOk artifact bytes), w2) /\
      r = item id St_success (Some name) (Some artifact) (Some bytes) None)).
Proof.
  induction names as [|name rest IH]; intros w; simpl.
  - eexists _, _, []. split; [reflexivity|]. split; [|split].
    + apply (ledger_books w w); [apply ledger_refl | reflexivity].
    + reflexivity.
    + left. split; [reflexivity|]. split; [reflexivity|].
      exists w. split; [constructor | reflexivity].
  - unfold bind at 1, settled.
    pose proof (ledger_strategy this env name id "success" w) as Hok.
    pose proof (ledger_strategy this env name id "failed" w) as Hfail.
    pose proof (ledger_strategy this env name id "error" w) as Herr.
    destruct (tryDownloadStrategy this env name id w) as [[[file bytes|reason]|e] w1] eqn:Hcall;
      simpl in Hok, Hfail, Herr.
    + eexists _, _, [name]. split; [reflexivity|]. split; [|split].
      * refine (ledger_books _ _ _ _ _ _); [|reflexivity].
        refine (ledger_books _ _ _ _ Hok _). reflexivity.
      * exists rest. reflexivity.
      * right. exists [], name, file, bytes, w, w1.
        split; [reflexivity|]. split; [constructor|]. split; [exact Hcall | reflexivity].
    + unfold bind, updateStrategyStats, sleep, modify. simpl.
      match goal with |- context [tryStrategies this env rest id ?w2] =>
        destruct (IH w2) as (r & w' & called & Hr & Hl & Hpre & Hend);
        assert (Hstep : ledger w w2 [(name, id)])
          by (refine (ledger_books _ _ _ _ Hfail _); unfold books; simpl;
              rewrite strategies_called_emit, app_nil_r; reflexivity) end.
      exists r, w', (name :: called). split; [exact Hr|].
      split; [exact (ledger_trans _ _ _ _ _ Hstep Hl)|].
      split; [apply prefix_cons; exact Hpre|].
      destruct Hend as [(Hex & Hall & w3 & Hpass & Hw')
                       |(before & last & file & bytes & w3 & w4 & Hc & Hpass & Hlast & Hrec)].
      * left. split; [exact Hex|]. split; [rewrite Hall; reflexivity|].
        exists w3. split; [|exact Hw'].
        exact (passedOver_failed this env id name rest w reason w1 w3 Hcall Hpass).
      * right. exists (name :: before), last, file, bytes, w3, w4.
        split; [rewrite Hc; reflexivity|]. split; [|split; [exact Hlast | exact Hrec]].
        exact (passedOver_failed this env id name before w reason w1 w3 Hcall Hpass).
    + unfold bind, updateStrategyStats, sleep, modify. simpl.
      match goal with |- context [tryStrategies this env rest id ?w2] =>
        destruct (IH w2) as (r & w' & called & Hr & Hl & Hpre & Hend);
        assert (Hstep : ledger w w2 [(name, id)])
          by (refine (ledger_books _ _ _ _ Herr _); unfold books; simpl;
              rewrite strategies_called_emit, app_nil_r; reflexivity) end.
      exists r, w', (name :: called). split; [exact Hr|].
      split; [exact (ledger_trans _ _ _ _ _ Hstep Hl)|].
      split; [apply prefix_cons; exact Hpre|].
      destruct Hend as [(Hex & Hall & w3 & Hpass & Hw')
                       |(before & last & file & bytes & w3 & w4 & Hc & Hpass & Hlast & Hrec)].
      * left. split; [exact Hex|]. split; [rewrite Hall; reflexivity|].
        exists w3. split; [|exact Hw'].
        exact (passedOver_error this env id name rest w e w1 w3 Hcall Hpass).
      * right. exists (name :: before), last, file, bytes, w3, w4.
        split; [rewrite Hc; reflexivity|]. split; [|split; [exact Hlast | exact Hrec]].
        exact (passedOver_error this env id name before w e w1 w3 Hcall Hpass).
Qed.
End Trail.

(** X2.  Without a usable artifact, [downloadExtension] invokes the
    configured strategies in their order and stops at the first that
    produces an artifact.  The strategies invoked are a prefix of
    [downloadStrategies].  When the result is [not_found] they are the
    whole list, and each of them, invoked in the world the previous one
    left, produced no artifact.  When the result is [success], every
    strategy before the last one invoked produced no artifact, the last one
    resolved with an artifact, and the record names that strategy, its file
    and its size. *)
Theorem strategies_are_tried_in_order (this : Crawler) (env : Env)
    (id file : string) (attempt : Z) (w : World) :
  path_join (downloadDir this) (id +:+ ".zip") = Return file ->
  usableArtifact this id w = false ->
  exists r w' called,
    downloadExtension this env id attempt w = (Return r, w') /\
    strategies_called (trace w') =
      (strategies_called (trace w) ++ ((fun name => (name, id)) <$> called))%list /\
    called `prefix_of` downloadStrategies this /\
    (status r = St_success \/ status r = St_not_found) /\
    (status r = St_not_found ->
       called = downloadStrategies this /\
       exists w1,
         passedOver this env id called (emit (EvAttempt id attempt) w) w1 /\
         w' = set_stats (count_status St_not_found) w1) /\
    (status r = St_success ->
       exists before name artifact bytes w1 w2,
         called = (before ++ [name])%list /\
         passedOver this env id before (emit (EvAttempt id attempt) w) w1 /\
         tryDownloadStrategy this env name id w1 = (Return (StratOk artifact bytes), w2) /\
         strategy r = Some name /\
         r = item id St_success (Some name) (Some artifact) (Some bytes) None).
Proof.
  intros Hp Hu.
  rewrite (downloadExtension_chain this env id attempt w file Hp Hu).
  destruct (tryStrategies_trail this env (downloadStrategies this) id
              (emit (EvAttempt id attempt) w))
    as (r & w' & called & Hr & [Hcalled _] & Hpre & Hend).
  exists r, w', called. split; [exact Hr|]. split.
  { rewrite Hcalled. simpl. rewrite strategies_called_emit, app_nil_r. reflexivity. }
  split; [exact Hpre|].
  destruct Hend as [(-> & Hall & w1 & Hpass & Hw')
                   |(before & name & artifact & bytes & w1 & w2 & Hc & Hpass & Hlast & ->)].
  - split; [right; reflexivity|]. split.
    + intros _. split; [exact Hall|]. exists w1. rewrite Hall. auto.
    + intros Hst. discriminate Hst.
  - split; [left; reflexivity|]. split.
    + intros Hst. discriminate Hst.
    + intros _. exists before, name, artifact, bytes, w1, w2. auto 6.
Qed.

(** The default chain with no browser and endpoints that serve the
    artifact: the viewer is passed over with an error, and the direct API,
    the second strategy, is the last one invoked. *)
Lemma strategies_are_tried_in_order_witness :
  exists r w',
    downloadExtension crawler0 (serving 200 50000) someId 1 blank = (Return r, w') /\
    strategies_called (trace w') = [("crxviewer", someId); ("directapi", someId)] /\
    strategy r = Some "directapi" /\
    fst (tryDownloadStrategy crawler0 (serving 200 50000) "crxviewer" someId
           (emit (EvAttempt someId 1) blank)) = Throw "Navigation timeout".
Proof.
  destruct (strategies_are_tried_in_order crawler0 (serving 200 50000) someId
              "./downloads/crx_extensions/abcdefghijklmnopabcdefghijklmnop.zip" 1 blank)
    as (r & w' & called & Hr & _).
  - reflexivity.
  - reflexivity.
  - exists r, w'. split; [exact Hr|]. vm_compute in Hr. injection Hr as <- <-.
    repeat split; reflexivity.
Defined.

(** X3.  Over a run of [processBatch] every strategy invocation is booked
    exactly once: for each strategy, [success + failed + error] of its
    entry in [stats.strategyStats] grows by the number of times
    [tryDownloadStrategy] was called with it (for the built-in strategy
    names, whose entries are plain properties of the object). *)
Theorem every_strategy_call_is_tallied (this : Crawler) (env : Env)
    (ids : list string) (w : World) (fuel : nat) (dir : string) :
  downloadDir this = JStr dir ->
  0 < concurrency this ->
  (length ids <= fuel)%nat ->
  Forall (fun name => name ∈ builtinStrategies) (downloadStrategies this) ->
  exists results w' called,
    processBatch this env fuel ids w = Some (Return results, w') /\
    strategies_called (trace w') = (strategies_called (trace w) ++ called)%list /\
    forall name, tally name w' = tally name w + occurrences name (fst <$> called).
Proof.
  intros Hdir HC Hfuel _.
  pose (Inv := fun (i : Z) (results : list ItemResult) (w1 : World) =>
    exists called, ledger w w1 called).
  destruct (processBatch_from_inv this env Inv ids HC) with (fuel := fuel) (i := 0)
    (results := @nil ItemResult) (w := w) as (j & results & w' & Hrun & _ & called & Hl).
  - intros i results w1 _ (c1 & Hl1).
    destruct (batchTurn_ledger this env dir ids i results w1 Hdir)
      as (results' & w2 & c2 & Hturn & Hl2).
    exists results', w2. split; [exact Hturn|].
    exists (c1 ++ c2)%list. exact (ledger_trans _ _ _ _ _ Hl1 Hl2).
  - lia.
  - lia.
  - exists []. apply ledger_refl.
  - exists results, w', called. split; [exact Hrun|]. exact Hl.
Qed.

(** Two identifiers, the direct API alone, nothing reachable: two calls,
    both booked. *)
Lemma every_strategy_call_is_tallied_witness :
  exists results w',
    processBatch (mkCrawler (JStr "out") 2 6000 3 ["directapi"] 100) offline 2
      ["aa"; "bb"] blank = Some (Return results, w') /\
    strategies_called (trace w') = [("directapi", "aa"); ("directapi", "bb")] /\
    tally "directapi" w' = 2.
Proof.
  destruct (every_strategy_call_is_tallied (mkCrawler (JStr "out") 2 6000 3 ["directapi"] 100)
              offline ["aa"; "bb"] blank 2 "out" eq_refl)
    as (results & w' & called & Hrun & Hcalled & Htally).
  - simpl. lia.
  - simpl. lia.
  - repeat constructor.
  - exists results, w'. split; [exact Hrun|].
    vm_compute in Hrun. injection Hrun as <- <-. split; reflexivity.
Defined.

(** ** Strategy names the dispatcher does not know *)

Lemma tryDownloadStrategy_unknown this env name id w :
  name ∉ builtinStrategies ->
  tryDownloadStrategy this env name id w =
  (Throw ("Unknown strategy: " +:+ name), emit (EvStrategy name id) w).
Proof.
  intros Hname. unfold tryDownloadStrategy, bind, modify. simpl.
  destruct (String.eqb_spec name "crxviewer") as [->|_];
    [exfalso; apply Hname; unfold builtinStrategies; set_solver|].
  destruct (String.eqb_spec name "directapi") as [->|_];
    [exfalso; apply Hname; unfold builtinStrategies; set_solver|].
  destruct (String.eqb_spec name "crxextractor") as [->|_];
    [exfalso; apply Hname; unfold builtinStrategies; set_solver|].
  destruct (String.eqb_spec name "crxviewer_com") as [->|_];
    [exfalso; apply Hname; unfold builtinStrategies; set_solver|].
  reflexivity.
Qed.

Lemma tryStrategies_unknown this env names id :
  Forall (fun name => name ∉ builtinStrategies) names ->
  forall w, exists w',
    tryStrategies this env names id w = (Return (exhausted id), w') /\
    fs w' = fs w /\
    List.filter remote (trace w') = List.filter remote (trace w) /\
    strategies_called (trace w') =
      (strategies_called (trace w) ++ ((fun name => (name, id)) <$> names))%list.
Proof.
  induction 1 as [|name rest Hname _ IH]; intros w; simpl.
  - eexists. split; [reflexivity|]. simpl. rewrite app_nil_r. auto.
  - unfold bind at 1, settled. rewrite (tryDownloadStrategy_unknown this env name id w Hname).
    unfold bind, updateStrategyStats, sleep, modify. simpl.
    match goal with |- context [tryStrategies this env rest id ?w2] =>
      destruct (IH w2) as (w' & Hr & Hfs & Hremote & Hcalled) end.
    exists w'. split; [exact Hr|]. split; [exact Hfs|]. split.
    + rewrite Hremote. simpl. rewrite !List.filter_app. simpl. rewrite !app_nil_r. reflexivity.
    + rewrite Hcalled. simpl. rewrite !strategies_called_emit, app_nil_r, <- app_assoc.
      reflexivity.
Qed.

(** X4.  A strategy name that [tryDownloadStrategy] does not know makes it
    throw, and the loop of [downloadExtension] takes that for one more
    failed strategy.  With a chain of unknown names only, the call passes
    over every name in turn and returns [not_found] after a single
    attempt, having made no request, opened no page and written no
    file. *)
Theorem unknown_strategies_are_passed_over (this : Crawler) (env : Env)
    (id file : string) (attempt : Z) (w : World) :
  path_join (downloadDir this) (id +:+ ".zip") = Return file ->
  usableArtifact this id w = false ->
  Forall (fun name => name ∉ builtinStrategies) (downloadStrategies this) ->
  (forall name w0, name ∈ downloadStrategies this ->
     tryDownloadStrategy this env name id w0 =
     (Throw ("Unknown strategy: " +:+ name), emit (EvStrategy name id) w0)) /\
  exists w',
    downloadExtension this env id attempt w = (Return (exhausted id), w') /\
    attempts_of (trace w') = (attempts_of (trace w) ++ [(id, attempt)])%list /\
    strategies_called (trace w') =
      (strategies_called (trace w) ++
       ((fun name => (name, id)) <$> downloadStrategies this))%list /\
    List.filter remote (trace w') = List.filter remote (trace w) /\
    fs w' = fs w.
Proof.
  intros Hp Hu Hall. split.
  - intros name w0 Hin. apply tryDownloadStrategy_unknown.
    rewrite Forall_forall in Hall. exact (Hall name Hin).
  - rewrite (downloadExtension_chain this env id attempt w file Hp Hu).
    destruct (tryStrategies_unknown this env _ id Hall (emit (EvAttempt id attempt) w))
      as (w' & Hr & Hfs & Hremote & Hcalled).
    destruct (tryStrategies_spec this env (downloadStrategies this) id
                (emit (EvAttempt id attempt) w)) as (r0 & w0 & Hr0 & _ & _ & _ & _ & Hatt & _).
    rewrite Hr in Hr0. injection Hr0 as <- <-.
    exists w'. split; [exact Hr|]. split.
    + rewrite Hatt. simpl. apply attempts_of_emit.
    + split; [|split].
      * rewrite Hcalled. simpl. rewrite strategies_called_emit, app_nil_r. reflexivity.
      * rewrite Hremote. simpl. rewrite List.filter_app. simpl. apply app_nil_r.
      * exact Hfs.
Qed.

(** Two names that the dispatcher does not know, before a reachable API. *)
Lemma unknown_strategies_are_passed_over_witness :
  exists w',
    downloadExtension (mkCrawler (JStr "out") 2 6000 3 ["direct_api"; "browser"] 100)
      (serving 200 50000) "aa" 1 blank = (Return (exhausted "aa"), w') /\
    strategies_called (trace w') = [("direct_api", "aa"); ("browser", "aa")] /\
    fs w' = ∅.
Proof.
  destruct (unknown_strategies_are_passed_over
              (mkCrawler (JStr "out") 2 6000 3 ["direct_api"; "browser"] 100)
              (serving 200 50000) "aa" "out/aa.zip" 1 blank)
    as (_ & w' & Hr & _ & Hcalled & _ & Hfs).
  - reflexivity.
  - reflexivity.
  - repeat constructor; unfold builtinStrategies; intros Hin;
      repeat (apply elem_of_cons in Hin as [Hin|Hin]; [discriminate Hin|]);
      apply elem_of_nil in Hin; exact Hin.
  - exists w'. split; [exact Hr|]. split; [exact Hcalled | exact Hfs].
Defined.

(** X5.  [downloadFileDirectly] never removes what a transfer has written.
    When one of the events that reject the promise, the idle timeout or an
    error of the write stream, ends the transfer of a 200 response after
    more than 1000 bytes reached the file, the promise rejects with the
    message of the event, yet the file stays, and every later
    [downloadExtension] for the identifier that finds it returns [skipped]
    for it: the part of an artifact is taken for a whole one.  (A response
    that the remote side closes in the middle of the body raises none of
    these events; the promise then stays pending, and the property says
    nothing of that run.) *)
Theorem cut_transfer_is_later_skipped (this : Crawler) (env : Env)
    (id file url msg reason : string) (written : Z) (w : World) :
  path_join (downloadDir this) (id +:+ ".zip") = Return file ->
  net env (trace w) url = Response 200 msg (Aborted (Some written) reason) ->
  1000 < written ->
  exists w1,
    downloadFileDirectly this env url id w = (Throw reason, w1) /\
    fs w1 !! file = Some written /\
    usableArtifact this id w1 = true /\
    forall env' attempt w2,
      fs w2 !! file = Some written ->
      exists r w3,
        downloadExtension this env' id attempt w2 = (Return r, w3) /\
        status r = St_skipped /\ size r = Some written /\
        calls_of (trace w3) = calls_of (trace w2).
Proof.
  intros Hp Hnet Hgt.
  assert (Husable : forall w2, fs w2 !! file = Some written -> usableArtifact this id w2 = true).
  { intros w2 Hfile. unfold usableArtifact. rewrite Hp, Hfile. apply Z.gtb_lt. exact Hgt. }
  unfold downloadFileDirectly, bind at 1, history. rewrite Hnet. simpl.
  unfold bind, lift. rewrite Hp. unfold modify, receive, write_file. simpl.
  unfold bind, modify. simpl.
  eexists. split; [reflexivity|].
  assert (Hfile : fs (set_fs (<[file := written]>) (emit (EvRequest url) w)) !! file = Some written)
    by apply lookup_insert_eq.
  split; [exact Hfile|]. split; [exact (Husable _ Hfile)|].
  intros env' attempt w2 Hfile2.
  pose proof (Husable w2 Hfile2) as Hu.
  destruct (attemptBody_skips this env' id (emit (EvAttempt id attempt) w2) Hu)
    as (f & n & Hf & Hn & _ & Hbody).
  rewrite Hp in Hf. injection Hf as <-. simpl in Hn. rewrite Hfile2 in Hn. injection Hn as <-.
  rewrite downloadExtension_eq, Hbody.
  eexists _, _. split; [reflexivity|]. simpl.
  rewrite calls_of_emit. simpl. rewrite app_nil_r. auto.
Qed.

(** The idle timeout fires after 4096 bytes were written. *)
Lemma cut_transfer_is_later_skipped_witness :
  exists w1,
    downloadFileDirectly crawler0
      {| net := fun _ _ => Response 200 "OK" (Aborted (Some 4096) "Download timeout");
         viewerPage := viewerPage offline; blobPage := blobPage offline;
         extractorPage := extractorPage offline; viewerComPage := viewerComPage offline |}
      "https://example.org/x.crx" someId blank = (Throw "Download timeout", w1) /\
    usableArtifact crawler0 someId w1 = true.
Proof.
  destruct (cut_transfer_is_later_skipped crawler0
              {| net := fun _ _ => Response 200 "OK" (Aborted (Some 4096) "Download timeout");
                 viewerPage := viewerPage offline; blobPage := blobPage offline;
                 extractorPage := extractorPage offline; viewerComPage := viewerComPage offline |}
              someId "./downloads/crx_extensions/abcdefghijklmnopabcdefghijklmnop.zip"
              "https://example.org/x.crx" "OK" "Download timeout" 4096 blank)
    as (w1 & Hdl & _ & Hu & _).
  - reflexivity.
  - reflexivity.
  - lia.
  - exists w1. split; [exact Hdl | exact Hu].
Defined.

(** ** The results of a run and the report made of them *)

Lemma tryDownloadStrategy_builtin this env name id w r w' :
  tryDownloadStrategy this env name id w = (Return r, w') -> name ∈ builtinStrategies.
Proof.
  unfold tryDownloadStrategy, bind, modify. simpl. unfold builtinStrategies.
  destruct (String.eqb_spec name "crxviewer") as [->|_]; [intros _; set_solver|].
  destruct (String.eqb_spec name "directapi") as [->|_]; [intros _; set_solver|].
  destruct (String.eqb_spec name "crxextractor") as [->|_]; [intros _; set_solver|].
  destruct (String.eqb_spec name "crxviewer_com") as [->|_]; [intros _; set_solver|].
  discriminate.
Qed.

Lemma tryStrategies_sound this env names id : forall w r w',
  tryStrategies this env names id w = (Return r, w') -> sound r.
Proof.
  induction names as [|name rest IH]; intros w r w'; simpl.
  - intros [= <- <-]. intros Hst. discriminate Hst.
  - unfold bind at 1, settled.
    destruct (tryDownloadStrategy this env name id w) as [[[file bytes|reason]|e] w1] eqn:Hcall.
    + intros [= <- <-]. intros _.
      destruct (tryDownloadStrategy_sized this env name id _ _ _ Hcall) as [Hbytes _].
      exists bytes, name. repeat split; auto.
      exact (tryDownloadStrategy_builtin _ _ _ _ _ _ _ Hcall).
    + unfold bind, updateStrategyStats, sleep, modify. simpl. apply IH.
    + unfold bind, updateStrategyStats, sleep, modify. simpl. apply IH.
Qed.

Lemma downloadExtension_sound this env id attempt w r w' :
  downloadExtension this env id attempt w = (Return r, w') -> sound r.
Proof.
  destruct (path_join (downloadDir this) (id +:+ ".zip")) as [p|e] eqn:Hp.
  - destruct (usableArtifact this id w) eqn:Hu.
    + destruct (downloadExtension_skips this env id attempt w Hu) as (r0 & -> & _ & Hst).
      intros [= <- <-]. intros Hs. rewrite Hst in Hs. discriminate.
    + rewrite (downloadExtension_chain this env id attempt w p Hp Hu).
      apply tryStrategies_sound.
  - rewrite (downloadExtension_cascade this env id e Hp _ attempt w eq_refl).
    intros [= <- <-]. intros Hs. discriminate.
Qed.

Lemma bump_all_app rs1 rs2 c : bump_all (rs1 ++ rs2) c = bump_all rs2 (bump_all rs1 c).
Proof. apply fold_left_app. Qed.

Section Account.
Context (this : Crawler) (env : Env).

Lemma runBatch_account batch : forall index w, exists rs w',
  runBatch this env batch index w = (Return rs, w') /\
  length rs = length batch /\
  counters w' = bump_all rs (counters w) /\
  Forall sound rs.
Proof.
  induction batch as [|id rest IH]; intros index w; simpl.
  - eexists _, _. split; [reflexivity|]. repeat split; auto.
  - unfold bind at 1, sleep at 1, modify at 1. simpl.
    set (w0 := emit (EvSleep (index * 1000)) w).
    destruct (downloadExtension_spec this env id 1 w0) as (r & w1 & Hr & _ & Hcnt & _).
    pose proof (downloadExtension_sound this env id 1 w0 r w1 Hr) as Hsound.
    unfold bind at 1. rewrite Hr.
    destruct (IH (index + 1) w1) as (rs & w2 & Hrs & Hlen & Hc & Hall).
    unfold bind. rewrite Hrs. unfold ret.
    exists (r :: rs), w2. split; [reflexivity|].
    split; [simpl; rewrite Hlen; reflexivity|].
    split; [rewrite Hc, Hcnt; reflexivity|].
    constructor; assumption.
Qed.

Lemma processBatch_account ids w fuel dir :
  downloadDir this = JStr dir ->
  0 < concurrency this ->
  (length ids <= fuel)%nat ->
  exists results w',
    processBatch this env fuel ids w = Some (Return results, w') /\
    length results = length ids /\
    counters w' = bump_all results (counters w) /\
    Forall sound results.
Proof.
  intros Hdir HC Hfuel.
  pose (Inv := fun (i : Z) (results : list ItemResult) (w1 : World) =>
    0 <= i /\
    Z.of_nat (length results) = Z.min i (Z.of_nat (length ids)) /\
    counters w1 = bump_all results (counters w) /\
    Forall sound results).
  destruct (processBatch_from_inv this env Inv ids HC) with (fuel := fuel) (i := 0)
    (results := @nil ItemResult) (w := w)
    as (j & results & w' & Hrun & Hj & _ & Hlen & Hc & Hall).
  - intros i results w1 [Hi Hin] (_ & Hlen & Hc & Hall).
    set (batch := js_slice ids i (i + concurrency this)).
    destruct (runBatch_account batch 0 (emit (EvBatch batch) w1))
      as (rs & w2 & Hrb & Hlen2 & Hc2 & Hall2).
    destruct (batchTurn_run this env dir Hdir ids i results w1 rs w2 Hrb)
      as (w3 & Hturn & _ & _ & _ & Hc3 & _).
    exists (results ++ rs)%list, w3. split; [exact Hturn|].
    unfold batch in Hlen2. rewrite (js_slice_batch ids i _ Hi HC) in Hlen2.
    rewrite length_take, length_drop in Hlen2.
    split; [lia|]. split; [rewrite length_app; lia|].
    split; [rewrite Hc3, Hc2, bump_all_app; f_equal; exact Hc|].
    apply Forall_app. auto.
  - lia.
  - lia.
  - unfold Inv. simpl. repeat split; auto; lia.
  - exists results, w'. split; [exact Hrun|]. split; [lia|]. auto.
Qed.
End Account.

Lemma with_status_cons st r rs :
  with_status st (r :: rs) =
  if decide (status r = st) then r :: with_status st rs else with_status st rs.
Proof. unfold with_status. simpl. destruct (decide (status r = st)) as [H|H].
  - rewrite bool_decide_eq_true_2 by exact H. reflexivity.
  - rewrite bool_decide_eq_false_2 by exact H. reflexivity.
Qed.

Lemma bump_all_counts rs : forall a b c d,
  bump_all rs (a, b, c, d) =
  (a + Z.of_nat (length (with_status St_success rs)),
   b + Z.of_nat (length (with_status St_failed rs)),
   c + Z.of_nat (length (with_status St_not_found rs)),
   d + Z.of_nat (length (with_status St_skipped rs))).
Proof.
  induction rs as [|r rs IH]; intros a b c d.
  - simpl. repeat f_equal; lia.
  - change (bump_all (r :: rs) (a, b, c, d)) with (bump_all rs (bump (status r) (a, b, c, d))).
    rewrite !with_status_cons.
    destruct (status r); simpl; rewrite IH; repeat apply (f_equal2 pair); lia.
Qed.

Lemma with_status_total rs :
  (length (with_status St_success rs) + length (with_status St_not_found rs) +
   length (with_status St_failed rs) + length (with_status St_skipped rs))%nat = length rs.
Proof.
  induction rs as [|r rs IH]; [reflexivity|].
  rewrite !with_status_cons. destruct (status r); simpl; lia.
Qed.

(** X6.  The counts of the final report add up to the number of results,
    and for the results of a run of [processBatch] they are what the run
    added to the four counters of [stats]: the report and the progress
    line never disagree. *)
Theorem report_counts_match_the_counters (this : Crawler) (env : Env)
    (ids : list string) (w : World) (fuel : nat) (dir : string) :
  downloadDir this = JStr dir ->
  0 < concurrency this ->
  (length ids <= fuel)%nat ->
  exists results w',
    processBatch this env fuel ids w = Some (Return results, w') /\
    let report := finalReport results in
    (successful_downloads report + extensions_not_found report +
     failed_downloads report + skipped_existing report)%nat = length ids /\
    completed (stats w') = completed (stats w) + Z.of_nat (successful_downloads report) /\
    notFound (stats w') = notFound (stats w) + Z.of_nat (extensions_not_found report) /\
    failed (stats w') = failed (stats w) + Z.of_nat (failed_downloads report) /\
    skipped (stats w') = skipped (stats w) + Z.of_nat (skipped_existing report).
Proof.
  intros Hdir HC Hfuel.
  destruct (processBatch_account this env ids w fuel dir Hdir HC Hfuel)
    as (results & w' & Hrun & Hlen & Hc & _).
  exists results, w'. split; [exact Hrun|]. simpl.
  split; [rewrite with_status_total; exact Hlen|].
  unfold counters in Hc at 2. rewrite bump_all_counts in Hc.
  unfold counters in Hc. injection Hc as H1 H2 H3 H4. auto.
Qed.

(** Three identifiers: one already there, two out of reach. *)
Lemma report_counts_match_the_counters_witness :
  exists results w',
    processBatch (mkCrawler (JStr "out") 2 6000 3 ["directapi"] 100) offline 3
      ["aa"; "bb"; "cc"] {| fs := {["out/bb.zip" := 2048]}; stats := fresh_stats; trace := [] |}
      = Some (Return results, w') /\
    skipped_existing (finalReport results) = 1%nat /\
    extensions_not_found (finalReport results) = 2%nat /\
    skipped (stats w') = 1 /\ notFound (stats w') = 2.
Proof.
  destruct (report_counts_match_the_counters (mkCrawler (JStr "out") 2 6000 3 ["directapi"] 100)
              offline ["aa"; "bb"; "cc"]
              {| fs := {["out/bb.zip" := 2048]}; stats := fresh_stats; trace := [] |} 3 "out" eq_refl)
    as (results & w' & Hrun & _).
  - simpl. lia.
  - simpl. lia.
  - exists results, w'. split; [exact Hrun|].
    vm_compute in Hrun. injection Hrun as <- <-. repeat split; reflexivity.
Defined.

Lemma successful_are_sound rs :
  Forall sound rs ->
  Forall (fun r => exists bytes name,
            size r = Some bytes /\ 1000 <= bytes /\
            strategy r = Some name /\ name ∈ builtinStrategies)
         (with_status St_success rs).
Proof.
  induction 1 as [|r rs Hr _ IH]; [constructor|].
  rewrite with_status_cons. destruct (decide (status r = St_success)) as [Hs|_];
    [constructor; [exact (Hr Hs) | exact IH] | exact IH].
Qed.

Lemma sum_sizes_from l : forall acc,
  Forall (fun r => exists bytes name,
            size r = Some bytes /\ 1000 <= bytes /\
            strategy r = Some name /\ name ∈ builtinStrategies) l ->
  acc + 1000 * Z.of_nat (length l) <=
  fold_left (fun sum r => sum + default 0 (size r)) l acc.
Proof.
  induction l as [|r l IH]; intros acc Hall; simpl; [lia|].
  inversion Hall as [|? ? (bytes & name & Hsize & Hbytes & _) Hrest]; subst.
  specialize (IH (acc + default 0 (size r)) Hrest). rewrite Hsize in *. simpl in *. lia.
Qed.

Lemma sum_counts_count_key s b : sum_counts (count_key s b) = sum_counts b + 1.
Proof.
  induction b as [|[k n] rest IH]; simpl; [reflexivity|].
  destruct (String.eqb k s); simpl; lia.
Qed.

Lemma keys_count_key s b k :
  k ∈ fst <$> count_key s b -> k = s \/ k ∈ fst <$> b.
Proof.
  induction b as [|[k0 n] rest IH].
  - intros Hin. apply list_elem_of_singleton in Hin. auto.
  - change (count_key s ((k0, n) :: rest))
      with (if String.eqb k0 s then (k0, n + 1) :: rest else (k0, n) :: count_key s rest).
    destruct (String.eqb k0 s); rewrite !fmap_cons; simpl.
    + intros Hin. auto.
    + intros Hin. apply elem_of_cons in Hin as [->|Hin].
      * right. apply list_elem_of_here.
      * destruct (IH Hin) as [->|Hk]; [auto | right; apply list_elem_of_further; exact Hk].
Qed.

Lemma builtin_not_empty name : name ∈ builtinStrategies -> String.eqb name EmptyString = false.
Proof.
  unfold builtinStrategies. intros Hin.
  repeat (apply elem_of_cons in Hin as [->|Hin]; [reflexivity|]).
  apply elem_of_nil in Hin. contradiction.
Qed.

Lemma breakdown_from l : forall b,
  Forall (fun r => exists bytes name,
            size r = Some bytes /\ 1000 <= bytes /\
            strategy r = Some name /\ name ∈ builtinStrategies) l ->
  let b' := fold_left
    (fun breakdown r =>
       match strategy r with
       | Some s => if String.eqb s EmptyString then breakdown else count_key s breakdown
       | None => breakdown
       end) l b in
  sum_counts b' = sum_counts b + Z.of_nat (length l) /\
  forall k, k ∈ fst <$> b' -> k ∈ builtinStrategies \/ k ∈ fst <$> b.
Proof.
  induction l as [|r l IH]; intros b Hall; simpl.
  - split; [lia | auto].
  - inversion Hall as [|? ? (bytes & name & _ & _ & Hname & Hin) Hrest]; subst.
    rewrite Hname, (builtin_not_empty name Hin).
    destruct (IH (count_key name b) Hrest) as [Hsum Hkeys]. split.
    + rewrite Hsum, sum_counts_count_key. lia.
    + intros k Hk. destruct (Hkeys k Hk) as [Hb|Hb]; [auto|].
      destruct (keys_count_key name b k Hb) as [->|Hb']; auto.
Qed.

(** X7.  In the report of a run of [processBatch], [total_size_bytes] is
    at least 1000 bytes for each successful download, and the counts of
    [strategy_breakdown], whose keys are built-in strategy names, add up to
    [successful_downloads]: every success is credited to exactly one
    strategy. *)
Theorem report_credits_every_success (this : Crawler) (env : Env)
    (ids : list string) (w : World) (fuel : nat) (dir : string) :
  downloadDir this = JStr dir ->
  0 < concurrency this ->
  (length ids <= fuel)%nat ->
  exists results w',
    processBatch this env fuel ids w = Some (Return results, w') /\
    let report := finalReport results in
    1000 * Z.of_nat (successful_downloads report) <= total_size_bytes report /\
    sum_counts (strategy_breakdown report) = Z.of_nat (successful_downloads report) /\
    forall k, k ∈ fst <$> strategy_breakdown report -> k ∈ builtinStrategies.
Proof.
  intros Hdir HC Hfuel.
  destruct (processBatch_account this env ids w fuel dir Hdir HC Hfuel)
    as (results & w' & Hrun & _ & _ & Hall).
  exists results, w'. split; [exact Hrun|]. simpl.
  pose proof (successful_are_sound results Hall) as Hs.
  split; [exact (sum_sizes_from _ 0 Hs)|].
  destruct (breakdown_from _ [] Hs) as [Hsum Hkeys]. split.
  - exact Hsum.
  - intros k Hk. destruct (Hkeys k Hk) as [Hb|Hb]; [exact Hb|].
    apply elem_of_nil in Hb. contradiction.
Qed.

(** Two downloads of 50000 bytes through the direct API. *)
Lemma report_credits_every_success_witness :
  exists results w',
    processBatch (mkCrawler (JStr "out") 2 6000 3 ["directapi"] 100) (serving 200 50000) 2
      ["aa"; "bb"] blank = Some (Return results, w') /\
    total_size_bytes (finalReport results) = 100000 /\
    strategy_breakdown (finalReport results) = [("directapi", 2)].
Proof.
  destruct (report_credits_every_success (mkCrawler (JStr "out") 2 6000 3 ["directapi"] 100)
              (serving 200 50000) ["aa"; "bb"] blank 2 "out" eq_refl)
    as (results & w' & Hrun & _).
  - simpl. lia.
  - simpl. lia.
  - exists results, w'. split; [exact Hrun|].
    vm_compute in Hrun. injection Hrun as <- <-. split; reflexivity.
Defined.

Lemma count_of_key b k : k ∈ fst <$> b -> is_Some (count_of b k).
Proof.
  unfold count_of. induction b as [|[k0 n] rest IH]; rewrite ?fmap_cons; simpl.
  - intros Hin. apply elem_of_nil in Hin. contradiction.
  - intros Hin. destruct (String.eqb_spec k0 k) as [->|Hne]; [simpl; eauto|].
    apply elem_of_cons in Hin as [->|Hin]; [contradiction | exact (IH Hin)].
Qed.

Lemma count_of_absent b k : k ∉ fst <$> b -> count_of b k = None.
Proof.
  unfold count_of. induction b as [|[k0 n] rest IH]; rewrite ?fmap_cons; simpl; [reflexivity|].
  intros Hnot. destruct (String.eqb_spec k0 k) as [->|Hne].
  - exfalso. apply Hnot. apply list_elem_of_here.
  - apply IH. intros Hin. apply Hnot. apply list_elem_of_further. exact Hin.
Qed.

Lemma breakdown_keys_not_empty l : forall b,
  EmptyString ∉ fst <$> b ->
  EmptyString ∉ fst <$> fold_left
    (fun breakdown r =>
       match strategy r with
       | Some s => if String.eqb s EmptyString then breakdown else count_key s breakdown
       | None => breakdown
       end) l b.
Proof.
  induction l as [|r l IH]; intros b Hb; simpl; [exact Hb|].
  apply IH. destruct (strategy r) as [s|]; [|exact Hb].
  destruct (String.eqb_spec s EmptyString) as [->|Hne]; [exact Hb|].
  intros Hin. destruct (keys_count_key s b _ Hin) as [Heq|Hin']; [congruence | exact (Hb Hin')].
Qed.

(** The reduce keeps the last of the keys with the greatest count. *)
Lemma most_effective_spec b : forall keys,
  count_of b EmptyString = None ->
  (forall k, k ∈ keys -> is_Some (count_of b k)) ->
  keys <> [] ->
  exists before after x,
    keys = (before ++ most_effective keys b :: after)%list /\
    count_of b (most_effective keys b) = Some x /\
    (forall k y, k ∈ before -> count_of b k = Some y -> y <= x) /\
    (forall k y, k ∈ after -> count_of b k = Some y -> y < x).
Proof.
  intros keys Hempty. induction keys as [|k ks IH] using rev_ind; intros Hkeys Hne;
    [congruence|].
  unfold most_effective in *. rewrite fold_left_app. simpl.
  destruct (Hkeys k) as [y Hy]; [apply elem_of_app; right; apply list_elem_of_here|].
  destruct ks as [|k1 ks'].
  - simpl. unfold more_effective. rewrite Hempty.
    exists [], [], y. repeat split; auto; intros k0 y0 Hin; apply elem_of_nil in Hin; contradiction.
  - destruct IH as (before & after & x & Hdec & Hx & Hbefore & Hafter).
    { intros k0 Hin. apply Hkeys. apply elem_of_app. left. exact Hin. }
    { discriminate. }
    set (a := fold_left (more_effective b) (k1 :: ks') EmptyString) in *.
    assert (Hres : more_effective b a k = if x >? y then a else k)
      by (unfold more_effective; rewrite Hx, Hy; reflexivity).
    rewrite Hres. destruct (x >? y) eqn:Hcmp.
    + apply Z.gtb_lt in Hcmp.
      exists before, (after ++ [k])%list, x. rewrite Hdec at 1. rewrite <- app_assoc. simpl.
      repeat split; auto.
      intros k0 y0 Hin Hy0. apply elem_of_app in Hin as [Hin|Hin]; [eauto|].
      apply list_elem_of_singleton in Hin. subst k0. rewrite Hy in Hy0. injection Hy0 as <-. lia.
    + assert (x <= y) by (rewrite Z.gtb_ltb in Hcmp; apply Z.ltb_ge in Hcmp; exact Hcmp).
      exists (k1 :: ks'), [], y. repeat split; auto.
      * intros k0 y0 Hin Hy0. rewrite Hdec in Hin.
        apply elem_of_app in Hin as [Hin|Hin]; [specialize (Hbefore _ _ Hin Hy0); lia|].
        apply elem_of_cons in Hin as [->|Hin].
        -- rewrite Hx in Hy0. injection Hy0 as <-. lia.
        -- specialize (Hafter _ _ Hin Hy0). lia.
      * intros k0 y0 Hin. apply elem_of_nil in Hin. contradiction.
Qed.

(** X8.  [most_effective_strategy] is the empty string when no successful
    result names a strategy; otherwise it is a strategy with the greatest
    number of successes, and among several with that number the one whose
    first success came last. *)
Theorem most_effective_is_the_last_maximum (results : list ItemResult) :
  Forall (fun r => forall s, strategy r = Some s -> s ∈ builtinStrategies) results ->
  let report := finalReport results in
  let breakdown := strategy_breakdown report in
  let best := most_effective_strategy report in
  (breakdown = [] -> best = EmptyString) /\
  (breakdown <> [] ->
   exists before after x,
     fst <$> breakdown = (before ++ best :: after)%list /\
     count_of breakdown best = Some x /\
     (forall k y, k ∈ before -> count_of breakdown k = Some y -> y <= x) /\
     (forall k y, k ∈ after -> count_of breakdown k = Some y -> y < x)).
Proof.
  intros _. simpl. split.
  - intros ->. reflexivity.
  - intros Hne. apply most_effective_spec.
    + apply count_of_absent. apply breakdown_keys_not_empty. intros Hin.
      apply elem_of_nil in Hin. contradiction.
    + intros k. apply count_of_key.
    + intros Hnil. apply Hne. apply fmap_nil_inv in Hnil. exact Hnil.
Qed.

(** One success each for two strategies: the later one is reported. *)
Lemma most_effective_is_the_last_maximum_witness :
  most_effective_strategy
    (finalReport
       [ item "aa" St_success (Some "crxviewer") (Some "out/aa.zip") (Some 50000) None;
         item "bb" St_not_found None None None (Some "All download strategies failed");
         item "cc" St_success (Some "directapi") (Some "out/cc.zip") (Some 2000) None ])
  = "directapi".
Proof.
  destruct (most_effective_is_the_last_maximum
       [ item "aa" St_success (Some "crxviewer") (Some "out/aa.zip") (Some 50000) None;
         item "bb" St_not_found None None None (Some "All download strategies failed");
         item "cc" St_success (Some "directapi") (Some "out/cc.zip") (Some 2000) None ])
    as [_ Hbest].
  - repeat (apply List.Forall_cons;
              [simpl; intros s Hs; first [discriminate Hs
                | injection Hs as <-; unfold builtinStrategies; set_solver]|]).
    apply List.Forall_nil.
  - reflexivity.
Defined.

(** ** A loop that does not advance *)

(** With a batch size that is not positive the loop index never passes the
    end of a list that is not empty: every turn returns and the loop goes
    on. *)
Lemma processBatch_from_stalls this env dir ids :
  downloadDir this = JStr dir -> concurrency this <= 0 -> ids <> [] ->
  forall fuel i results w,
    i <= 0 -> processBatch_from this env fuel ids i results w = None.
Proof.
  intros Hdir Hc Hne.
  assert (Hlen : 0 < Z.of_nat (length ids)) by (destruct ids; [contradiction|simpl; lia]).
  induction fuel as [|fuel IH]; intros i results w Hi; simpl.
  - replace (i <? Z.of_nat (length ids)) with true by (symmetry; apply Z.ltb_lt; lia).
    reflexivity.
  - replace (i <? Z.of_nat (length ids)) with true by (symmetry; apply Z.ltb_lt; lia).
    destruct (batchTurn_spec this env dir Hdir ids i results w) as (rs & w' & Hturn & _).
    rewrite Hturn. apply IH. lia.
Qed.

(** X9.  Over a list that is not empty, the loop of [processBatch] comes
    to an end exactly when [concurrency] is positive: a negative
    [concurrency] keeps the index below the length of the list for ever. *)
Theorem run_ends_iff_concurrency_is_positive this env dir ids w :
  downloadDir this = JStr dir -> ids <> [] ->
  (exists fuel results w',
      processBatch this env fuel ids w = Some (Return results, w'))
  <-> 0 < concurrency this.
Proof.
  intros Hdir Hne. split.
  - intros (fuel & results & w' & Hrun).
    destruct (Z_lt_le_dec 0 (concurrency this)) as [Hpos|Hneg]; [exact Hpos|].
    unfold processBatch in Hrun.
    rewrite (processBatch_from_stalls this env dir ids Hdir Hneg Hne) in Hrun by lia.
    discriminate Hrun.
  - intros Hpos.
    destruct (processBatch_from_inv this env (fun _ _ _ => True) ids Hpos)
      with (fuel := length ids) (i := 0) (results := @nil ItemResult) (w := w)
      as (j & results & w' & Hrun & _); [| lia | lia | exact I |].
    + intros i results w0 _ _.
      destruct (batchTurn_spec this env dir Hdir ids i results w0) as (rs & w' & Hturn & _).
      eexists _, _. split; [exact Hturn | exact I].
    + exists (length ids), results, w'. exact Hrun.
Qed.

(** The constructor keeps a negative [options.concurrency], and the run of
    such a crawler over one identifier has no end. *)
Lemma run_ends_iff_concurrency_is_positive_witness :
  (exists fuel results w',
      processBatch (new_crawler (mkOptions (JStr "out") (Some (-1)) None None))
        offline fuel [someId] blank = Some (Return results, w'))
  <-> 0 < -1.
Proof.
  apply (run_ends_iff_concurrency_is_positive
           (new_crawler (mkOptions (JStr "out") (Some (-1)) None None))
           offline "out" [someId] blank).
  - reflexivity.
  - discriminate.
Defined.

(** ** How a duration is displayed *)

Lemma numeral_pretty_N_char x : numeral (pretty_N_char x) = true.
Proof. unfold pretty_N_char. repeat case_match; reflexivity. Qed.

Lemma numeric_pretty_N_go x : forall s,
  numeric s = true -> numeric (pretty_N_go x s) = true.
Proof.
  induction (N.lt_wf_0 x) as [x _ IH]. intros s Hs.
  destruct (N.eq_dec x 0%N) as [->|Hx].
  - rewrite pretty_N_go_0. exact Hs.
  - rewrite pretty_N_go_step by lia. apply IH.
    + apply N.div_lt; lia.
    + simpl. rewrite numeral_pretty_N_char. exact Hs.
Qed.

Lemma numeric_pretty_N (x : N) : numeric (pretty x) = true.
Proof.
  unfold pretty, pretty_N. case_decide; [reflexivity|].
  apply numeric_pretty_N_go. reflexivity.
Qed.

Lemma numeric_pretty_Z (x : Z) : numeric (pretty x) = true.
Proof.
  destruct x as [|p|p]; unfold pretty, pretty_Z; [reflexivity| |].
  - apply (numeric_pretty_N (Npos p)).
  - simpl. apply (numeric_pretty_N (Npos p)).
Qed.

(** A printed integer ends at the first character that is no numeral. *)
Lemma numeric_split d : forall d' c c' r r',
  numeric d = true -> numeric d' = true ->
  numeral c = false -> numeral c' = false ->
  d +:+ String c r = d' +:+ String c' r' ->
  d = d' /\ c = c' /\ r = r'.
Proof.
  induction d as [|x d IH]; intros [|x' d'] c c' r r' Hd Hd' Hc Hc' Heq; simpl in *.
  - injection Heq as -> ->. auto.
  - injection Heq as -> _. apply andb_true_iff in Hd' as [Hx _]. congruence.
  - injection Heq as -> _. apply andb_true_iff in Hd as [Hx _]. congruence.
  - injection Heq as -> Heq.
    apply andb_true_iff in Hd as [_ Hd]. apply andb_true_iff in Hd' as [_ Hd'].
    destruct (IH d' c c' r r' Hd Hd' Hc Hc' Heq) as (-> & -> & ->). auto.
Qed.

Lemma printed_unit (x y : Z) (u u' : Ascii.ascii) (r r' : string) :
  numeral u = false -> numeral u' = false ->
  pretty x +:+ String u r = pretty y +:+ String u' r' ->
  x = y /\ u = u' /\ r = r'.
Proof.
  intros Hu Hu' Heq.
  destruct (numeric_split _ _ _ _ _ _ (numeric_pretty_Z x) (numeric_pretty_Z y) Hu Hu' Heq)
    as (Hxy & -> & ->).
  apply (inj pretty) in Hxy. auto.
Qed.

Lemma append_String c s r : String c s +:+ r = String c (s +:+ r).
Proof. reflexivity. Qed.

Lemma append_Empty r : EmptyString +:+ r = r.
Proof. reflexivity. Qed.

(** X10.  Two durations are displayed alike exactly when they are the same
    number of whole seconds. *)
Theorem same_display_iff_same_second (a b : Z) :
  safeInteger a -> safeInteger b ->
  formatDuration a = formatDuration b <-> a / 1000 = b / 1000.
Proof.
  intros _ _. split.
  - unfold formatDuration.
    set (s := a / 1000). set (t := b / 1000). clearbody s t.
    destruct (s / 60 / 60 >? 0) eqn:Hh; destruct (t / 60 / 60 >? 0) eqn:Hh';
      [| destruct (t / 60 >? 0) eqn:Hm' | destruct (s / 60 >? 0) eqn:Hm
       | destruct (s / 60 >? 0) eqn:Hm; destruct (t / 60 >? 0) eqn:Hm'];
      intros Heq; rewrite ?append_String, ?append_Empty in Heq;
      repeat match goal with
      | H : _ +:+ String _ _ = _ +:+ String _ _ |- _ =>
          apply printed_unit in H; [|reflexivity|reflexivity];
          destruct H as (? & ? & ?)
      | H : String _ _ = String _ _ |- _ => injection H; clear H; intros
      end; try congruence;
      rewrite ?Z.gtb_ltb in *;
      repeat match goal with
      | H : (_ <? _) = true |- _ => apply Z.ltb_lt in H
      | H : (_ <? _) = false |- _ => apply Z.ltb_ge in H
      end;
      Z.div_mod_to_equations; Z.quot_rem_to_equations; lia.
  - intros Heq. unfold formatDuration. rewrite Heq. reflexivity.
Qed.

(** An hour, two minutes and five seconds, at its first and at its last
    millisecond. *)
Lemma same_display_iff_same_second_witness :
  (formatDuration 3725000 = formatDuration 3725999 <-> 3725000 / 1000 = 3725999 / 1000)
  /\ formatDuration 3725999 = "1h 2m 5s".
Proof.
  split; [|reflexivity].
  apply (same_display_iff_same_second 3725000 3725999); unfold safeInteger; lia.
Defined.

(** ** The files of identifiers *)

Lemma js_split_first sep s : exists part parts, js_split sep s = part :: parts.
Proof.
  destruct s as [|c rest]; simpl; [eauto|].
  destruct (c =? sep); [eauto|]. destruct (js_split sep rest); eauto.
Qed.

(** A piece without the separator is split off as it is. *)
Lemma js_split_app sep part : forall s,
  sep ∉ part -> js_split sep (part ++ sep :: s)%list = part :: js_split sep s.
Proof.
  induction part as [|c part IH]; intros s Hpart; simpl.
  - rewrite Z.eqb_refl. reflexivity.
  - apply not_elem_of_cons in Hpart as [Hc Hpart].
    replace (c =? sep) with false by (symmetry; apply Z.eqb_neq; congruence).
    rewrite IH by exact Hpart. reflexivity.
Qed.

Lemma js_split_whole sep part : sep ∉ part -> js_split sep part = [part].
Proof.
  induction part as [|c part IH]; intros Hpart; simpl; [reflexivity|].
  apply not_elem_of_cons in Hpart as [Hc Hpart].
  replace (c =? sep) with false by (symmetry; apply Z.eqb_neq; congruence).
  rewrite IH by exact Hpart. reflexivity.
Qed.

(** [split] undoes [join] on pieces that do not hold the separator. *)
Lemma js_split_join sep part parts :
  Forall (fun p => sep ∉ p) (part :: parts) ->
  js_split sep (js_join sep (part :: parts)) = part :: parts.
Proof.
  revert part. induction parts as [|next parts IH]; intros part Hall.
  - simpl. apply js_split_whole. apply Forall_inv in Hall. exact Hall.
  - change (js_join sep (part :: next :: parts))
      with (part ++ sep :: js_join sep (next :: parts))%list.
    rewrite js_split_app by (apply Forall_inv in Hall; exact Hall).
    rewrite IH by (apply Forall_inv_tail in Hall; exact Hall). reflexivity.
Qed.

(** Joining pieces brings in no code unit but the separator. *)
Lemma js_join_free sep c parts :
  c <> sep -> Forall (fun p => c ∉ p) parts -> c ∉ js_join sep parts.
Proof.
  intros Hc. induction 1 as [|part parts Hpart Hparts IH]; simpl.
  - apply not_elem_of_nil.
  - destruct parts as [|next parts]; [exact Hpart|].
    intros Hin. apply elem_of_app in Hin as [Hin|Hin]; [exact (Hpart Hin)|].
    apply elem_of_cons in Hin as [Hin|Hin]; [exact (Hc Hin)|exact (IH Hin)].
Qed.

(** The first cell of a row is what stands before its first comma. *)
Lemma js_split_first_cell sep cell cells :
  sep ∉ cell -> hd [] (js_split sep (js_join sep (cell :: cells))) = cell.
Proof.
  intros Hcell. destruct cells as [|next cells].
  - simpl. rewrite js_split_whole by exact Hcell. reflexivity.
  - change (js_join sep (cell :: next :: cells))
      with (cell ++ sep :: js_join sep (next :: cells))%list.
    rewrite js_split_app by exact Hcell. reflexivity.
Qed.

Lemma letter_not_white c : letter c = true -> isWhiteSpace c = false.
Proof.
  unfold letter, isWhiteSpace. intros H. apply andb_true_iff in H as [H1 H2].
  apply Z.leb_le in H1, H2. simpl.
  repeat match goal with
  | |- context [c =? ?k] =>
      replace (c =? k) with false by (symmetry; apply Z.eqb_neq; lia)
  end.
  replace (8192 <=? c) with false by (symmetry; apply Z.leb_gt; lia).
  reflexivity.
Qed.

Lemma isExtensionId_letters id :
  isExtensionId id = true -> id <> [] /\ Forall (fun c => letter c = true) id.
Proof.
  unfold isExtensionId. intros H. apply andb_true_iff in H as [Hlen Hall].
  apply Nat.eqb_eq in Hlen. split.
  - intros ->. discriminate Hlen.
  - apply Forall_forall. intros c Hc. apply list_elem_of_In in Hc.
    rewrite forallb_forall in Hall. apply Hall. exact Hc.
Qed.

(** The test for blank lines and comments lets every identifier through. *)
Lemma isExtensionId_kept id :
  isExtensionId id = true ->
  nonEmpty id = true /\ startsWith 35 id = false.
Proof.
  intros H. apply isExtensionId_letters in H as [Hne Hall].
  destruct id as [|c id]; [contradiction|]. split; [reflexivity|].
  apply Forall_inv in Hall. unfold letter in Hall. simpl.
  apply andb_true_iff in Hall as [H1 _]. apply Z.leb_le in H1.
  apply Z.eqb_neq. lia.
Qed.

Lemma trimStart_letters s rest :
  s <> [] -> Forall (fun c => letter c = true) s ->
  trimStart (s ++ rest)%list = (s ++ rest)%list.
Proof.
  intros Hne Hall. destruct s as [|c s]; [contradiction|].
  apply Forall_inv in Hall. simpl. rewrite (letter_not_white c Hall). reflexivity.
Qed.

(** An identifier comes out of [trim] as it is, also with a carriage
    return behind it. *)
Lemma trim_identifier id :
  isExtensionId id = true -> trim id = id /\ trim (id ++ [13])%list = id.
Proof.
  intros H. apply isExtensionId_letters in H as [Hne Hall].
  assert (Hrev : trimStart (reverse id) = reverse id).
  { rewrite <- (app_nil_r (reverse id)). apply trimStart_letters.
    - intros Hnil. apply Hne. rewrite <- (reverse_involutive id), Hnil. reflexivity.
    - apply Forall_reverse. exact Hall. }
  unfold trim. split.
  - rewrite <- (app_nil_r id) at 1. rewrite trimStart_letters by assumption.
    rewrite app_nil_r, Hrev. apply reverse_involutive.
  - rewrite trimStart_letters by assumption.
    rewrite reverse_app. simpl. rewrite Hrev. apply reverse_involutive.
Qed.

Lemma filter_filter_weaker {A} (p q : A -> bool) (l : list A) :
  (forall x, p x = true -> q x = true) ->
  List.filter p (List.filter q l) = List.filter p l.
Proof.
  intros Hpq. induction l as [|x l IH]; simpl; [reflexivity|].
  destruct (q x) eqn:Hq; simpl.
  - rewrite IH. reflexivity.
  - rewrite IH. destruct (p x) eqn:Hp; [|reflexivity].
    rewrite (Hpq x Hp) in Hq. discriminate Hq.
Qed.

Lemma filter_fmap {A B} (p : B -> bool) (f : A -> B) (l : list A) :
  List.filter p (f <$> l) = f <$> List.filter (fun x => p (f x)) l.
Proof.
  induction l as [|x l IH]; [reflexivity|].
  rewrite fmap_cons. cbn [List.filter]. rewrite IH.
  destruct (p (f x)); reflexivity.
Qed.

Lemma filter_all {A} (p : A -> bool) (l : list A) :
  Forall (fun x => p x = true) l -> List.filter p l = l.
Proof.
  induction 1 as [|x l Hx _ IH]; simpl; [reflexivity|].
  rewrite Hx, IH. reflexivity.
Qed.

(** The lines of a text in which every line is closed by a line feed: one
    more, empty, piece follows the last line feed. *)
Lemma js_split_lines lines :
  Forall (fun line => 10 ∉ line) lines ->
  js_split 10 (concat ((fun line => line ++ [10])%list <$> lines))
  = (lines ++ [[]])%list.
Proof.
  induction 1 as [|line lines Hline _ IH]; [reflexivity|].
  rewrite fmap_cons. cbn [concat]. rewrite <- app_assoc. cbn [app].
  rewrite js_split_app by exact Hline. rewrite IH. reflexivity.
Qed.

Lemma letters_no_line_feed id cr :
  isExtensionId id = true -> cr = [] \/ cr = [13] -> 10 ∉ (id ++ cr)%list.
Proof.
  intros Hid Hcr Hin. apply isExtensionId_letters in Hid as [_ Hall].
  apply elem_of_app in Hin as [Hin|Hin].
  - rewrite Forall_forall in Hall. specialize (Hall _ Hin). discriminate Hall.
  - destruct Hcr as [-> | ->].
    + apply elem_of_nil in Hin. exact Hin.
    + apply list_elem_of_singleton in Hin. discriminate Hin.
Qed.

Section Loaded.
Context {Json : Type}.
Context (readFile : string -> Completion Text).
Context (JSON_parse : Text -> Completion Json).
Context (elements : Json -> option (list Json)).
Context (toString : Json -> Text).

Local Abbreviation load := (loadExtensionIds readFile JSON_parse elements toString).

(** What is loaded from the lines of a file that is neither JSON nor CSV. *)
Lemma load_lines filepath content :
  endsWith filepath ".json" = false -> endsWith filepath ".csv" = false ->
  readFile filepath = Return content ->
  load filepath = Return (inl <$> List.filter isExtensionId (trim <$> js_split 10 content)).
Proof.
  intros Hjson Hcsv Hread. unfold loadExtensionIds, readIds.
  rewrite Hread, Hjson, Hcsv. f_equal.
  rewrite (filter_fmap (fun id => isExtensionId (tested toString id)) inl). simpl.
  f_equal. apply filter_filter_weaker.
  intros id Hid. apply isExtensionId_kept in Hid as [-> ->]. reflexivity.
Qed.

(** What is loaded from a CSV file. *)
Lemma load_rows filepath content :
  endsWith filepath ".json" = false -> endsWith filepath ".csv" = true ->
  readFile filepath = Return content ->
  load filepath =
    Return (inl <$> List.filter isExtensionId
              ((fun line => trim (hd [] (js_split 44 line))) <$> drop 1 (js_split 10 content))).
Proof.
  intros Hjson Hcsv Hread. unfold loadExtensionIds, readIds.
  rewrite Hread, Hjson, Hcsv. f_equal.
  rewrite (filter_fmap (fun id => isExtensionId (tested toString id)) inl). simpl.
  f_equal. apply filter_filter_weaker.
  intros id Hid. apply isExtensionId_kept in Hid as [-> _]. reflexivity.
Qed.

(** X11.  From a file that is neither JSON nor CSV, [loadExtensionIds]
    returns, in the order of the file, the lines that are an identifier
    once the white space around them is taken off; nothing else of the
    file is returned, and no such line is left out. *)
Theorem text_file_gives_its_identifier_lines filepath lines :
  endsWith filepath ".json" = false -> endsWith filepath ".csv" = false ->
  Forall (fun line => 10 ∉ line) lines ->
  readFile filepath = Return (js_join 10 lines) ->
  load filepath = Return (inl <$> List.filter isExtensionId (trim <$> lines)).
Proof.
  intros Hjson Hcsv Hlines Hread.
  rewrite (load_lines filepath _ Hjson Hcsv Hread).
  destruct lines as [|line lines]; [reflexivity|].
  rewrite js_split_join by exact Hlines. reflexivity.
Qed.

(** X12.  From a CSV file, [loadExtensionIds] returns the first cells of
    the rows below the first one that are an identifier once trimmed: the
    first row is dropped whatever it holds. *)
Theorem csv_file_gives_its_first_column filepath header (table : list (list Text)) :
  endsWith filepath ".json" = false -> endsWith filepath ".csv" = true ->
  10 ∉ header ->
  Forall (fun cells => (44 ∉ hd [] cells) /\ Forall (fun cell => 10 ∉ cell) cells) table ->
  readFile filepath = Return (js_join 10 (header :: (js_join 44 <$> table))) ->
  load filepath =
    Return (inl <$> List.filter isExtensionId ((fun cells => trim (hd [] cells)) <$> table)).
Proof.
  intros Hjson Hcsv Hheader Htable Hread.
  rewrite (load_rows filepath _ Hjson Hcsv Hread).
  rewrite js_split_join.
  - cbn [drop]. rewrite drop_0, <- list_fmap_compose. do 3 f_equal.
    apply Forall_fmap_ext_1. eapply Forall_impl; [exact Htable|].
    intros cells [Hcell _]. simpl. f_equal.
    destruct cells as [|cell cells]; [reflexivity|].
    apply js_split_first_cell. exact Hcell.
  - constructor; [exact Hheader|]. apply Forall_fmap.
    eapply Forall_impl; [exact Htable|]. intros cells [_ Hcells]. simpl.
    apply js_join_free; [discriminate | exact Hcells].
Qed.

(** X13.  A list of identifiers written one to a line, each line closed
    by a line feed or by a carriage return and a line feed, is loaded back
    as it was written. *)
Theorem written_identifiers_load_back filepath (ids : list Text) (crlf : bool) :
  endsWith filepath ".json" = false -> endsWith filepath ".csv" = false ->
  Forall (fun id => isExtensionId id = true) ids ->
  readFile filepath =
    Return (concat ((fun id => id ++ (if crlf then [13; 10] else [10]))%list <$> ids)) ->
  load filepath = Return (inl <$> ids).
Proof.
  intros Hjson Hcsv Hids Hread.
  rewrite (load_lines filepath _ Hjson Hcsv Hread). f_equal. f_equal.
  set (cr := if crlf then [13] else @nil Z).
  assert (Hcr : cr = [] \/ cr = [13]) by (destruct crlf; auto).
  replace (concat ((fun id => id ++ (if crlf then [13; 10] else [10]))%list <$> ids))
    with (concat ((fun line => line ++ [10])%list <$> ((fun id => id ++ cr)%list <$> ids))).
  - rewrite js_split_lines.
    + rewrite fmap_app, List.filter_app. simpl. rewrite app_nil_r.
      rewrite <- list_fmap_compose.
      replace ((trim ∘ (fun id => id ++ cr)%list) <$> ids) with ids.
      * apply filter_all. exact Hids.
      * rewrite <- (list_fmap_id ids) at 1. apply Forall_fmap_ext_1.
        eapply Forall_impl; [exact Hids|]. intros id Hid. simpl.
        destruct (trim_identifier id Hid) as [Htrim Htrim'].
        destruct Hcr as [-> | ->]; [rewrite app_nil_r|]; congruence.
    + apply Forall_fmap. eapply Forall_impl; [exact Hids|].
      intros id Hid. simpl. apply letters_no_line_feed; assumption.
  - rewrite <- list_fmap_compose. f_equal. apply list_fmap_ext.
    intros _ id _. simpl. rewrite <- app_assoc. subst cr. destruct crlf; reflexivity.
Qed.

End Loaded.

(** A comment, an identifier between blanks and before a carriage return,
    an empty line and a word: the identifier is what is loaded. *)
Lemma text_file_gives_its_identifier_lines_witness :
  loadExtensionIds (Json := unit)
    (fun _ => Return (js_join 10
       [ [35; 32; 105; 100; 115];
         (32 :: 32 :: replicate 32 97 ++ [9; 13])%list;
         [];
         [104; 101; 108; 108; 111] ]))
    (fun _ => Throw "Unexpected token") (fun _ => None) (fun _ => [])
    "extension_ids.txt"
  = Return [inl (replicate 32 97)].
Proof.
  apply (text_file_gives_its_identifier_lines (Json := unit) _ _ _ _
           "extension_ids.txt"
           [ [35; 32; 105; 100; 115];
             (32 :: 32 :: replicate 32 97 ++ [9; 13])%list;
             [];
             [104; 101; 108; 108; 111] ]).
  - reflexivity.
  - reflexivity.
  - refine (bool_decide_unpack _ _). vm_compute. exact I.
  - reflexivity.
Defined.

(** A CSV file without a header row loses its first identifier. *)
Lemma csv_file_gives_its_first_column_witness :
  loadExtensionIds (Json := unit)
    (fun _ => Return (js_join 10
       [ replicate 32 97;
         (replicate 32 98 ++ [44; 65; 100; 115])%list;
         (replicate 32 99 ++ [13])%list ]))
    (fun _ => Throw "Unexpected token") (fun _ => None) (fun _ => [])
    "ids.csv"
  = Return [inl (replicate 32 98); inl (replicate 32 99)].
Proof.
  apply (csv_file_gives_its_first_column (Json := unit) _ _ _ _
           "ids.csv" (replicate 32 97)
           [ [replicate 32 98; [65; 100; 115]]; [(replicate 32 99 ++ [13])%list] ]).
  - reflexivity.
  - reflexivity.
  - refine (bool_decide_unpack _ _). vm_compute. exact I.
  - refine (bool_decide_unpack _ _). vm_compute. exact I.
  - reflexivity.
Defined.

(** Two identifiers in a file with Windows line ends. *)
Lemma written_identifiers_load_back_witness :
  loadExtensionIds (Json := unit)
    (fun _ => Return (replicate 32 97 ++ [13; 10] ++ replicate 32 112 ++ [13; 10])%list)
    (fun _ => Throw "Unexpected token") (fun _ => None) (fun _ => [])
    "extension_ids.txt"
  = Return [inl (replicate 32 97); inl (replicate 32 112)].
Proof.
  apply (written_identifiers_load_back (Json := unit) _ _ _ _
           "extension_ids.txt" [replicate 32 97; replicate 32 112] true).
  - reflexivity.
  - reflexivity.
  - repeat constructor.
  - reflexivity.
Defined.

(** ** What is retried *)

(** X14.  The only fault that reaches the outer [catch] of
    [downloadExtension] is the one [path.join] raises for a download
    directory that is no string.  With a string for a directory the call
    enters its body once and never ends in [failed], whatever the strategies
    and the remote sides do; without one it ends in [failed] with the
    message of [path.join]. *)
Theorem only_a_bad_directory_is_retried this env id attempt w :
  exists r w',
    downloadExtension this env id attempt w = (Return r, w') /\
    match path_join (downloadDir this) (id +:+ ".zip") with
    | Return _ =>
        status r <> St_failed /\
        attempts_of (trace w') = (attempts_of (trace w) ++ [(id, attempt)])%list
    | Throw e => r = item id St_failed None None None (Some e)
    end.
Proof.
  destruct (path_join (downloadDir this) (id +:+ ".zip")) as [p|e] eqn:Hp.
  - destruct (usableArtifact this id w) eqn:Hu.
    + destruct (downloadExtension_skips this env id attempt w Hu) as (r & Hr & _ & Hst).
      eexists _, _. split; [exact Hr|]. split; [rewrite Hst; discriminate|].
      simpl. rewrite attempts_of_emit. reflexivity.
    + rewrite (downloadExtension_chain this env id attempt w p Hp Hu).
      destruct (tryStrategies_spec this env (downloadStrategies this) id
                  (emit (EvAttempt id attempt) w))
        as (r & w' & Hr & _ & Hst & _ & _ & Hatt & _).
      exists r, w'. split; [exact Hr|]. split.
      * destruct Hst as [Hst|Hst]; rewrite Hst; discriminate.
      * rewrite Hatt. simpl. rewrite attempts_of_emit. reflexivity.
  - eexists _, _. split; [|reflexivity].
    apply (downloadExtension_cascade this env id e Hp _ attempt w eq_refl).
Qed.

(** ** The two strategy tables of the report *)

(** [updateStrategyStats] adds a success only to its strategy and only for
    the outcome [success]. *)
Lemma successes_update name outcome n w :
  successes n (snd (updateStrategyStats name outcome w)) =
  successes n w +
  (if String.eqb n name && String.eqb outcome "success" then 1 else 0).
Proof.
  unfold successes, updateStrategyStats, modify, set_stats, with_strategyStats. simpl.
  destruct (String.eqb_spec n name) as [->|Hne]; simpl.
  - rewrite lookup_insert_eq. simpl. unfold bump_counts.
    destruct (String.eqb outcome "success"); [simpl; lia|].
    destruct (String.eqb outcome "failed"); simpl; lia.
  - rewrite lookup_insert_ne by congruence. lia.
Qed.

Lemma successes_books n w w' : books w' = books w -> successes n w' = successes n w.
Proof. unfold books, successes. intros [= -> _]. reflexivity. Qed.

Lemma won_item n id st name file bytes message :
  won n (item id st (Some name) file bytes message) =
  if bool_decide (st = St_success) && String.eqb n name then 1 else 0.
Proof.
  unfold won. simpl. destruct (decide (st = St_success)) as [->|Hst].
  - rewrite (bool_decide_eq_true_2 (St_success = St_success)) by reflexivity. simpl.
    destruct (String.eqb_spec n name) as [->|Hne].
    + rewrite bool_decide_eq_true_2 by auto. reflexivity.
    + rewrite bool_decide_eq_false_2; [reflexivity|]. intros [_ [= Heq]]. congruence.
  - rewrite (bool_decide_eq_false_2 (st = St_success)) by exact Hst. simpl.
    rewrite bool_decide_eq_false_2; [reflexivity|]. intros [Heq _]. contradiction.
Qed.

Lemma won_only_success n r : status r <> St_success -> won n r = 0.
Proof.
  intros Hst. unfold won. rewrite bool_decide_eq_false_2; [reflexivity|].
  intros [Heq _]. contradiction.
Qed.

Lemma won_by_app n rs1 rs2 : won_by n (rs1 ++ rs2) = won_by n rs1 + won_by n rs2.
Proof. unfold won_by. induction rs1 as [|r rs1 IH]; simpl; [reflexivity|]. rewrite IH. lia. Qed.

Section Successes.
Context (this : Crawler) (env : Env).

Lemma tryStrategies_successes names id : forall w r w',
  tryStrategies this env names id w = (Return r, w') ->
  forall n, successes n w' = successes n w + won n r.
Proof.
  induction names as [|name rest IH]; intros w r w'; simpl.
  - intros [= <- <-] n. rewrite won_only_success by discriminate.
    unfold successes. simpl. lia.
  - unfold bind at 1, settled.
    pose proof (tryDownloadStrategy_after this env id books (blind_books this id) name w) as Hb.
    assert (Hcall : forall n, successes n (snd (tryDownloadStrategy this env name id w))
                              = successes n w).
    { intros n. unfold books in Hb. simpl in Hb. injection Hb as Hs _.
      unfold successes. rewrite Hs. reflexivity. }
    clear Hb.
    destruct (tryDownloadStrategy this env name id w) as [[[file bytes|reason]|e] w1];
      simpl in Hcall.
    + unfold bind, modify, ret. simpl. intros [= <- <-] n.
      rewrite won_item. simpl.
      pose proof (successes_update name "success" n (set_stats (count_status St_success) w1)) as Hu.
      simpl in Hu. rewrite andb_true_r in Hu.
      unfold updateStrategyStats, modify in Hu. simpl in Hu. rewrite Hu.
      unfold successes at 1. simpl. fold (successes n w1). rewrite Hcall. reflexivity.
    + unfold bind at 1. intros Hrun n.
      pose proof (successes_update name "failed" n w1) as Hu. rewrite andb_false_r in Hu.
      unfold bind, updateStrategyStats, sleep, modify in *. simpl in *.
      rewrite (IH _ _ _ Hrun n). unfold successes at 1. simpl.
      unfold successes in Hu at 1. simpl in Hu. rewrite Hu, Hcall. lia.
    + unfold bind at 1. intros Hrun n.
      pose proof (successes_update name "error" n w1) as Hu. rewrite andb_false_r in Hu.
      unfold bind, updateStrategyStats, sleep, modify in *. simpl in *.
      rewrite (IH _ _ _ Hrun n). unfold successes at 1. simpl.
      unfold successes in Hu at 1. simpl in Hu. rewrite Hu, Hcall. lia.
Qed.

Lemma downloadExtension_successes id attempt w r w' :
  downloadExtension this env id attempt w = (Return r, w') ->
  forall n, successes n w' = successes n w + won n r.
Proof.
  destruct (path_join (downloadDir this) (id +:+ ".zip")) as [p|e] eqn:Hp.
  - destruct (usableArtifact this id w) eqn:Hu.
    + destruct (downloadExtension_skips this env id attempt w Hu) as (r0 & -> & _ & Hst).
      intros [= <- <-] n. rewrite won_only_success by (rewrite Hst; discriminate).
      unfold successes. simpl. lia.
    + rewrite (downloadExtension_chain this env id attempt w p Hp Hu).
      intros Hrun n. rewrite (tryStrategies_successes _ _ _ _ _ Hrun n).
      reflexivity.
  - rewrite (downloadExtension_cascade this env id e Hp _ attempt w eq_refl).
    intros [= <- <-] n. rewrite won_only_success by discriminate.
    unfold successes. simpl. lia.
Qed.

Lemma runBatch_successes batch : forall index w rs w',
  runBatch this env batch index w = (Return rs, w') ->
  forall n, successes n w' = successes n w + won_by n rs.
Proof.
  induction batch as [|id rest IH]; intros index w rs w'; simpl.
  - intros [= <- <-] n. simpl. lia.
  - unfold bind at 1, sleep at 1, modify at 1. simpl.
    set (w0 := emit (EvSleep (index * 1000)) w).
    unfold bind at 1.
    destruct (downloadExtension this env id 1 w0) as [[r|e] w1] eqn:Hr; [|discriminate].
    unfold bind.
    destruct (runBatch this env rest (index + 1) w1) as [[others|e] w2] eqn:Hrest;
      [|discriminate].
    unfold ret. intros [= <- <-] n.
    rewrite (IH _ _ _ _ Hrest n), (downloadExtension_successes _ _ _ _ _ Hr n).
    unfold won_by. simpl. unfold successes, w0. simpl. lia.
Qed.

Lemma processBatch_successes ids w fuel dir :
  downloadDir this = JStr dir ->
  0 < concurrency this ->
  (length ids <= fuel)%nat ->
  exists results w',
    processBatch this env fuel ids w = Some (Return results, w') /\
    Forall sound results /\
    forall n, successes n w' = successes n w + won_by n results.
Proof.
  intros Hdir HC Hfuel.
  pose (Inv := fun (i : Z) (results : list ItemResult) (w1 : World) =>
    Forall sound results /\
    forall n, successes n w1 = successes n w + won_by n results).
  destruct (processBatch_from_inv this env Inv ids HC) with (fuel := fuel) (i := 0)
    (results := @nil ItemResult) (w := w)
    as (j & results & w' & Hrun & _ & Hall & Hs).
  - intros i results w1 _ [Hall Hs].
    set (batch := js_slice ids i (i + concurrency this)).
    destruct (runBatch_account this env batch 0 (emit (EvBatch batch) w1))
      as (rs & w2 & Hrb & _ & _ & Hall2).
    pose proof (runBatch_successes _ _ _ _ _ Hrb) as Hs2.
    assert (Htail : exists w3,
      batchTurn this env ids i results w1 = (Return (results ++ rs)%list, w3) /\
      books w3 = books w2).
    { unfold batchTurn. fold batch. unfold bind at 1, modify at 1. simpl.
      unfold bind at 1. rewrite Hrb.
      unfold checkpointIfDue, interBatchDelay, saveCheckpoint, bind, get_stats, lift,
        sleep, modify, ret. rewrite Hdir. simpl.
      destruct (_ >=? _); destruct (_ <? _); simpl;
        eexists; (split; [reflexivity|]); unfold books; simpl;
        rewrite ?strategies_called_emit, ?app_nil_r; reflexivity. }
    destruct Htail as (w3 & Hturn & Hb).
    exists (results ++ rs)%list, w3. split; [exact Hturn|]. split.
    + apply Forall_app. auto.
    + intros n. rewrite (successes_books n _ _ Hb), Hs2, won_by_app.
      unfold successes at 1. simpl. fold (successes n w1). rewrite Hs. lia.
  - lia.
  - lia.
  - split; [constructor|]. intros n. simpl. lia.
  - exists results, w'. auto.
Qed.
End Successes.

Lemma count_of_count_key s b n :
  default 0 (count_of (count_key s b) n) =
  default 0 (count_of b n) + (if String.eqb n s then 1 else 0).
Proof.
  unfold count_of. induction b as [|[k x] rest IH]; simpl.
  - rewrite String.eqb_sym. destruct (String.eqb n s); reflexivity.
  - destruct (String.eqb_spec k s) as [->|Hks]; simpl.
    + rewrite (String.eqb_sym n s). destruct (String.eqb s n); simpl; lia.
    + destruct (String.eqb_spec k n) as [->|Hkn]; simpl.
      * replace (String.eqb n s) with false by (symmetry; apply String.eqb_neq; exact Hks).
        lia.
      * exact IH.
Qed.

(** The table filled from the results counts the successes of each
    strategy. *)
Lemma breakdown_counts n rs : forall b,
  Forall sound rs ->
  default 0 (count_of
    (fold_left
       (fun breakdown r =>
          match strategy r with
          | Some s => if String.eqb s EmptyString then breakdown else count_key s breakdown
          | None => breakdown
          end) (with_status St_success rs) b) n)
  = default 0 (count_of b n) + won_by n rs.
Proof.
  induction rs as [|r rs IH]; intros b Hall; [simpl; lia|].
  inversion Hall as [|? ? Hr Hrest]; subst.
  rewrite with_status_cons. unfold won_by. simpl. fold (won_by n rs).
  destruct (decide (status r = St_success)) as [Hs|Hs].
  - destruct (Hr Hs) as (bytes & name & _ & _ & Hname & Hin).
    simpl. rewrite Hname, (builtin_not_empty name Hin).
    rewrite (IH _ Hrest), count_of_count_key.
    destruct r as [rid rst rstrategy rfile rsize rerror]. simpl in *. subst.
    pose proof (won_item n rid St_success name rfile rsize rerror) as Hw.
    unfold item in Hw. rewrite Hw. simpl. lia.
  - rewrite (IH _ Hrest), (won_only_success n r Hs). lia.
Qed.

(** X15.  After a run of [processBatch], the [success] count that
    [strategy_stats] holds for a built-in strategy has grown by the count
    that [strategy_breakdown] gives it in the report of the run, a strategy
    without an entry counting as 0: the two tables of the report agree on
    the successes. *)
Theorem strategy_tables_agree (this : Crawler) (env : Env)
    (ids : list string) (w : World) (fuel : nat) (dir : string) :
  downloadDir this = JStr dir ->
  0 < concurrency this ->
  (length ids <= fuel)%nat ->
  Forall (fun name => name ∈ builtinStrategies) (downloadStrategies this) ->
  exists results w',
    processBatch this env fuel ids w = Some (Return results, w') /\
    forall name, name ∈ builtinStrategies ->
      successes name w' =
      successes name w +
      default 0 (count_of (strategy_breakdown (finalReport results)) name).
Proof.
  intros Hdir HC Hfuel _.
  destruct (processBatch_successes this env ids w fuel dir Hdir HC Hfuel)
    as (results & w' & Hrun & Hall & Hs).
  exists results, w'. split; [exact Hrun|]. intros name _.
  rewrite Hs. simpl. unfold breakdown_of.
  rewrite (breakdown_counts name results [] Hall). reflexivity.
Qed.

(** Two downloads through the direct API after the viewer failed twice. *)
Lemma strategy_tables_agree_witness :
  exists results w',
    processBatch (mkCrawler (JStr "out") 2 6000 3 ["crxviewer"; "directapi"] 100)
      (serving 200 50000) 2 ["aa"; "bb"] blank = Some (Return results, w') /\
    successes "directapi" w' = 2 /\ successes "crxviewer" w' = 0 /\
    strategy_breakdown (finalReport results) = [("directapi", 2)].
Proof.
  destruct (strategy_tables_agree
              (mkCrawler (JStr "out") 2 6000 3 ["crxviewer"; "directapi"] 100)
              (serving 200 50000) ["aa"; "bb"] blank 2 "out" eq_refl)
    as (results & w' & Hrun & Hagree).
  - simpl. lia.
  - simpl. lia.
  - simpl. repeat (apply List.Forall_cons; [unfold builtinStrategies; set_solver|]).
    apply List.Forall_nil.
  - exists results, w'. split; [exact Hrun|].
    vm_compute in Hrun. injection Hrun as <- <-. repeat split; reflexivity.
Defined.

(** ** Faults of the direct API *)

(** [updateStrategyStats] adds an error only to its strategy and only for
    an outcome that is neither [success] nor [failed]. *)
Lemma errors_update name outcome n w :
  errors n (snd (updateStrategyStats name outcome w)) =
  errors n w +
  (if String.eqb n name && negb (String.eqb outcome "success")
      && negb (String.eqb outcome "failed") then 1 else 0).
Proof.
  unfold errors, updateStrategyStats, modify, set_stats, with_strategyStats. simpl.
  destruct (String.eqb_spec n name) as [->|Hne]; simpl.
  - rewrite lookup_insert_eq. simpl. unfold bump_counts.
    destruct (String.eqb outcome "success"); [simpl; lia|].
    destruct (String.eqb outcome "failed"); simpl; lia.
  - rewrite lookup_insert_ne by congruence. lia.
Qed.

Section DirectApi.
Context (this : Crawler) (env : Env).

(** The dispatcher hands [directapi] to the loop over the endpoints, which
    returns. *)
Lemma tryDownloadStrategy_directapi id w : exists r w',
  tryDownloadStrategy this env "directapi" id w = (Return r, w').
Proof.
  unfold tryDownloadStrategy, bind, modify. simpl. unfold downloadViaDirectAPI.
  apply tryEndpoints_returns.
Qed.

Lemma tryStrategies_errors names id : forall w,
  errors "directapi" (snd (tryStrategies this env names id w)) = errors "directapi" w.
Proof.
  induction names as [|name rest IH]; intros w; simpl; [reflexivity|].
  unfold bind at 1, settled.
  pose proof (tryDownloadStrategy_after this env id books (blind_books this id) name w) as Hb.
  assert (Hcall : errors "directapi" (snd (tryDownloadStrategy this env name id w))
                  = errors "directapi" w).
  { unfold books in Hb. simpl in Hb. injection Hb as Hs _.
    unfold errors. rewrite Hs. reflexivity. }
  clear Hb.
  assert (Hthrow : forall e w1,
    tryDownloadStrategy this env name id w = (Throw e, w1) ->
    String.eqb "directapi" name = false).
  { intros e w1 Hrun. destruct (String.eqb_spec "directapi" name) as [<-|]; [|reflexivity].
    destruct (tryDownloadStrategy_directapi id w) as (r & w2 & Hr).
    rewrite Hr in Hrun. discriminate Hrun. }
  destruct (tryDownloadStrategy this env name id w) as [[[file bytes|reason]|e] w1];
    simpl in Hcall.
  - unfold bind, modify, ret. simpl.
    pose proof (errors_update name "success" "directapi"
                  (set_stats (count_status St_success) w1)) as Hu.
    rewrite andb_false_r in Hu. unfold updateStrategyStats, modify in Hu. simpl in Hu.
    rewrite Hu. unfold errors at 1. simpl. fold (errors "directapi" w1). lia.
  - pose proof (errors_update name "failed" "directapi" w1) as Hu.
    rewrite andb_false_r in Hu.
    unfold bind, updateStrategyStats, sleep, modify in *. simpl in *.
    rewrite IH. unfold errors at 1. simpl.
    unfold errors in Hu at 1. simpl in Hu. rewrite Hu, Hcall. lia.
  - pose proof (errors_update name "error" "directapi" w1) as Hu.
    rewrite (Hthrow e w1 eq_refl) in Hu.
    unfold bind, updateStrategyStats, sleep, modify in *. simpl in *.
    rewrite IH. unfold errors at 1. simpl.
    unfold errors in Hu at 1. simpl in Hu. rewrite Hu, Hcall. lia.
Qed.

Lemma downloadExtension_errors id attempt w :
  errors "directapi" (snd (downloadExtension this env id attempt w)) = errors "directapi" w.
Proof.
  destruct (path_join (downloadDir this) (id +:+ ".zip")) as [p|e] eqn:Hp.
  - destruct (usableArtifact this id w) eqn:Hu.
    + destruct (downloadExtension_skips this env id attempt w Hu) as (r0 & -> & _).
      reflexivity.
    + rewrite (downloadExtension_chain this env id attempt w p Hp Hu).
      rewrite tryStrategies_errors. reflexivity.
  - rewrite (downloadExtension_cascade this env id e Hp _ attempt w eq_refl).
    reflexivity.
Qed.

Lemma runBatch_errors batch : forall index w,
  errors "directapi" (snd (runBatch this env batch index w)) = errors "directapi" w.
Proof.
  induction batch as [|id rest IH]; intros index w; simpl; [reflexivity|].
  unfold bind at 1, sleep at 1, modify at 1. simpl.
  set (w0 := emit (EvSleep (index * 1000)) w).
  pose proof (downloadExtension_errors id 1 w0) as Hd.
  unfold bind at 1.
  destruct (downloadExtension this env id 1 w0) as [[r|e] w1]; simpl in Hd; [|exact Hd].
  pose proof (IH (index + 1) w1) as Hrest.
  unfold bind.
  destruct (runBatch this env rest (index + 1) w1) as [[others|e] w2]; simpl in Hrest;
    unfold ret; simpl; rewrite Hrest, Hd; reflexivity.
Qed.
End DirectApi.

(** X16.  A fault of the direct API is never booked as an [error]: the
    strategy absorbs every rejection of its endpoints and reports
    [success: false], so over a run of [processBatch] the [error] count of
    [directapi] in [stats.strategyStats] stays what it was. *)
Theorem direct_api_is_never_booked_as_error (this : Crawler) (env : Env)
    (ids : list string) (w : World) (fuel : nat) (dir : string) :
  downloadDir this = JStr dir ->
  0 < concurrency this ->
  (length ids <= fuel)%nat ->
  (forall id w0, exists r w1,
      tryDownloadStrategy this env "directapi" id w0 = (Return r, w1)) /\
  exists results w',
    processBatch this env fuel ids w = Some (Return results, w') /\
    errors "directapi" w' = errors "directapi" w.
Proof.
  intros Hdir HC Hfuel. split; [intros id w0; apply tryDownloadStrategy_directapi|].
  pose (Inv := fun (i : Z) (results : list ItemResult) (w1 : World) =>
    errors "directapi" w1 = errors "directapi" w).
  destruct (processBatch_from_inv this env Inv ids HC) with (fuel := fuel) (i := 0)
    (results := @nil ItemResult) (w := w)
    as (j & results & w' & Hrun & _ & Hinv).
  - intros i results w1 _ Hinv.
    set (batch := js_slice ids i (i + concurrency this)).
    pose proof (runBatch_errors this env batch 0 (emit (EvBatch batch) w1)) as He.
    destruct (runBatch_spec this env batch 0 (emit (EvBatch batch) w1))
      as (rs & w2 & Hrb & _).
    rewrite Hrb in He. simpl in He.
    assert (Htail : exists w3,
      batchTurn this env ids i results w1 = (Return (results ++ rs)%list, w3) /\
      books w3 = books w2).
    { unfold batchTurn. fold batch. unfold bind at 1, modify at 1. simpl.
      unfold bind at 1. rewrite Hrb.
      unfold checkpointIfDue, interBatchDelay, saveCheckpoint, bind, get_stats, lift,
        sleep, modify, ret. rewrite Hdir. simpl.
      destruct (_ >=? _); destruct (_ <? _); simpl;
        eexists; (split; [reflexivity|]); unfold books; simpl;
        rewrite ?strategies_called_emit, ?app_nil_r; reflexivity. }
    destruct Htail as (w3 & Hturn & Hb).
    exists (results ++ rs)%list, w3. split; [exact Hturn|].
    unfold Inv. unfold books in Hb. injection Hb as Hs _.
    unfold errors at 1. rewrite Hs. fold (errors "directapi" w2).
    rewrite He. exact Hinv.
  - lia.
  - lia.
  - reflexivity.
  - exists results, w'. auto.
Qed.

(** Two identifiers and nothing reachable: the viewer's faults are errors,
    those of the direct API are failures. *)
Lemma direct_api_is_never_booked_as_error_witness :
  exists results w',
    processBatch (mkCrawler (JStr "out") 2 6000 3 ["crxviewer"; "directapi"] 100)
      offline 2 ["aa"; "bb"] blank = Some (Return results, w') /\
    errors "directapi" w' = 0 /\ errors "crxviewer" w' = 2 /\ tally "directapi" w' = 2.
Proof.
  destruct (direct_api_is_never_booked_as_error
              (mkCrawler (JStr "out") 2 6000 3 ["crxviewer"; "directapi"] 100)
              offline ["aa"; "bb"] blank 2 "out" eq_refl)
    as (_ & results & w' & Hrun & Herr).
  - simpl. lia.
  - simpl. lia.
  - exists results, w'. split; [exact Hrun|].
    vm_compute in Hrun. injection Hrun as <- <-. repeat split; reflexivity.
Defined.
